(** * libecli: session contexts, command resolution, configuration replay
      and configuration output

    A shallow embedding of the parts of [lib/ecli.c] that manage the context
    stack and the prompt, build and expand the command handed to the grammar,
    process one input line, replay a configuration file, keep the output
    registry and dump it, and substitute named placeholders; of the loops
    that read lines from the standard input, from editline and from the TCP
    client, with the callbacks that admit one client at a time; of the
    lookup and display of the extended documentation; and of the callback
    and output-format registries of [lib/ecli_yaml.c].

    Conventions of the embedding.
    - A C string is a [string]; a pointer that the code tests against NULL is
      an [option].  Every fixed-size buffer keeps its size: [snprintf],
      [strncat] and [strncpy] cut what they store exactly as the C calls do.
    - Where the behaviour of the C code is undefined a function of the model
      has no result ([None]): incrementing [context_depth] or a counter of
      the replay loop, C [int]s kept as [Z], at INT_MAX, and storing the
      terminator of [ecli_out_fmt] outside its buffer.
    - [malloc], [calloc] and [strdup] are taken to succeed.
    - libecoli (the grammar engine) is not part of the library: its entry
      points are the fields of [ec_node], and command handlers are functions
      over an application state of an arbitrary type. *)

From Stdlib Require Import ZArith List String Ascii Bool Arith Lia.
From Stdlib Require Import DecimalString Sorted Permutation.
Import ListNotations.
Local Open Scope string_scope.

(* ================================================================== *)
(** ** C strings and the bounded libc calls *)

Definition LF : ascii := ascii_of_nat 10.
Definition CR : ascii := ascii_of_nat 13.
Definition TAB : ascii := ascii_of_nat 9.

(** A one-byte newline, written ["\n"] in the C sources. *)
Definition nl : string := String LF "".

(** The first [n] bytes of [s]. *)
Fixpoint strtrunc (n : nat) (s : string) : string :=
  match n, s with
  | S n', String c s' => String c (strtrunc n' s')
  | _, _ => ""
  end.

(** [snprintf(buf, size, "%s", s)]: at most [size - 1] bytes are stored. *)
Definition snprintf (size : nat) (s : string) : string :=
  strtrunc (size - 1) s.

(** [strncat(dest, src, n)]: at most [n] bytes of [src] are appended. *)
Definition strncat (dest src : string) (n : nat) : string :=
  dest ++ strtrunc n src.

(** [strncpy(dest, src, n); dest[n] = '\0'] *)
Definition strncpy (src : string) (n : nat) : string :=
  strtrunc n src.

(** [n] copies of a byte; used to write long inputs down. *)
Fixpoint replicate (n : nat) (c : ascii) : string :=
  match n with
  | O => ""
  | S n' => String c (replicate n' c)
  end.

(** [strchr(s, c) == NULL] *)
Fixpoint no_char (c : ascii) (s : string) : bool :=
  match s with
  | "" => true
  | String d s' => negb (Ascii.eqb d c) && no_char c s'
  end.

(** The text split at its newlines, a final unterminated line included. *)
Fixpoint lines_aux (cur : string) (s : string) : list string :=
  match s with
  | "" => if cur =? "" then [] else [cur]
  | String c s' =>
      if Ascii.eqb c LF then cur :: lines_aux "" s'
      else lines_aux (cur ++ String c "") s'
  end.

Definition lines (s : string) : list string := lines_aux "" s.

(* ================================================================== *)
(** ** Session context: stack, depth and prompt *)

Definition INT_MAX : Z := 2147483647.

Record ecli_config_t := mk_config {
  prompt : string
}.

(** [struct eecli_ctx], the fields the modelled functions read or write.
    The TAILQ of context entries is the list of their names, outermost
    first. *)
Record eecli_ctx_t := mk_ctx {
  config : ecli_config_t;
  use_yaml : bool;
  context_stack : list string;
  context_depth : Z;
  current_prompt : string
}.

Definition set_prompt (cli : eecli_ctx_t) (p : string) : eecli_ctx_t :=
  mk_ctx (config cli) (use_yaml cli) (context_stack cli) (context_depth cli) p.

Definition set_stack (cli : eecli_ctx_t) (st : list string) (d : Z)
  : eecli_ctx_t :=
  mk_ctx (config cli) (use_yaml cli) st d (current_prompt cli).

(** What the session writes: [Write] is the buffer [ecli_write] hands to the
    transport, [Stderr] a line printed on the standard error stream. *)
Inductive event :=
| Write (s : string)
| Stderr (s : string).

(** [ecli_write(cli, "%s", s)]: formatted into a 1024-byte buffer. *)
Definition ecli_write (s : string) : event := Write (snprintf 1024 s).

(** [ecli_output(cli, fmt, ...)]: formatted into 1024 bytes, then written. *)
Definition ecli_output (s : string) : event := ecli_write (snprintf 1024 s).

(** [ecli_err(cli, fmt, ...)] *)
Definition ecli_err (s : string) : event :=
  ecli_write ("Error: " ++ snprintf 1024 s).

Definition is_glyph (c : ascii) : bool :=
  Ascii.eqb c ">" || Ascii.eqb c "#".

Definition glyph_at (base : string) (i : nat) : bool :=
  match get i base with
  | Some c => is_glyph c
  | None => false
  end.

(** The TAILQ_FOREACH of [ecli_update_prompt] filling [context_path[128]]. *)
Fixpoint context_path_loop (entries : list string) (context_path : string)
    (first : bool) : string :=
  match entries with
  | [] => context_path
  | name :: rest =>
      let p1 := if first then context_path
                else strncat context_path "-" (128 - length context_path - 1) in
      let p2 := strncat p1 name (128 - length p1 - 1) in
      context_path_loop rest p2 false
  end.

(** The two tests that cut the mode glyph off the copy of the base prompt. *)
Definition strip_glyph (base : string) : string :=
  let len := length base in
  if (2 <=? len)%nat && glyph_at base (len - 2) then strtrunc (len - 2) base
  else if (1 <=? len)%nat && glyph_at base (len - 1) then strtrunc (len - 1) base
  else base.

Definition ecli_update_prompt (cli : eecli_ctx_t) : eecli_ctx_t :=
  if (context_depth cli =? 0)%Z then
    set_prompt cli (snprintf 256 (prompt (config cli)))
  else
    let context_path := context_path_loop (context_stack cli) "" true in
    let base := strip_glyph (strncpy (prompt (config cli)) 63) in
    set_prompt cli
      (snprintf 256
         (strtrunc 59 base ++ "(" ++ strtrunc 128 context_path ++ ")> ")).

Definition ecli_prompt (cli : eecli_ctx_t) : event :=
  ecli_write (current_prompt cli).

(** The session [ecli_init] leaves behind: empty stack, prompt computed. *)
Definition ecli_init (cfg : ecli_config_t) (yaml : bool) : eecli_ctx_t :=
  ecli_update_prompt (mk_ctx cfg yaml [] 0%Z "").

Definition ecli_enter_context (cli : eecli_ctx_t) (context : string)
  : option (Z * eecli_ctx_t) :=
  if (context_depth cli =? INT_MAX)%Z then None
  else
    Some (0%Z,
          ecli_update_prompt
            (set_stack cli (context_stack cli ++ [context])
                       (context_depth cli + 1)%Z)).

Definition ecli_exit_context (cli : eecli_ctx_t)
  : Z * eecli_ctx_t * list event :=
  if (context_depth cli =? 0)%Z then
    ((-1)%Z, cli, [ecli_write ("Already at top level" ++ nl)])
  else
    let cli1 :=
      match context_stack cli with
      | [] => cli
      | _ :: _ =>
          set_stack cli (removelast (context_stack cli))
                    (context_depth cli - 1)%Z
      end in
    (0%Z, ecli_update_prompt cli1, []).

Definition ecli_exit_all_contexts (cli : eecli_ctx_t) : eecli_ctx_t :=
  ecli_update_prompt (set_stack cli [] 0%Z).

(** The TAILQ_FOREACH of [ecli_build_full_command]. *)
Fixpoint prepend_contexts (entries : list string) (full_cmd : string)
    (size : nat) : string :=
  match entries with
  | [] => full_cmd
  | name :: rest =>
      let f1 := strncat full_cmd name (size - length full_cmd - 1) in
      let f2 := strncat f1 " " (size - length f1 - 1) in
      prepend_contexts rest f2 size
  end.

(** [size] is the capacity of [full_cmd], at least 1 (the callers pass 512
    and 1024). *)
Definition ecli_build_full_command (cli : eecli_ctx_t) (line : string)
    (size : nat) : string :=
  if (context_depth cli =? 0)%Z then strncpy line (size - 1)
  else
    let full_cmd := prepend_contexts (context_stack cli) "" size in
    strncat full_cmd line (size - length full_cmd - 1).

(* ================================================================== *)
(** ** The grammar engine and the command handlers *)

(** A command handler of type [ecli_cmd_cb_t], called as [cb(cli, parse)]:
    from the application state and the parse tree to the status it returns,
    the new application state and what it wrote.  The session structure is
    opaque to handlers and the context functions are static, so a handler
    leaves the context stack alone. *)
Definition handler (A pnode : Type) : Type :=
  A -> pnode -> Z * A * list event.

(** The grammar of a session with the libecoli calls made on it, and the
    two handler tables: the callback attribute of the matched nodes (direct
    mode) and the name attribute with the table of registered names
    (symbolic mode).  [ec_comp_count] and [ec_comp_iter_first] are the calls
    with the mask [EC_COMP_FULL | EC_COMP_PARTIAL]. *)
Record ec_node (A : Type) := mk_ec_node {
  ec_pnode : Type;
  ec_comp : Type;
  ec_comp_item : Type;
  ec_parse : string -> option ec_pnode;
  ec_pnode_matches : ec_pnode -> bool;
  ec_complete : string -> option ec_comp;
  ec_comp_count : ec_comp -> nat;
  ec_comp_iter_first : ec_comp -> option ec_comp_item;
  ec_comp_item_get_str : ec_comp_item -> option string;
  ecli_cmd_lookup_callback : ec_pnode -> option (handler A ec_pnode);
  ecli_yaml_get_callback_name : ec_pnode -> option string;
  lookup_callback : string -> option (handler A ec_pnode)
}.

Arguments ec_pnode {A} _.
Arguments ec_comp {A} _.
Arguments ec_comp_item {A} _.
Arguments ec_parse {A} _ _.
Arguments ec_pnode_matches {A} _ _.
Arguments ec_complete {A} _ _.
Arguments ec_comp_count {A} _ _.
Arguments ec_comp_iter_first {A} _ _.
Arguments ec_comp_item_get_str {A} _ _.
Arguments ecli_cmd_lookup_callback {A} _ _.
Arguments ecli_yaml_get_callback_name {A} _ _.
Arguments lookup_callback {A} _ _.

(* ================================================================== *)
(** ** Abbreviation expansion *)

(** The expanded token, or [None] when there is no unique completion. *)
Definition expand_single_token {A} (grammar : ec_node A)
    (partial_cmd : string) : option string :=
  match ec_complete grammar partial_cmd with
  | None => None
  | Some comp =>
      if negb (ec_comp_count grammar comp =? 1)%nat then None
      else
        match ec_comp_iter_first grammar comp with
        | None => None
        | Some item => ec_comp_item_get_str grammar item
        end
  end.

Definition is_delim (c : ascii) : bool :=
  Ascii.eqb c " " || Ascii.eqb c TAB.

(** The tokens that the successive [strtok_r] calls on space and tab
    return: the maximal runs of bytes that are neither space nor tab. *)
Fixpoint strtok_aux (tok : string) (s : string) : list string :=
  match s with
  | "" => if tok =? "" then [] else [tok]
  | String c s' =>
      if is_delim c then
        if tok =? "" then strtok_aux "" s' else tok :: strtok_aux "" s'
      else strtok_aux (tok ++ String c "") s'
  end.

Definition strtok_all (s : string) : list string := strtok_aux "" s.

(** [result[0] != '\0'] *)
Definition nonempty (s : string) : bool :=
  match s with
  | "" => false
  | String _ _ => true
  end.

(** One of the two branches that append to [result[4096]]. *)
Definition append_token (result tok : string) : string :=
  let r1 := if nonempty result
            then strncat result " " (4096 - length result - 1)
            else result in
  strncat r1 tok (4096 - length r1 - 1).

(** The [while (token)] loop of [expand_prefixes]. *)
Fixpoint expand_loop {A} (grammar : ec_node A) (tokens : list string)
    (result : string) (expanded_any : bool) : string * bool :=
  match tokens with
  | [] => (result, expanded_any)
  | token :: rest =>
      let partial := if nonempty result then result ++ " " ++ token
                     else token in
      match expand_single_token grammar partial with
      | Some expanded_token =>
          expand_loop grammar rest
            (append_token result expanded_token)
            (if negb (token =? expanded_token) then true else expanded_any)
      | None =>
          expand_loop grammar rest (append_token result token) expanded_any
      end
  end.

(** [None] is the NULL that stands for no expansion needed or possible.
    The session and its grammar exist, and [cmd] is not NULL. *)
Definition expand_prefixes {A} (grammar : ec_node A) (cmd : string)
  : option string :=
  if negb (nonempty cmd) then None
  else
    let '(result, expanded_any) :=
      expand_loop grammar (strtok_all cmd) "" false in
    if expanded_any then Some result else None.

(* ================================================================== *)
(** ** Dispatch and the processing of one input line *)

Definition ecli_yaml_dispatch {A} (grammar : ec_node A) (app : A)
    (parse : ec_pnode grammar) : Z * A * list event :=
  match ecli_yaml_get_callback_name grammar parse with
  | None =>
      ((-1)%Z, app,
       [ecli_err ("No callback attribute found in parse tree" ++ nl)])
  | Some cb_name =>
      match lookup_callback grammar cb_name with
      | None =>
          ((-1)%Z, app,
           [ecli_err ("No handler registered for callback: " ++ cb_name ++ nl)])
      | Some callback => callback app parse
      end
  end.

(** The block [if (cli->use_yaml) ... else ... cb ? cb(cli, parse) : -1]. *)
Definition run_callback {A} (grammar : ec_node A) (cli : eecli_ctx_t)
    (app : A) (parse : ec_pnode grammar) : Z * A * list event :=
  if use_yaml cli then ecli_yaml_dispatch grammar app parse
  else
    match ecli_cmd_lookup_callback grammar parse with
    | Some cb => cb app parse
    | None => ((-1)%Z, app, [])
    end.

(** [g_context_groups] is the list of registered keywords. *)
Definition is_context_group (g_context_groups : list string)
    (keyword : string) : bool :=
  existsb (fun k => k =? keyword) g_context_groups.

(** The loop that advances [line] over leading spaces and tabs. *)
Fixpoint skip_blanks (s : string) : string :=
  match s with
  | "" => ""
  | String c s' => if is_delim c then skip_blanks s' else s
  end.

(** All the trailing bytes of [s] that satisfy [ws], removed. *)
Fixpoint rstrip (ws : ascii -> bool) (s : string) : string :=
  match s with
  | "" => ""
  | String c s' =>
      let r := rstrip ws s' in
      if ws c && negb (nonempty r) then "" else String c r
  end.

(** [end = s + strlen(s) - 1; while (end > s && ws( *end)) *end-- = 0]:
    the loop stops at the first byte, which therefore always stays. *)
Definition trim_tail (ws : ascii -> bool) (s : string) : string :=
  match s with
  | "" => ""
  | String c s' => String c (rstrip ws s')
  end.

(** Trailing bytes cut by [process_line]. *)
Definition line_tail (c : ascii) : bool :=
  Ascii.eqb c LF || Ascii.eqb c CR || Ascii.eqb c " ".

(** Trailing bytes cut by [ecli_load_config]. *)
Definition config_tail (c : ascii) : bool :=
  Ascii.eqb c LF || Ascii.eqb c CR || Ascii.eqb c " " || Ascii.eqb c TAB.

(** The expanded command when it parses to a complete match. *)
Definition expanded_match {A} (grammar : ec_node A) (full_cmd : string)
  : option (ec_pnode grammar) :=
  match expand_prefixes grammar full_cmd with
  | None => None
  | Some expanded =>
      match ec_parse grammar expanded with
      | Some exp_parse =>
          if ec_pnode_matches grammar exp_parse then Some exp_parse else None
      | None => None
      end
  end.

(** Handler call, failure notice and prompt that end [process_line]. *)
Definition dispatch_and_prompt {A} (grammar : ec_node A) (cli : eecli_ctx_t)
    (app : A) (parse : ec_pnode grammar) : eecli_ctx_t * A * list event :=
  let '(ret, app', evs) := run_callback grammar cli app parse in
  (cli, app',
   (evs ++ (if (ret <? 0)%Z
            then [ecli_err ("No handler for command" ++ nl)] else [])
        ++ [ecli_prompt cli])%list).

(** [process_line] from the construction of the full command on: what is
    done with a trimmed line that is not a reserved word. *)
Definition resolve_line {A} (grammar : ec_node A)
    (g_context_groups : list string) (cli : eecli_ctx_t) (app : A)
    (line : string) : option (eecli_ctx_t * A * list event) :=
  let full_cmd := ecli_build_full_command cli line 512 in
  match ec_parse grammar full_cmd with
  | None => Some (cli, app, [ecli_err ("Parse error" ++ nl); ecli_prompt cli])
  | Some parse =>
      if negb (ec_pnode_matches grammar parse) then
        match expanded_match grammar full_cmd with
        | Some exp_parse => Some (dispatch_and_prompt grammar cli app exp_parse)
        | None =>
            if no_char " " line && is_context_group g_context_groups line then
              match ecli_enter_context cli line with
              | None => None
              | Some (_, cli') => Some (cli', app, [ecli_prompt cli'])
              end
            else
              Some (cli, app,
                    [ecli_err ("Unknown command: " ++ line ++ nl);
                     ecli_prompt cli])
        end
      else Some (dispatch_and_prompt grammar cli app parse)
  end.

Definition process_line {A} (grammar : ec_node A)
    (g_context_groups : list string) (cli : eecli_ctx_t) (app : A)
    (line : string) : option (eecli_ctx_t * A * list event) :=
  let line := trim_tail line_tail (skip_blanks line) in
  if negb (nonempty line) then Some (cli, app, [ecli_prompt cli])
  else if line =? "end" then
    let cli' := ecli_exit_all_contexts cli in
    Some (cli', app, [ecli_prompt cli'])
  else if (line =? "exit") && (0 <? context_depth cli)%Z then
    let '(_, cli', evs) := ecli_exit_context cli in
    Some (cli', app, (evs ++ [ecli_prompt cli'])%list)
  else resolve_line grammar g_context_groups cli app line.

(* ================================================================== *)
(** ** Configuration replay *)

(** [%d] *)
Definition decimal (z : Z) : string := NilZero.string_of_int (Z.to_int z).

Definition execute_command {A} (grammar : ec_node A) (cli : eecli_ctx_t)
    (app : A) (line : string) : Z * A * list event :=
  let full_cmd := ecli_build_full_command cli line 512 in
  match ec_parse grammar full_cmd with
  | None =>
      ((-1)%Z, app, [Stderr (" Config: parse error for: " ++ line ++ nl)])
  | Some parse =>
      if negb (ec_pnode_matches grammar parse) then
        ((-1)%Z, app, [Stderr (" Config: unknown command: " ++ line ++ nl)])
      else
        let '(ret, app', evs) := run_callback grammar cli app parse in
        (ret, app',
         (evs ++ (if (ret <? 0)%Z
                  then [Stderr (" Config: command failed: " ++ line ++ nl)]
                  else []))%list)
  end.

(** The buffers that the successive calls [fgets(line, size, fp)] fill:
    each holds at most [size - 1] bytes and ends after a newline. [room] is
    the number of bytes still free in the buffer being filled. *)
Fixpoint fgets_aux (size room : nat) (cur : string) (s : string)
  : list string :=
  match s with
  | "" => if nonempty cur then [cur] else []
  | String c s' =>
      let cur' := cur ++ String c "" in
      if Ascii.eqb c LF || (room <=? 1)%nat
      then cur' :: fgets_aux size (size - 1) "" s'
      else fgets_aux size (room - 1) cur' s'
  end.

Definition fgets_all (size : nat) (content : string) : list string :=
  fgets_aux size (size - 1) "" content.

(** [*p == '!' || *p == '#'] *)
Definition is_comment (p : string) : bool :=
  match p with
  | String c _ => Ascii.eqb c "!" || Ascii.eqb c "#"
  | "" => false
  end.

(** The [while (fgets(...))] loop of [ecli_load_config] over the buffers
    read.  [line_num] and [error_count] are C ints kept as [Z]: the loop has
    no result when one of them is incremented at INT_MAX.  The third counter
    of the code, [cmd_count], is never read and never exceeds [line_num],
    which is incremented first. *)
Fixpoint load_config_loop {A} (grammar : ec_node A) (cli : eecli_ctx_t)
    (app : A) (buffers : list string) (line_num error_count : Z)
  : option (Z * A * list event) :=
  match buffers with
  | [] => Some (error_count, app, [])
  | line :: rest =>
      if (line_num =? INT_MAX)%Z then None
      else
        let line_num := (line_num + 1)%Z in
        let p := trim_tail config_tail (skip_blanks line) in
        if negb (nonempty p) then
          load_config_loop grammar cli app rest line_num error_count
        else if is_comment p then
          load_config_loop grammar cli app rest line_num error_count
        else
          let '(ret, app1, evs) := execute_command grammar cli app p in
          if (ret <? 0)%Z then
            if (error_count =? INT_MAX)%Z then None
            else
              match load_config_loop grammar cli app1 rest line_num
                                     (error_count + 1)%Z with
              | None => None
              | Some (n, app2, evs') =>
                  Some (n, app2,
                        (evs ++ Stderr (" Config error at line "
                                          ++ decimal line_num
                                          ++ ": " ++ p ++ nl) :: evs')%list)
              end
          else
            match load_config_loop grammar cli app1 rest line_num
                                   error_count with
            | None => None
            | Some (n, app2, evs') => Some (n, app2, (evs ++ evs')%list)
            end
  end.

(** [g_ecli_ctx] is the session or NULL; [file] is what [fopen] gives: the
    content of the file, or the text of [strerror(errno)].  The result is
    that of the loop: none when a counter overflows. *)
Definition ecli_load_config {A} (grammar : ec_node A)
    (g_ecli_ctx : option eecli_ctx_t) (filename : string)
    (file : string + string) (app : A) : option (Z * A * list event) :=
  match g_ecli_ctx with
  | None =>
      Some ((-1)%Z, app,
            [Stderr (" ecli_load_config: CLI not initialized" ++ nl)])
  | Some cli =>
      match file with
      | inr err =>
          Some ((-1)%Z, app,
                [Stderr ("Cannot open config file: " ++ filename ++ ": " ++ err
                           ++ nl)])
      | inl content =>
          load_config_loop grammar cli app (fgets_all 1024 content) 0 0
      end
  end.

(* ================================================================== *)
(** ** Output registry and the dump of the running configuration *)

(** The sink of an output function is the pair [(cli, fp)]: the open file
    when [fp] is not NULL ([true] here), else the session.  [ECLI_OUT] gives
    the text that reaches the sink: [fprintf] writes it whole, [ecli_output]
    formats it into 1024 bytes (the session exists). *)
Definition ECLI_OUT (fp : bool) (s : string) : string :=
  if fp then s else snprintf 1024 (snprintf 1024 s).

(** An output function [void func(cli, fp, fmt)] reads the application
    state and hands texts to the sink; [None] stands for a call whose
    behaviour is undefined. *)
Definition ecli_out_t (A : Type) : Type :=
  A -> bool -> option string -> option (list string).

Record ecli_out_entry_t (A : Type) := mk_out_entry {
  name : option string;
  group : option string;
  default_fmt : option string;
  func : option (ecli_out_t A);
  priority : Z
}.

Arguments mk_out_entry {A} _ _ _ _ _.
Arguments name {A} _.
Arguments group {A} _.
Arguments default_fmt {A} _.
Arguments func {A} _.
Arguments priority {A} _.

(** The walk [while ( *pp && ( *pp)->priority <= priority) pp = &( *pp)->next]
    followed by the insertion of [entry] at [*pp]. *)
Fixpoint out_insert {A} (entry : ecli_out_entry_t A)
    (pp : list (ecli_out_entry_t A)) : list (ecli_out_entry_t A) :=
  match pp with
  | [] => [entry]
  | e :: rest =>
      if (priority e <=? priority entry)%Z then e :: out_insert entry rest
      else entry :: pp
  end.

(** The new value of [g_cli_out_head]. *)
Definition ecli_out_register {A} (g_cli_out_head : list (ecli_out_entry_t A))
    (name group default_fmt : option string) (func : option (ecli_out_t A))
    (priority : Z) : list (ecli_out_entry_t A) :=
  out_insert (mk_out_entry name group default_fmt func priority)
             g_cli_out_head.

(** [output_fmt_registry] is the list of (callback name, format). *)
Fixpoint ecli_yaml_get_output_fmt (output_fmt_registry : list (string * string))
    (callback_name : option string) : option string :=
  match callback_name with
  | None => None
  | Some n =>
      match output_fmt_registry with
      | [] => None
      | (k, fmt) :: rest =>
          if k =? n then Some fmt
          else ecli_yaml_get_output_fmt rest callback_name
      end
  end.

Definition ecli_out_get_fmt (output_fmt_registry : list (string * string))
    (name default_fmt : option string) : option string :=
  match ecli_yaml_get_output_fmt output_fmt_registry name with
  | Some yaml_fmt => Some yaml_fmt
  | None => default_fmt
  end.

(** The test [e->group && (!current_group || strcmp(...) != 0)]. *)
Definition group_changed (current_group e_group : option string) : bool :=
  match e_group with
  | None => false
  | Some g =>
      match current_group with
      | None => true
      | Some cur => negb (cur =? g)
      end
  end.

(** The separator lines printed when the group changes. *)
Definition group_separator (fp : bool) (current_group : option string)
    (g : string) : list string :=
  (match current_group with
   | Some cur => [ECLI_OUT fp ("! end " ++ cur ++ nl)]
   | None => []
   end ++ [ECLI_OUT fp ("! " ++ g ++ " configuration" ++ nl)])%list.

(** The [for] loop of [ecli_dump_running_config]: the texts handed to the
    sink and the last value of [current_group]. *)
Fixpoint dump_loop {A} (output_fmt_registry : list (string * string))
    (app : A) (fp : bool) (entries : list (ecli_out_entry_t A))
    (current_group : option string) : option (list string * option string) :=
  match entries with
  | [] => Some ([], current_group)
  | e :: rest =>
      let '(sep, current_group') :=
        if group_changed current_group (group e) then
          match group e with
          | Some g => (group_separator fp current_group g, Some g)
          | None => ([], current_group)
          end
        else ([], current_group) in
      match
        match func e with
        | Some f =>
            f app fp (ecli_out_get_fmt output_fmt_registry (name e)
                                       (default_fmt e))
        | None => Some []
        end
      with
      | None => None
      | Some body =>
          match dump_loop output_fmt_registry app fp rest current_group' with
          | None => None
          | Some (out, last) => Some ((sep ++ body ++ out)%list, last)
          end
      end
  end.

Definition ecli_dump_running_config {A}
    (output_fmt_registry : list (string * string))
    (g_cli_out_head : list (ecli_out_entry_t A)) (app : A) (fp : bool)
  : option (list string) :=
  match dump_loop output_fmt_registry app fp g_cli_out_head None with
  | None => None
  | Some (out, current_group) =>
      Some ([ECLI_OUT fp ("! running configuration" ++ nl);
             ECLI_OUT fp ("!" ++ nl)]
            ++ out
            ++ match current_group with
               | Some cur => [ECLI_OUT fp ("! end " ++ cur ++ nl)]
               | None => []
               end
            ++ [ECLI_OUT fp ("!" ++ nl); ECLI_OUT fp ("! end" ++ nl)])%list
  end.

(** The whole text of a dump. *)
Definition text_of (chunks : list string) : string := concat "" chunks.

(* ================================================================== *)
(** ** Named-placeholder substitution *)

Definition ECLI_FMT_MAX_PARAMS : nat := 16.

(** A value with its type tag, one of the five that [ecli_out_fmt] reads. *)
Inductive ecli_fmt_val :=
| FMT_STR (str : option string)
| FMT_INT (i : Z)
| FMT_UINT (u : Z)
| FMT_LONG (l : Z)
| FMT_ULONG (ul : Z).

(** A name/type/value triple of the argument list; the end of the list is
    the NULL sentinel. *)
Definition ecli_fmt_param_t : Type := (string * ecli_fmt_val)%type.

(** The text that the [snprintf] of the matching case produces. *)
Definition render (v : ecli_fmt_val) : string :=
  match v with
  | FMT_STR (Some s) => s
  | FMT_STR None => "(null)"
  | FMT_INT i => decimal i
  | FMT_UINT u => decimal u
  | FMT_LONG l => decimal l
  | FMT_ULONG ul => decimal ul
  end.

(** The loop that fills [params[]]: it stops at 16 entries or at the end of
    the arguments. *)
Fixpoint read_params (num_free : nat) (ap : list ecli_fmt_param_t)
  : list ecli_fmt_param_t :=
  match num_free, ap with
  | S n, a :: ap' => a :: read_params n ap'
  | _, _ => []
  end.

(** The [for] loop comparing [params[i].name] with [name_buf]. *)
Fixpoint find_param (params : list ecli_fmt_param_t) (name_buf : string)
  : option ecli_fmt_val :=
  match params with
  | [] => None
  | (n, v) :: rest => if n =? name_buf then Some v else find_param rest name_buf
  end.

(** [strchr(s, c) - s], when [c] occurs in [s]. *)
Fixpoint strchr (s : string) (c : ascii) : option nat :=
  match s with
  | "" => None
  | String d s' =>
      if Ascii.eqb d c then Some 0
      else match strchr s' c with Some k => Some (S k) | None => None end
  end.

(** [p + n] *)
Fixpoint advance (n : nat) (p : string) : string :=
  match n, p with
  | S n', String _ p' => advance n' p'
  | _, _ => p
  end.

(** [out_end - output]: the offset of the last byte of [output[1024]]. *)
Definition out_end : nat := 1023.

(** The loop [while ( *p && out < out_end)] of [ecli_out_fmt].  [output] is
    the text stored so far up to its terminator, [out] the offset of the
    pointer of that name, which runs ahead of the stored text once a
    [snprintf] has cut its value.  Each turn consumes at least one byte of
    [p], and [fuel] counts the turns left. *)
Fixpoint fmt_loop (fuel : nat) (params : list ecli_fmt_param_t) (p : string)
    (output : string) (out : nat) : string * nat :=
  match fuel with
  | O => (output, out)
  | S fuel' =>
      match p with
      | "" => (output, out)
      | String c p' =>
          if negb (out <? out_end)%nat then (output, out)
          else
            let plain :=
              fmt_loop fuel' params p' (output ++ String c "") (out + 1) in
            if Ascii.eqb c "{" then
              match strchr p' "}" with
              | None => plain
              | Some name_len =>
                  let name_buf := strtrunc name_len p' in
                  match (if (name_len <? 64)%nat
                         then find_param params name_buf else None) with
                  | Some v =>
                      let value := render v in
                      let written := length value in
                      fmt_loop fuel' params (advance (name_len + 1) p')
                        (output ++ snprintf (out_end - out) value)
                        (out + written)
                  | None =>
                      let n := Nat.min (name_len + 2) (out_end - out) in
                      fmt_loop fuel' params (advance n p)
                        (output ++ strtrunc n p) (out + n)
                  end
              end
            else plain
      end
  end.

(** [None] when the final [*out = '\0'] falls outside [output[1024]];
    otherwise the texts handed to the sink (none when [fmt] is NULL). *)
Definition ecli_out_fmt (fp : bool) (fmt : option string)
    (ap : list ecli_fmt_param_t) : option (list string) :=
  match fmt with
  | None => Some []
  | Some f =>
      let params := read_params ECLI_FMT_MAX_PARAMS ap in
      let '(output, out) := fmt_loop (length f) params f "" 0 in
      if (out <=? out_end)%nat then Some [ECLI_OUT fp output] else None
  end.

(* ================================================================== *)
(** ** Reference descriptions used by the statements *)

(** Two strings joined by one space; the second alone when the first is
    empty. *)
Definition join_sp (acc tok : string) : string :=
  if nonempty acc then acc ++ " " ++ tok else tok.

(** What a token becomes after the tokens already rebuilt into [acc]: the
    value of the single completion of the candidate, else the token. *)
Definition replacement {A} (grammar : ec_node A) (acc tok : string)
  : string :=
  match expand_single_token grammar (join_sp acc tok) with
  | Some v => v
  | None => tok
  end.

(** The replacements of the tokens, left to right. *)
Fixpoint replacements {A} (grammar : ec_node A) (acc : string)
    (tokens : list string) : list string :=
  match tokens with
  | [] => []
  | tok :: rest =>
      let v := replacement grammar acc tok in
      v :: replacements grammar (join_sp acc v) rest
  end.

(** The words joined by single spaces behind [acc]. *)
Definition reconstruct (acc : string) (words : list string) : string :=
  fold_left join_sp words acc.

(** Some token differs from its replacement. *)
Definition changed (tokens words : list string) : bool :=
  existsb (fun tw => negb (fst tw =? snd tw)) (combine tokens words).

(** Expansion without a bound on the size of the result. *)
Definition expansion_ref {A} (grammar : ec_node A) (cmd : string)
  : option string :=
  let tokens := strtok_all cmd in
  let words := replacements grammar "" tokens in
  if changed tokens words then Some (reconstruct "" words) else None.

(** The expansion with every candidate formed as the accumulated result, a
    space, then the token, the first one included. *)
Fixpoint spaced_expand_loop {A} (grammar : ec_node A) (tokens : list string)
    (acc : string) (any : bool) : string * bool :=
  match tokens with
  | [] => (acc, any)
  | tok :: rest =>
      match expand_single_token grammar (acc ++ " " ++ tok) with
      | Some v =>
          spaced_expand_loop grammar rest (join_sp acc v)
                             (any || negb (tok =? v))
      | None => spaced_expand_loop grammar rest (join_sp acc tok) any
      end
  end.

Definition spaced_expansion {A} (grammar : ec_node A) (cmd : string)
  : option string :=
  let '(acc, any) := spaced_expand_loop grammar (strtok_all cmd) "" false in
  if any then Some acc else None.

(** The bytes that words take when each is followed by a separator. *)
Fixpoint cost (words : list string) : nat :=
  match words with
  | [] => 0
  | w :: rest => length w + 1 + cost rest
  end.

(** Every token of [cmd] is already its full form: when the command up to
    and including a token, written with single spaces, has a single
    completion, that completion is the token. *)
Definition fully_expanded {A} (grammar : ec_node A) (cmd : string) : Prop :=
  forall (before after : list string) (tok v : string),
    strtok_all cmd = (before ++ tok :: after)%list ->
    expand_single_token grammar (reconstruct "" (before ++ [tok])) = Some v ->
    v = tok.

(** The frame names, each followed by a space. *)
Definition context_prefix (stack : list string) : string :=
  concat "" (map (fun name => name ++ " ") stack).

(** The prompt without any bound on sizes: the base prompt at depth 0, else
    the base prompt less its glyph, then the dash-joined frame names between
    parentheses and the closing glyph. *)
Definition prompt_unbounded (base : string) (stack : list string) : string :=
  match stack with
  | [] => base
  | _ :: _ => strip_glyph base ++ "(" ++ concat "-" stack ++ ")> "
  end.

(** The prompt within the buffers of [ecli_update_prompt]. *)
Definition prompt_of (base : string) (stack : list string) : string :=
  match stack with
  | [] => strtrunc 255 base
  | _ :: _ =>
      strtrunc 59 (strip_glyph (strtrunc 63 base))
        ++ "(" ++ strtrunc 127 (concat "-" stack) ++ ")> "
  end.

(** The sizes within which [prompt_of] cuts nothing. *)
Definition prompt_fits (base : string) (stack : list string) : bool :=
  match stack with
  | [] => (length base <=? 255)%nat
  | _ :: _ =>
      (length base <=? 63)%nat
      && (length (strip_glyph base) <=? 59)%nat
      && (length (concat "-" stack) <=? 127)%nat
  end.

(** The counter agrees with the stack and the prompt is up to date. *)
Definition ctx_inv (cli : eecli_ctx_t) : Prop :=
  context_depth cli = Z.of_nat (List.length (context_stack cli))
  /\ current_prompt cli = prompt_of (prompt (config cli)) (context_stack cli).

(** The operations on the context stack. *)
Inductive ctx_op :=
| Enter (context : string)
| ExitOne
| ExitAll.

Definition ctx_step (op : ctx_op) (cli : eecli_ctx_t) : option eecli_ctx_t :=
  match op with
  | Enter context =>
      match ecli_enter_context cli context with
      | Some (_, cli') => Some cli'
      | None => None
      end
  | ExitOne => Some (snd (fst (ecli_exit_context cli)))
  | ExitAll => Some (ecli_exit_all_contexts cli)
  end.

Fixpoint ctx_run (ops : list ctx_op) (cli : eecli_ctx_t)
  : option eecli_ctx_t :=
  match ops with
  | [] => Some cli
  | op :: rest =>
      match ctx_step op cli with
      | Some cli' => ctx_run rest cli'
      | None => None
      end
  end.

Definition count_enters (ops : list ctx_op) : nat :=
  List.length (filter (fun op => match op with Enter _ => true | _ => false end)
                      ops).

(** The registry after the registrations [regs], made in that order. *)
Definition register_all {A} (regs : list (ecli_out_entry_t A))
  : list (ecli_out_entry_t A) :=
  fold_left (fun head e =>
               ecli_out_register head (name e) (group e) (default_fmt e)
                                 (func e) (priority e))
            regs [].

(** The order of the registry. *)
Definition prio_le {A} (x y : ecli_out_entry_t A) : Prop :=
  (priority x <= priority y)%Z.

(** The entries of a given priority, in the order of the list. *)
Definition with_priority {A} (p : Z) (l : list (ecli_out_entry_t A))
  : list (ecli_out_entry_t A) :=
  filter (fun e => (priority e =? p)%Z) l.

(** The lines of a configuration file that replay executes, with their
    numbers: trimmed, neither empty nor comments. *)
Fixpoint config_commands (buffers : list string) (line_num : Z)
  : list (Z * string) :=
  match buffers with
  | [] => []
  | line :: rest =>
      let n := (line_num + 1)%Z in
      let p := trim_tail config_tail (skip_blanks line) in
      if nonempty p && negb (is_comment p)
      then (n, p) :: config_commands rest n
      else config_commands rest n
  end.

(** The commands executed one after the other, failures counted and
    logged, none stopping the run. *)
Fixpoint run_commands {A} (grammar : ec_node A) (cli : eecli_ctx_t) (app : A)
    (cmds : list (Z * string)) : Z * A * list event :=
  match cmds with
  | [] => (0%Z, app, [])
  | (n, p) :: rest =>
      let '(ret, app1, evs) := execute_command grammar cli app p in
      let '(k, app2, evs') := run_commands grammar cli app1 rest in
      let failed := (ret <? 0)%Z in
      ((if failed then k + 1 else k)%Z, app2,
       (evs ++ (if failed
                then [Stderr (" Config error at line " ++ decimal n ++ ": "
                                ++ p ++ nl)]
                else []) ++ evs')%list)
  end.

(** The commands of a run whose execution returns a negative status. *)
Fixpoint failures {A} (grammar : ec_node A) (cli : eecli_ctx_t) (app : A)
    (cmds : list (Z * string)) : list (Z * string) :=
  match cmds with
  | [] => []
  | (n, p) :: rest =>
      let '(ret, app1, _) := execute_command grammar cli app p in
      if (ret <? 0)%Z then (n, p) :: failures grammar cli app1 rest
      else failures grammar cli app1 rest
  end.

(* ================================================================== *)
(** ** Concrete grammars and registries for the examples *)

(** A small grammar over parse results that are the parsed text itself.
    The only complete command is [show]; the last word of a partial command
    completes [sh] and [show] to [show], and [s] to [show-running-cfg].
    With [strict] a partial command that begins with a blank has no
    completion; without it blanks only separate words. *)
Definition demo_complete (strict : bool) (partial_cmd : string)
  : option (list string) :=
  let word := last (strtok_all partial_cmd) "" in
  if strict && negb (skip_blanks partial_cmd =? partial_cmd) then Some []
  else if word =? "sh" then Some ["show"]
  else if word =? "show" then Some ["show"]
  else if word =? "s" then Some ["show-running-cfg"]
  else Some [].

Definition demo_cb : handler unit string :=
  fun app _ => (0%Z, app, [ecli_output ("ok" ++ nl)]).

Definition demo_grammar (strict : bool) : ec_node unit :=
  mk_ec_node unit string (list string) string
    (fun text => Some text)
    (fun parse => parse =? "show")
    (demo_complete strict)
    (@List.length string)
    (@hd_error string)
    (fun item => Some item)
    (fun _ => Some demo_cb)
    (fun _ => None)
    (fun _ => None).

(** A handler that sets the application state, a port number, to 80. *)
Definition port_cb : handler Z string :=
  fun _ _ => (0%Z, 80%Z, [ecli_output ("port set" ++ nl)]).

(** A grammar whose only complete command is [vhost www port 80], without
    completions. *)
Definition vhost_grammar : ec_node Z :=
  mk_ec_node Z string (list string) string
    (fun text => Some text)
    (fun parse => parse =? "vhost www port 80")
    (fun _ => Some [])
    (@List.length string)
    (@hd_error string)
    (fun item => Some item)
    (fun _ => Some port_cb)
    (fun _ => None)
    (fun _ => None).

(** 256 one-letter words: a command of 511 bytes. *)
Definition many_words : string := concat " " (repeat "s" 256).

(** The application state of [examples/minimal/main.c]. *)
Record minimal_state := mk_minimal {
  g_name : string;
  g_address : string
}.

(** [ECLI_DEFUN_OUT(set, name)] *)
Definition out_set_name : ecli_out_t minimal_state :=
  fun app fp fmt =>
    if negb (g_name app =? "world")
    then ecli_out_fmt fp fmt [("value", FMT_STR (Some (g_name app)))]
    else Some [].

(** [ECLI_DEFUN_OUT(set, address)] *)
Definition out_set_address : ecli_out_t minimal_state :=
  fun app fp fmt =>
    if nonempty (g_address app)
    then ecli_out_fmt fp fmt [("ipv4", FMT_STR (Some (g_address app)))]
    else Some [].

(** The registry after the two [ECLI_DEFUN_SET] of the example. *)
Definition minimal_registry : list (ecli_out_entry_t minimal_state) :=
  ecli_out_register
    (ecli_out_register []
       (Some "set_name") (Some "greeting") (Some ("set name {value}" ++ nl))
       (Some out_set_name) 10)
    (Some "set_address") (Some "network") (Some ("set address {ipv4}" ++ nl))
    (Some out_set_address) 20.

Definition minimal_configured : minimal_state :=
  mk_minimal "Alice" "10.0.0.1".

(** Three bindings [a], [b], [c] with output functions that print fixed
    texts, registered in that order. *)
Definition abc_registry {A} (fa fb fc : ecli_out_t A)
  : list (ecli_out_entry_t A) :=
  register_all
    [mk_out_entry (Some "a") (Some "G1") None (Some fa) 20;
     mk_out_entry (Some "b") (Some "G1") None (Some fb) 10;
     mk_out_entry (Some "c") (Some "G2") None (Some fc) 5].

(** Three bindings of increasing priority, the middle one without a group,
    the other two in the group [g]. *)
Definition ungrouped_registry {A} (fx fy fz : ecli_out_t A)
  : list (ecli_out_entry_t A) :=
  register_all
    [mk_out_entry (Some "x") (Some "g") None (Some fx) 1;
     mk_out_entry (Some "y") None None (Some fy) 2;
     mk_out_entry (Some "z") (Some "g") None (Some fz) 3].

(** An output function that hands one fixed text to the sink. *)
Definition prints {A} (text : string) : ecli_out_t A :=
  fun _ fp _ => Some [ECLI_OUT fp text].

(* ================================================================== *)
(** ** Context groups, and the loops that feed [process_line] *)

(** [ecli_register_context_group]: the new value of [g_context_groups]
    after the SLIST_INSERT_HEAD. *)
Definition ecli_register_context_group (g_context_groups : list string)
    (keyword : string) : list string :=
  keyword :: g_context_groups.

(** [tcp_read_cb]: [process_line] on every line that [evbuffer_readln]
    returns, in order.  A client is attached while the callback runs. *)
Fixpoint tcp_read_cb {A} (grammar : ec_node A)
    (g_context_groups : list string) (cli : eecli_ctx_t) (app : A)
    (input : list string) : option (eecli_ctx_t * A * list event) :=
  match input with
  | [] => Some (cli, app, [])
  | line :: rest =>
      match process_line grammar g_context_groups cli app line with
      | None => None
      | Some (cli1, app1, evs) =>
          match tcp_read_cb grammar g_context_groups cli1 app1 rest with
          | None => None
          | Some (cli2, app2, evs') => Some (cli2, app2, (evs ++ evs')%list)
          end
      end
  end.

(** The loop [while (running && *running && fgets(line, 1024, stdin))] of
    [ecli_run].  The flag is memory of the application, read before every
    [fgets]: [running] gives its value in an application state. *)
Fixpoint stdin_loop {A} (running : A -> bool) (grammar : ec_node A)
    (g_context_groups : list string) (cli : eecli_ctx_t) (app : A)
    (buffers : list string) : option (eecli_ctx_t * A * list event) :=
  match buffers with
  | [] => Some (cli, app, [])
  | line :: rest =>
      if negb (running app) then Some (cli, app, [])
      else
        match process_line grammar g_context_groups cli app line with
        | None => None
        | Some (cli1, app1, evs) =>
            match stdin_loop running grammar g_context_groups cli1 app1 rest
            with
            | None => None
            | Some (cli2, app2, evs') =>
                Some (cli2, app2, (evs ++ evs')%list)
            end
        end
  end.

(** [ecli_run] for a session in [ECLI_MODE_STDIN] without editline: the
    status with, when the session exists, the session and the application
    state it leaves and what was written.  [stdin] is the text still to be
    read from the standard input. *)
Definition ecli_run {A} (running : A -> bool) (grammar : ec_node A)
    (g_context_groups : list string) (g_ecli_ctx : option eecli_ctx_t)
    (app : A) (stdin : string)
  : option (Z * option eecli_ctx_t * A * list event) :=
  match g_ecli_ctx with
  | None => Some ((-1)%Z, None, app, [])
  | Some cli =>
      match stdin_loop running grammar g_context_groups cli app
                       (fgets_all 1024 stdin) with
      | None => None
      | Some (cli', app', evs) =>
          Some (0%Z, Some cli', app', ecli_prompt cli :: evs)
      end
  end.

(** [*trimmed == '\n'] *)
Definition starts_with_newline (s : string) : bool :=
  match s with
  | String c _ => Ascii.eqb c LF
  | "" => false
  end.

(** [if (len > 0 && line[len - 1] == '\n') line[len - 1] = '\0'] *)
Fixpoint chomp (s : string) : string :=
  match s with
  | "" => ""
  | String c s' =>
      if Ascii.eqb c LF && negb (nonempty s') then "" else String c (chomp s')
  end.

(** The handler call of the editline loop: the callback attribute only,
    the status dropped. *)
Definition editline_callback {A} (grammar : ec_node A) (app : A)
    (parse : ec_pnode grammar) : A * list event :=
  match ecli_cmd_lookup_callback grammar parse with
  | Some cb => let '(_, app', evs) := cb app parse in (app', evs)
  | None => (app, [Stderr ("No handler for command" ++ nl)])
  end.

(** One turn of the loop of [editline_interact_with_expansion] on the line
    that [ec_editline_gets] returned.  [error_helps] is what
    [ec_editline_print_error_helps] prints for the line, or [None] when
    [ec_editline_get_error_helps] returns a negative count. *)
Definition editline_line {A} (grammar : ec_node A)
    (error_helps : option (list event)) (cli : eecli_ctx_t) (app : A)
    (line : string) : A * list event :=
  let trimmed := skip_blanks line in
  if negb (nonempty trimmed) || starts_with_newline trimmed then (app, [])
  else
    let trimmed := chomp trimmed in
    let full_cmd := ecli_build_full_command cli trimmed 1024 in
    match ec_parse grammar full_cmd with
    | None => (app, [Stderr ("Failed to parse command" ++ nl)])
    | Some parse =>
        if ec_pnode_matches grammar parse
        then editline_callback grammar app parse
        else
          match expanded_match grammar full_cmd with
          | Some exp_parse => editline_callback grammar app exp_parse
          | None =>
              (app,
               match error_helps with
               | Some helps => helps
               | None => [Stderr ("Invalid command" ++ nl)]
               end)
          end
    end.

(* ================================================================== *)
(** ** The registries of [ecli_yaml.c] *)

(** The static variables of [ecli_yaml.c]; [H] is the type of the callback
    pointers.  [cb_count] is a [size_t] of 64 bits. *)
Record yaml_state (H : Type) := mk_yaml {
  initialized : bool;
  cb_registry : list (string * H);
  cb_count : Z;
  output_fmt_registry : list (string * string)
}.

Arguments mk_yaml {H} _ _ _ _.
Arguments initialized {H} _.
Arguments cb_registry {H} _.
Arguments cb_count {H} _.
Arguments output_fmt_registry {H} _.

Definition SIZE_MAX : Z := 18446744073709551615.

(** The variables as the program starts. *)
Definition yaml_start {H} : yaml_state H := mk_yaml false [] 0 [].

Definition ecli_yaml_init {H} (st : yaml_state H) : Z * yaml_state H :=
  if initialized st then (0%Z, st)
  else (0%Z, mk_yaml true [] 0 []).

Definition ecli_yaml_cleanup {H} (st : yaml_state H) : yaml_state H :=
  mk_yaml false [] 0 [].

(** The SLIST_FOREACH of a registration: the list with the value of the
    first entry named [key] replaced, or [None] when no entry has that
    name. *)
Fixpoint replace_entry {V} (entries : list (string * V)) (key : string)
    (v : V) : option (list (string * V)) :=
  match entries with
  | [] => None
  | (k, old) :: rest =>
      if k =? key then Some ((k, v) :: rest)
      else
        match replace_entry rest key v with
        | Some rest' => Some ((k, old) :: rest')
        | None => None
        end
  end.

Definition ecli_yaml_register {H} (st : yaml_state H) (name : option string)
    (callback : option H) : Z * yaml_state H :=
  let st := if initialized st then st else snd (ecli_yaml_init st) in
  match name, callback with
  | Some n, Some cb =>
      match replace_entry (cb_registry st) n cb with
      | Some entries =>
          (0%Z, mk_yaml (initialized st) entries (cb_count st)
                        (output_fmt_registry st))
      | None =>
          (0%Z, mk_yaml (initialized st) ((n, cb) :: cb_registry st)
                        ((cb_count st + 1) mod (SIZE_MAX + 1))%Z
                        (output_fmt_registry st))
      end
  | _, _ => ((-1)%Z, st)
  end.

(** [lookup_callback] of [ecli_yaml.c], on the value of [cb_registry]. *)
Fixpoint lookup_callback_in {H} (cb_registry : list (string * H))
    (name : option string) : option H :=
  match name with
  | None => None
  | Some n =>
      match cb_registry with
      | [] => None
      | (k, callback) :: rest =>
          if k =? n then Some callback else lookup_callback_in rest name
      end
  end.

Definition ecli_yaml_register_output_fmt {H} (st : yaml_state H)
    (callback_name fmt : option string) : Z * yaml_state H :=
  let st := if initialized st then st else snd (ecli_yaml_init st) in
  match callback_name, fmt with
  | Some n, Some f =>
      match replace_entry (output_fmt_registry st) n f with
      | Some entries =>
          (0%Z, mk_yaml (initialized st) (cb_registry st) (cb_count st)
                        entries)
      | None =>
          (0%Z, mk_yaml (initialized st) (cb_registry st) (cb_count st)
                        ((n, f) :: output_fmt_registry st))
      end
  | _, _ => ((-1)%Z, st)
  end.

(** A grammar whose table of registered names is [cb_registry]. *)
Definition with_cb_registry {A} (grammar : ec_node A)
    (cb_registry : list (string * handler A (ec_pnode grammar)))
  : ec_node A :=
  mk_ec_node A (ec_pnode grammar) (ec_comp grammar) (ec_comp_item grammar)
    (ec_parse grammar) (ec_pnode_matches grammar) (ec_complete grammar)
    (ec_comp_count grammar) (ec_comp_iter_first grammar)
    (ec_comp_item_get_str grammar) (ecli_cmd_lookup_callback grammar)
    (ecli_yaml_get_callback_name grammar)
    (fun n => lookup_callback_in cb_registry (Some n)).

(* ================================================================== *)
(** ** Extended documentation *)

Record ecli_doc_entry_t := mk_doc {
  cmd_name : option string;
  long_desc : option string;
  examples : option string
}.

(** The [for] loop of [ecli_doc_lookup] from [__start_ecli_doc] on. *)
Fixpoint doc_loop (entries : list ecli_doc_entry_t) (name : string)
  : option ecli_doc_entry_t :=
  match entries with
  | [] => None
  | doc :: rest =>
      match cmd_name doc with
      | None => doc_loop rest name
      | Some n => if n =? name then Some doc else doc_loop rest name
      end
  end.

(** [ecli_doc] is the section of that name: its entries, or [None] when
    the section was stripped and the weak symbols are NULL. *)
Definition ecli_doc_lookup (ecli_doc : option (list ecli_doc_entry_t))
    (name : option string) : option ecli_doc_entry_t :=
  match name with
  | None => None
  | Some n =>
      match ecli_doc with
      | None => None
      | Some [] => None
      | Some entries => doc_loop entries n
      end
  end.



(* ================================================================== *)
(** ** The TCP transport: one client at a time *)

(** [struct sockaddr_storage] as the callbacks read it: the family with,
    for the two internet families, the address and the port in host order
    ([ntohs] of the stored field).  [T4] and [T6] are the types of the
    binary addresses. *)
Inductive sockaddr_storage (T4 T6 : Type) :=
| AF_INET (sin_addr : T4) (sin_port : Z)
| AF_INET6 (sin6_addr : T6) (sin6_port : Z)
| AF_other.

Arguments AF_INET {T4 T6} _ _.
Arguments AF_INET6 {T4 T6} _ _.
Arguments AF_other {T4 T6}.

(** The transport fields of [struct eecli_ctx]; [B] is the type of the
    buffered connections of libevent. *)
Record tcp_state (T4 T6 B : Type) := mk_tcp {
  has_client : bool;
  client_bev : option B;
  client_addr : sockaddr_storage T4 T6
}.

Arguments mk_tcp {T4 T6 B} _ _ _.
Arguments has_client {T4 T6 B} _.
Arguments client_bev {T4 T6 B} _.
Arguments client_addr {T4 T6 B} _.

(** What the callbacks do outside the session structure: [FdWrite] and
    [FdClose] are the calls [write(fd, msg, strlen(msg))] and [close(fd)],
    [BevFree] is [bufferevent_free], and [ToClient] is a buffer that
    [ecli_write] queues on the attached connection. *)
Inductive tcp_event (B : Type) :=
| FdWrite (fd : Z) (msg : string)
| FdClose (fd : Z)
| BevFree (bev : option B)
| ToClient (e : event).

Arguments FdWrite {B} _ _.
Arguments FdClose {B} _.
Arguments BevFree {B} _.
Arguments ToClient {B} _.

(** The text of the refusal; [inet_ntop4] and [inet_ntop6] are the two
    uses of [inet_ntop], which fill [ip_str[INET6_ADDRSTRLEN]]. *)
Definition refusal {T4 T6} (inet_ntop4 : T4 -> string)
    (inet_ntop6 : T6 -> string) (addr : sockaddr_storage T4 T6) : string :=
  let '(ip_str, port) :=
    match addr with
    | AF_INET a p => (inet_ntop4 a, p)
    | AF_INET6 a p => (inet_ntop6 a, p)
    | AF_other => (snprintf 46 "unknown", 0%Z)
    end in
  snprintf 128 ("Another session is active from " ++ ip_str ++ ":"
                  ++ decimal port ++ String CR nl).

(** [tcp_accept_cb] for the connection [fd] from [addr]; [new_bev] is what
    [bufferevent_socket_new] returns for it.  [banner] and [version] are
    the fields of [cli->config]. *)
Definition tcp_accept_cb {T4 T6 B} (inet_ntop4 : T4 -> string)
    (inet_ntop6 : T6 -> string) (banner : option string) (version : string)
    (cli : eecli_ctx_t) (tcp : tcp_state T4 T6 B) (fd : Z)
    (addr : sockaddr_storage T4 T6) (new_bev : option B)
  : tcp_state T4 T6 B * list (tcp_event B) :=
  if has_client tcp then
    (tcp, [FdWrite fd (refusal inet_ntop4 inet_ntop6 (client_addr tcp));
           FdClose fd])
  else
    match new_bev with
    | None => (mk_tcp (has_client tcp) None (client_addr tcp), [FdClose fd])
    | Some bev =>
        (mk_tcp true (Some bev) addr,
         (match banner with
          | Some b =>
              [ToClient (ecli_write (b ++ " v" ++ version ++ String CR nl))]
          | None => []
          end ++ [ToClient (ecli_prompt cli)])%list)
    end.

(** [tcp_event_cb]; [eof_or_error] is the test
    [events & (BEV_EVENT_EOF | BEV_EVENT_ERROR)]. *)
Definition tcp_event_cb {T4 T6 B} (tcp : tcp_state T4 T6 B)
    (eof_or_error : bool) : tcp_state T4 T6 B * list (tcp_event B) :=
  if eof_or_error then
    (mk_tcp false None (client_addr tcp), [BevFree (client_bev tcp)])
  else (tcp, []).

(** What the listener and the attached connection deliver. *)
Inductive tcp_input (T4 T6 B : Type) :=
| Accept (fd : Z) (addr : sockaddr_storage T4 T6) (new_bev : option B)
| Event (eof_or_error : bool).

Arguments Accept {T4 T6 B} _ _ _.
Arguments Event {T4 T6 B} _.

(** The callbacks run on a sequence of deliveries. *)
Fixpoint tcp_run {T4 T6 B} (inet_ntop4 : T4 -> string)
    (inet_ntop6 : T6 -> string) (banner : option string) (version : string)
    (cli : eecli_ctx_t) (tcp : tcp_state T4 T6 B)
    (inputs : list (tcp_input T4 T6 B))
  : tcp_state T4 T6 B * list (tcp_event B) :=
  match inputs with
  | [] => (tcp, [])
  | i :: rest =>
      let '(tcp1, evs) :=
        match i with
        | Accept fd addr new_bev =>
            tcp_accept_cb inet_ntop4 inet_ntop6 banner version cli tcp fd
                          addr new_bev
        | Event e => tcp_event_cb tcp e
        end in
      let '(tcp2, evs') :=
        tcp_run inet_ntop4 inet_ntop6 banner version cli tcp1 rest in
      (tcp2, (evs ++ evs')%list)
  end.

(* ================================================================== *)
(** ** Further reference descriptions *)

(** The number of opening braces of a format. *)
Fixpoint count_open (f : string) : nat :=
  match f with
  | "" => 0
  | String c f' => (if Ascii.eqb c "{" then 1 else 0) + count_open f'
  end.

(** The value of the first entry named [key]. *)
Fixpoint first_named {V} (entries : list (string * V)) (key : string)
  : option V :=
  match entries with
  | [] => None
  | (k, v) :: rest => if k =? key then Some v else first_named rest key
  end.

(** The names of a registry are pairwise distinct. *)
Definition unique_names {V} (entries : list (string * V)) : Prop :=
  NoDup (map fst entries).

(** The registries of [ecli_yaml.c] hold each name once and [cb_count]
    counts the callbacks. *)
Definition yaml_inv {H} (st : yaml_state H) : Prop :=
  unique_names (cb_registry st)
  /\ unique_names (output_fmt_registry st)
  /\ cb_count st
     = (Z.of_nat (List.length (cb_registry st)) mod (SIZE_MAX + 1))%Z.

(** The transport holds a connection exactly when it has a client. *)
Definition tcp_inv {T4 T6 B} (tcp : tcp_state T4 T6 B) : Prop :=
  has_client tcp = true <-> client_bev tcp <> None.

(** A group block of a dump: the opening line, the texts, the closing
    line. *)
Definition group_block (fp : bool) (block : string * list string)
  : list string :=
  ([ECLI_OUT fp ("! " ++ fst block ++ " configuration" ++ nl)]
     ++ snd block
     ++ [ECLI_OUT fp ("! end " ++ fst block ++ nl)])%list.

(** The closing line of the group that is open, when one is. *)
Definition closing (fp : bool) (current_group : option string)
  : list string :=
  match current_group with
  | Some cur => [ECLI_OUT fp ("! end " ++ cur ++ nl)]
  | None => []
  end.

(** No block has the name of the block before it; [prev] is the group that
    is open before the first block. *)
Fixpoint alternate (prev : option string)
    (blocks : list (string * list string)) : Prop :=
  match blocks with
  | [] => True
  | block :: rest => prev <> Some (fst block) /\ alternate (Some (fst block)) rest
  end.

(** The texts that the output functions of [entries] hand to the sink, in
    the order of the entries. *)
Fixpoint bodies {A} (fmts : list (string * string)) (app : A) (fp : bool)
    (entries : list (ecli_out_entry_t A)) : list string :=
  match entries with
  | [] => []
  | e :: rest =>
      (match func e with
       | Some f =>
           match f app fp (ecli_out_get_fmt fmts (name e) (default_fmt e))
           with
           | Some body => body
           | None => []
           end
       | None => []
       end ++ bodies fmts app fp rest)%list
  end.

(** An output function treats both sinks alike: it hands the session the
    texts that it would hand the file, through [ECLI_OUT]. *)
Definition uniform_sink {A} (f : ecli_out_t A) : Prop :=
  forall (app : A) (fmt : option string),
    f app false fmt = option_map (map (ECLI_OUT false)) (f app true fmt).

(* ================================================================== *)
(** ** Further examples *)

(** The handler of the built-in [quit] of [ecli_builtin.c], over an
    application state that is the running flag itself. *)
Definition quit_cb : handler bool string :=
  fun _ _ => (0%Z, false, [ecli_output ("Goodbye!" ++ nl)]).

(** A grammar whose only command is [quit], without completions. *)
Definition quit_grammar : ec_node bool :=
  mk_ec_node bool string (list string) string
    (fun text => Some text)
    (fun parse => parse =? "quit")
    (fun _ => Some [])
    (@List.length string)
    (@hd_error string)
    (fun item => Some item)
    (fun _ => Some quit_cb)
    (fun _ => None)
    (fun _ => None).


(** Two strings of different lengths differ: closes a goal whose
    hypothesis [H] equates closed strings of different lengths. *)
Ltac differ_by_length H :=
  apply (f_equal length) in H; vm_compute in H; discriminate.

(* ================================================================== *)
(** * Properties *)

(** ** Strings and truncation *)

Lemma append_empty_r (s : string) : s ++ "" = s.
Proof. induction s as [|c s IH]; simpl; [reflexivity | now rewrite IH]. Qed.

Lemma append_assoc (a b c : string) : (a ++ b) ++ c = a ++ b ++ c.
Proof. induction a as [|x a IH]; simpl; [reflexivity | now rewrite IH]. Qed.

Lemma length_append (a b : string) : length (a ++ b) = length a + length b.
Proof. induction a as [|x a IH]; simpl; [reflexivity | now rewrite IH]. Qed.

Lemma strtrunc_0 (s : string) : strtrunc 0 s = "".
Proof. now destruct s. Qed.

Lemma strtrunc_empty (n : nat) : strtrunc n "" = "".
Proof. now destruct n. Qed.

Lemma strtrunc_length (n : nat) (s : string) :
  length (strtrunc n s) = Nat.min n (length s).
Proof.
  revert s; induction n as [|n IH]; intros [|c s]; simpl; try reflexivity.
  now rewrite IH.
Qed.

Lemma strtrunc_all (n : nat) (s : string) :
  length s <= n -> strtrunc n s = s.
Proof.
  revert s; induction n as [|n IH]; intros [|c s]; simpl; intros H;
    try reflexivity; try lia.
  rewrite IH; [reflexivity | lia].
Qed.

Lemma strtrunc_app (n : nat) (a b : string) :
  strtrunc n (a ++ b) = strtrunc n a ++ strtrunc (n - length a) b.
Proof.
  revert n; induction a as [|x a IH]; intros n; simpl.
  - now rewrite Nat.sub_0_r, strtrunc_empty.
  - destruct n as [|n]; simpl; [reflexivity | now rewrite IH].
Qed.

Lemma strtrunc_strtrunc (n m : nat) (s : string) :
  strtrunc n (strtrunc m s) = strtrunc (Nat.min n m) s.
Proof.
  revert m s; induction n as [|n IH]; intros [|m] [|c s]; simpl;
    try reflexivity.
  now rewrite IH.
Qed.

(** A bounded append behind a string already cut to the same bound is the
    cut of the whole. *)
Lemma strncat_strtrunc (n : nat) (a b : string) :
  strncat (strtrunc n a) b (n - length (strtrunc n a)) = strtrunc n (a ++ b).
Proof.
  unfold strncat. rewrite strtrunc_app, strtrunc_length.
  destruct (Nat.le_gt_cases (length a) n) as [Hle | Hgt].
  - now rewrite Nat.min_r by lia.
  - rewrite Nat.min_l by lia.
    replace (n - n) with 0 by lia. replace (n - length a) with 0 by lia.
    reflexivity.
Qed.

Lemma snprintf_fits (size : nat) (s : string) :
  length s <= size - 1 -> snprintf size s = s.
Proof. intros H. unfold snprintf. now apply strtrunc_all. Qed.

Lemma length_replicate (n : nat) (c : ascii) : length (replicate n c) = n.
Proof. induction n as [|n IH]; simpl; [reflexivity | now rewrite IH]. Qed.

Lemma nonempty_length (s : string) : nonempty s = false <-> s = "".
Proof. destruct s; simpl; split; congruence. Qed.

(* ------------------------------------------------------------------ *)
(** ** The full command *)

Lemma concat_empty_cons (x : string) (l : list string) :
  concat "" (x :: l) = x ++ concat "" l.
Proof. destruct l; simpl; [now rewrite append_empty_r | reflexivity]. Qed.

Lemma context_prefix_cons (name : string) (rest : list string) :
  context_prefix (name :: rest) = name ++ " " ++ context_prefix rest.
Proof.
  unfold context_prefix. rewrite map_cons, concat_empty_cons.
  now rewrite append_assoc.
Qed.

Lemma prepend_contexts_strtrunc (entries : list string) (x : string)
    (size : nat) :
  prepend_contexts entries (strtrunc (size - 1) x) size
  = strtrunc (size - 1) (x ++ context_prefix entries).
Proof.
  revert x; induction entries as [|name rest IH]; intros x; simpl.
  - unfold context_prefix; simpl. now rewrite append_empty_r.
  - replace (size - length (strtrunc (size - 1) x) - 1)
      with (size - 1 - length (strtrunc (size - 1) x)) by lia.
    rewrite strncat_strtrunc.
    replace (size - length (strtrunc (size - 1) (x ++ name)) - 1)
      with (size - 1 - length (strtrunc (size - 1) (x ++ name))) by lia.
    rewrite strncat_strtrunc, IH, context_prefix_cons.
    now rewrite !append_assoc.
Qed.

(** The full command in closed form, whatever the counter says. *)
Lemma ecli_build_full_command_eq (cli : eecli_ctx_t) (line : string)
    (size : nat) :
  ecli_build_full_command cli line size
  = strtrunc (size - 1)
      (if (context_depth cli =? 0)%Z then line
       else context_prefix (context_stack cli) ++ line).
Proof.
  unfold ecli_build_full_command, strncpy.
  destruct (context_depth cli =? 0)%Z; [reflexivity|].
  pose proof (prepend_contexts_strtrunc (context_stack cli) "" size) as H.
  rewrite strtrunc_empty in H. simpl in H. rewrite H.
  replace (size - length (strtrunc (size - 1) (context_prefix (context_stack cli))) - 1)
    with (size - 1 - length (strtrunc (size - 1) (context_prefix (context_stack cli))))
    by lia.
  apply strncat_strtrunc.
Qed.

(** The full command never exceeds its buffer. *)
Lemma ecli_build_full_command_length (cli : eecli_ctx_t) (line : string)
    (size : nat) :
  length (ecli_build_full_command cli line size) <= size - 1.
Proof.
  rewrite ecli_build_full_command_eq, strtrunc_length. lia.
Qed.

Lemma depth_zero_stack (cli : eecli_ctx_t) :
  context_depth cli = Z.of_nat (List.length (context_stack cli)) ->
  (context_depth cli =? 0)%Z = true <-> context_stack cli = [].
Proof.
  intros H. rewrite Z.eqb_eq, H. destruct (context_stack cli); simpl.
  - split; reflexivity.
  - split; [lia | discriminate].
Qed.

Lemma no_char_append (c : ascii) (a b : string) :
  no_char c (a ++ b) = no_char c a && no_char c b.
Proof.
  induction a as [|d a IH]; simpl; [reflexivity|].
  rewrite IH. now rewrite andb_assoc.
Qed.

(** Under a frame the flattened line holds a space. *)
Lemma context_prefix_space (stack : list string) (line : string) :
  stack <> [] -> no_char " " (context_prefix stack ++ line) = false.
Proof.
  destruct stack as [|name rest]; [congruence|]. intros _.
  rewrite context_prefix_cons, !no_char_append.
  change (no_char " " " ") with false.
  now rewrite andb_false_l, andb_false_r.
Qed.

Lemma nonempty_append_r (a b : string) :
  nonempty b = true -> nonempty (a ++ b) = true.
Proof. destruct a; [now simpl | reflexivity]. Qed.

(** The handler call depends on the session through its dispatch mode
    only. *)
Lemma run_callback_mode {A} (grammar : ec_node A) (cli top : eecli_ctx_t)
    (app : A) (parse : ec_pnode grammar) :
  use_yaml top = use_yaml cli ->
  run_callback grammar top app parse = run_callback grammar cli app parse.
Proof. intros H. unfold run_callback. now rewrite H. Qed.

(** C6 (as amended): with the depth counter equal to the number of frames,
    the full command is the frame names, each followed by a space, then the
    line, the whole cut to the [size - 1] bytes that fit the buffer: the
    line itself when the stack is empty and the line fits, the prefixed line
    when that fits.  It is the full command that the flattened line, the
    frame names and the line joined by spaces, gets at depth 0.  Hence an
    input that trims to a line other than the reserved words, processed
    under the frames, and an input that trims to the flattened line,
    processed at depth 0 in the same dispatch mode, end alike whenever the
    full command does not parse, or parses to a complete match directly or
    after expansion: the same handler runs on the same parse tree, with the
    same status notice, the same effect on the application and the same
    output, each session is left as it was, and each writes its own prompt
    last.  A command without a match that is not a registered keyword is
    reported as unknown by both, each with its own line. *)
Theorem full_command_flattens_context :
  forall (A : Type) (grammar : ec_node A) (g_context_groups : list string)
         (cli top : eecli_ctx_t) (app : A) (line : string) (size : nat),
    context_depth cli = Z.of_nat (List.length (context_stack cli)) ->
    context_depth top = 0%Z ->
    use_yaml top = use_yaml cli ->
    let flat := context_prefix (context_stack cli) ++ line in
    ecli_build_full_command cli line size = strtrunc (size - 1) flat
    /\ (length flat <= size - 1 ->
        ecli_build_full_command cli line size = flat)
    /\ (context_stack cli = [] -> length line <= size - 1 ->
        ecli_build_full_command cli line size = line)
    /\ ecli_build_full_command cli line size
       = ecli_build_full_command top flat size
    /\ (forall typed typed_flat : string,
        trim_tail line_tail (skip_blanks typed) = line ->
        trim_tail line_tail (skip_blanks typed_flat) = flat ->
        nonempty line = true ->
        line <> "end" ->
        (line = "exit" -> context_depth cli = 0%Z) ->
        (ec_parse grammar (strtrunc 511 flat) = None ->
         process_line grammar g_context_groups cli app typed
         = Some (cli, app, [ecli_err ("Parse error" ++ nl); ecli_prompt cli])
         /\ process_line grammar g_context_groups top app typed_flat
            = Some (top, app,
                    [ecli_err ("Parse error" ++ nl); ecli_prompt top]))
        /\ (forall parse : ec_pnode grammar,
               ec_parse grammar (strtrunc 511 flat) = Some parse ->
               ec_pnode_matches grammar parse = true
               \/ expanded_match grammar (strtrunc 511 flat) <> None ->
               exists (chosen : ec_pnode grammar) (ret : Z) (app' : A)
                      (evs : list event),
                 (ec_pnode_matches grammar parse = true /\ chosen = parse
                  \/ ec_pnode_matches grammar parse = false
                     /\ expanded_match grammar (strtrunc 511 flat)
                        = Some chosen)
                 /\ run_callback grammar cli app chosen = (ret, app', evs)
                 /\ process_line grammar g_context_groups cli app typed
                    = Some (cli, app',
                            (evs
                               ++ (if (ret <? 0)%Z
                                   then [ecli_err ("No handler for command"
                                                     ++ nl)]
                                   else [])
                               ++ [ecli_prompt cli])%list)
                 /\ process_line grammar g_context_groups top app typed_flat
                    = Some (top, app',
                            (evs
                               ++ (if (ret <? 0)%Z
                                   then [ecli_err ("No handler for command"
                                                     ++ nl)]
                                   else [])
                               ++ [ecli_prompt top])%list))
        /\ (forall parse : ec_pnode grammar,
               ec_parse grammar (strtrunc 511 flat) = Some parse ->
               ec_pnode_matches grammar parse = false ->
               expanded_match grammar (strtrunc 511 flat) = None ->
               no_char " " line && is_context_group g_context_groups line
               = false ->
               process_line grammar g_context_groups cli app typed
               = Some (cli, app,
                       [ecli_err ("Unknown command: " ++ line ++ nl);
                        ecli_prompt cli])
               /\ process_line grammar g_context_groups top app typed_flat
                  = Some (top, app,
                          [ecli_err ("Unknown command: " ++ flat ++ nl);
                           ecli_prompt top]))).
Proof.
  intros A grammar groups cli top app line size Hinv Htop Hmode flat.
  assert (Heq : forall n,
             ecli_build_full_command cli line n = strtrunc (n - 1) flat).
  { intros n. rewrite ecli_build_full_command_eq.
    destruct (context_depth cli =? 0)%Z eqn:Hd; [|reflexivity].
    apply (depth_zero_stack cli Hinv) in Hd. unfold flat. now rewrite Hd. }
  assert (Hflat : forall n,
             ecli_build_full_command top flat n = strtrunc (n - 1) flat).
  { intros n. rewrite ecli_build_full_command_eq, Htop. reflexivity. }
  split; [apply Heq|]. split; [|split; [|split]].
  - intros Hfit. rewrite Heq. now apply strtrunc_all.
  - intros Hst Hfit. rewrite Heq. unfold flat. rewrite Hst. simpl.
    now apply strtrunc_all.
  - now rewrite Heq, Hflat.
  - intros typed typed_flat Htrim Htrimf Hne Hend Hexit.
    assert (Hcli : process_line grammar groups cli app typed
                   = resolve_line grammar groups cli app line).
    { unfold process_line. rewrite Htrim, Hne. cbn [negb].
      destruct (line =? "end") eqn:E1.
      { apply String.eqb_eq in E1. contradiction. }
      destruct (line =? "exit") eqn:E2; [|reflexivity].
      apply String.eqb_eq in E2. now rewrite (Hexit E2). }
    assert (Hflat_ne : nonempty flat = true)
      by (now apply nonempty_append_r).
    assert (Hflat_end : flat <> "end").
    { destruct (list_eq_dec string_dec (context_stack cli) []) as [Hst|Hst].
      - unfold flat. rewrite Hst. exact Hend.
      - intros Habs.
        pose proof (context_prefix_space (context_stack cli) line Hst) as Hsp.
        fold flat in Hsp. rewrite Habs in Hsp. discriminate. }
    assert (Htopl : process_line grammar groups top app typed_flat
                    = resolve_line grammar groups top app flat).
    { unfold process_line. rewrite Htrimf, Hflat_ne, Htop. cbn [negb].
      destruct (flat =? "end") eqn:E1.
      { apply String.eqb_eq in E1. contradiction. }
      now rewrite andb_false_r. }
    rewrite Hcli, Htopl. unfold resolve_line.
    rewrite (Heq 512), (Hflat 512). change (512 - 1) with 511.
    split; [|split].
    + intros Hp. rewrite Hp. split; reflexivity.
    + intros parse Hp Hres. rewrite Hp.
      destruct (ec_pnode_matches grammar parse) eqn:Hm; cbn [negb].
      * destruct (run_callback grammar cli app parse) as [[ret app'] evs]
          eqn:Hrun.
        exists parse, ret, app', evs.
        split; [left; now split|]. split; [exact Hrun|].
        unfold dispatch_and_prompt.
        rewrite (run_callback_mode grammar cli top app parse Hmode), Hrun.
        split; reflexivity.
      * destruct Hres as [Habs | Hexp]; [discriminate|].
        destruct (expanded_match grammar (strtrunc 511 flat))
          as [exp_parse|]; [|congruence].
        destruct (run_callback grammar cli app exp_parse)
          as [[ret app'] evs] eqn:Hrun.
        exists exp_parse, ret, app', evs.
        split; [right; now split|]. split; [exact Hrun|].
        unfold dispatch_and_prompt.
        rewrite (run_callback_mode grammar cli top app exp_parse Hmode), Hrun.
        split; reflexivity.
    + intros parse Hp Hm Hexp Hkey. rewrite Hp, Hm, Hexp, Hkey. cbn [negb].
      split; [reflexivity|].
      replace (no_char " " flat && is_context_group groups flat) with false;
        [reflexivity|].
      destruct (list_eq_dec string_dec (context_stack cli) []) as [Hst|Hst].
      * unfold flat. rewrite Hst. symmetry. exact Hkey.
      * pose proof (context_prefix_space (context_stack cli) line Hst) as Hsp.
        fold flat in Hsp. now rewrite Hsp.
Qed.

Lemma full_command_flattens_context_witness :
  let cli := mk_ctx (mk_config "cli> ") false ["vhost"; "www"] 2
                    "cli(vhost-www)> " in
  let top := ecli_init (mk_config "cli> ") false in
  ecli_build_full_command cli "port 80" 512 = "vhost www port 80"
  /\ ecli_build_full_command cli "port 80" 512
     = ecli_build_full_command top "vhost www port 80" 512
  /\ process_line vhost_grammar [] cli 0%Z ("  port 80" ++ String CR nl)
     = Some (cli, 80%Z,
             [ecli_output ("port set" ++ nl); Write "cli(vhost-www)> "])
  /\ process_line vhost_grammar [] top 0%Z ("vhost www port 80" ++ nl)
     = Some (top, 80%Z, [ecli_output ("port set" ++ nl); Write "cli> "]).
Proof.
  intros cli top.
  destruct (full_command_flattens_context Z vhost_grammar [] cli top 0%Z
              "port 80" 512 eq_refl eq_refl eq_refl)
    as (_ & Hfit & _ & Hsame & Hres).
  split; [apply Hfit; apply Nat.leb_le; reflexivity|].
  split; [exact Hsame|].
  destruct (Hres ("  port 80" ++ String CR nl) ("vhost www port 80" ++ nl))
    as [_ [Hmatch _]];
    [reflexivity | reflexivity | reflexivity | discriminate | discriminate|].
  destruct (Hmatch "vhost www port 80" eq_refl (or_introl eq_refl))
    as (chosen & ret & app' & evs & Hchosen & Hrun & Hcli & Htop).
  destruct Hchosen as [[_ ->] | [Habs _]]; [|discriminate].
  inversion Hrun; subst ret app' evs.
  split; [exact Hcli | exact Htop].
Defined.

(** C6 (as stated) fails twice.  At depth 0 a line of 512 bytes is not
    returned unchanged by the resolver, whose buffer holds 511.  And
    resolving a line under frames is not always resolving the flattened
    line at depth 0: under the frame [vhost] the words [exit] and [end]
    leave the context and the registered keyword [www] opens a second one,
    whereas the lines [vhost exit], [vhost end] and [vhost www] typed at
    depth 0 are handed to the grammar, here as unknown commands. *)
Lemma full_command_not_transparent :
  let top := ecli_init (mk_config "cli> ") false in
  let cli := mk_ctx (mk_config "cli> ") false ["vhost"] 1 "cli(vhost)> " in
  let unknown := fun text =>
    Some (top, tt,
          [ecli_err ("Unknown command: " ++ text ++ nl); Write "cli> "]) in
  (context_stack top = []
   /\ ecli_build_full_command top (replicate 512 "a") 512
      <> replicate 512 "a")
  /\ (process_line (demo_grammar true) ["www"] cli tt "exit"
      = Some (top, tt, [Write "cli> "])
      /\ process_line (demo_grammar true) ["www"] top tt "vhost exit"
         = unknown "vhost exit")
  /\ (process_line (demo_grammar true) ["www"] cli tt "end"
      = Some (top, tt, [Write "cli> "])
      /\ process_line (demo_grammar true) ["www"] top tt "vhost end"
         = unknown "vhost end")
  /\ (process_line (demo_grammar true) ["www"] cli tt "www"
      = Some (mk_ctx (mk_config "cli> ") false ["vhost"; "www"] 2
                     "cli(vhost-www)> ",
              tt, [Write "cli(vhost-www)> "])
      /\ process_line (demo_grammar true) ["www"] top tt "vhost www"
         = unknown "vhost www").
Proof.
  cbv zeta. split; [|repeat split; vm_compute; reflexivity].
  split; [reflexivity|]. intros H.
  differ_by_length H.
Qed.

(* ------------------------------------------------------------------ *)
(** ** The prompt and the context invariant *)

Lemma concat_dash_cons (name : string) (rest : list string) :
  concat "-" (name :: rest)
  = name ++ concat "" (map (fun n => "-" ++ n) rest).
Proof.
  revert name; induction rest as [|m rest IH]; intros name.
  - simpl. now rewrite append_empty_r.
  - change (concat "-" (name :: m :: rest))
      with (name ++ "-" ++ concat "-" (m :: rest)).
    rewrite IH, map_cons, concat_empty_cons. reflexivity.
Qed.

Lemma context_path_loop_strtrunc (entries : list string) (x : string) :
  context_path_loop entries (strtrunc 127 x) false
  = strtrunc 127 (x ++ concat "" (map (fun n => "-" ++ n) entries)).
Proof.
  revert x; induction entries as [|name rest IH]; intros x.
  - simpl. now rewrite append_empty_r.
  - cbn [context_path_loop].
    replace (128 - length (strtrunc 127 x) - 1)
      with (127 - length (strtrunc 127 x)) by lia.
    rewrite strncat_strtrunc.
    replace (128 - length (strtrunc 127 (x ++ "-")) - 1)
      with (127 - length (strtrunc 127 (x ++ "-"))) by lia.
    rewrite strncat_strtrunc, IH, map_cons, concat_empty_cons.
    now rewrite !append_assoc.
Qed.

Lemma context_path_loop_eq (entries : list string) :
  context_path_loop entries "" true = strtrunc 127 (concat "-" entries).
Proof.
  destruct entries as [|name rest]; [reflexivity|].
  cbn [context_path_loop].
  replace (strncat "" name (128 - length "" - 1)) with (strtrunc 127 name)
    by reflexivity.
  now rewrite context_path_loop_strtrunc, concat_dash_cons.
Qed.

(** [ecli_update_prompt] changes the prompt only, and to [prompt_of]. *)
Lemma ecli_update_prompt_eq (cli : eecli_ctx_t) :
  context_depth cli = Z.of_nat (List.length (context_stack cli)) ->
  ecli_update_prompt cli
  = set_prompt cli (prompt_of (prompt (config cli)) (context_stack cli)).
Proof.
  intros Hinv. unfold ecli_update_prompt.
  destruct (context_depth cli =? 0)%Z eqn:Hd.
  - apply (depth_zero_stack cli Hinv) in Hd. now rewrite Hd.
  - destruct (context_stack cli) as [|name rest] eqn:Hst.
    + rewrite Hinv in Hd. discriminate.
    + rewrite context_path_loop_eq. unfold strncpy, prompt_of.
      rewrite strtrunc_strtrunc. change (Nat.min 128 127) with 127.
      rewrite snprintf_fits; [reflexivity|].
      rewrite !length_append, !strtrunc_length.
      change (length "(") with 1. change (length ")> ") with 3. lia.
Qed.

Lemma ecli_update_prompt_inv (cli : eecli_ctx_t) :
  context_depth cli = Z.of_nat (List.length (context_stack cli)) ->
  ctx_inv (ecli_update_prompt cli).
Proof.
  intros Hinv. rewrite (ecli_update_prompt_eq cli Hinv).
  split; [exact Hinv | reflexivity].
Qed.

Lemma ecli_init_inv (cfg : ecli_config_t) (yaml : bool) :
  ctx_inv (ecli_init cfg yaml).
Proof. apply ecli_update_prompt_inv. reflexivity. Qed.

Lemma length_removelast {T} (l : list T) :
  l <> [] -> List.length (removelast l) = List.length l - 1.
Proof.
  intros H. destruct (exists_last H) as [l' [x ->]].
  rewrite removelast_last, length_app. simpl. lia.
Qed.

Lemma ctx_step_inv (op : ctx_op) (cli cli' : eecli_ctx_t) :
  ctx_inv cli -> ctx_step op cli = Some cli' -> ctx_inv cli'.
Proof.
  intros [Hd Hp] Hstep. destruct op as [context| |]; simpl in Hstep.
  - unfold ecli_enter_context in Hstep.
    destruct (context_depth cli =? INT_MAX)%Z; [discriminate|].
    injection Hstep as <-. apply ecli_update_prompt_inv. simpl.
    rewrite length_app, Hd. simpl. lia.
  - injection Hstep as <-. unfold ecli_exit_context.
    destruct (context_depth cli =? 0)%Z eqn:H0; simpl.
    + split; assumption.
    + apply ecli_update_prompt_inv.
      destruct (context_stack cli) as [|name rest] eqn:Hst.
      * rewrite Hd in H0. discriminate.
      * cbn [set_stack context_stack context_depth].
        rewrite length_removelast by discriminate.
        rewrite Hd. simpl List.length. lia.
  - injection Hstep as <-. apply ecli_update_prompt_inv. reflexivity.
Qed.

Lemma ctx_run_inv (ops : list ctx_op) :
  forall cli cli', ctx_inv cli -> ctx_run ops cli = Some cli' -> ctx_inv cli'.
Proof.
  induction ops as [|op rest IH]; intros cli cli' Hinv Hrun; simpl in Hrun.
  - now injection Hrun as <-.
  - destruct (ctx_step op cli) as [cli1|] eqn:Hstep; [|discriminate].
    eapply IH; [eapply ctx_step_inv; eassumption | exact Hrun].
Qed.

Lemma ecli_update_prompt_stack (cli : eecli_ctx_t) :
  context_stack (ecli_update_prompt cli) = context_stack cli
  /\ context_depth (ecli_update_prompt cli) = context_depth cli
  /\ config (ecli_update_prompt cli) = config cli.
Proof.
  unfold ecli_update_prompt. destruct (_ =? 0)%Z; repeat split.
Qed.

(** The stack after one operation. *)
Lemma ctx_step_stack (op : ctx_op) (cli cli' : eecli_ctx_t) :
  ctx_inv cli -> ctx_step op cli = Some cli' ->
  context_stack cli'
  = match op with
    | Enter context => (context_stack cli ++ [context])%list
    | ExitOne => removelast (context_stack cli)
    | ExitAll => []
    end.
Proof.
  intros [Hd _] Hstep. destruct op as [context| |]; simpl in Hstep.
  - unfold ecli_enter_context in Hstep.
    destruct (context_depth cli =? INT_MAX)%Z; [discriminate|].
    injection Hstep as <-.
    now rewrite (proj1 (ecli_update_prompt_stack _)).
  - injection Hstep as <-. unfold ecli_exit_context.
    destruct (context_depth cli =? 0)%Z eqn:H0; simpl.
    + apply (depth_zero_stack cli Hd) in H0. now rewrite H0.
    + rewrite (proj1 (ecli_update_prompt_stack _)).
      destruct (context_stack cli) eqn:E; simpl; [now rewrite E | reflexivity].
  - injection Hstep as <-. unfold ecli_exit_all_contexts.
    now rewrite (proj1 (ecli_update_prompt_stack _)).
Qed.

Lemma ctx_step_depth (op : ctx_op) (cli cli' : eecli_ctx_t) :
  ctx_inv cli -> ctx_step op cli = Some cli' ->
  (context_depth cli' <= context_depth cli
                         + (match op with Enter _ => 1 | _ => 0 end))%Z.
Proof.
  intros Hinv Hstep.
  pose proof (ctx_step_inv op cli cli' Hinv Hstep) as [Hd' _].
  pose proof (ctx_step_stack op cli cli' Hinv Hstep) as Hst.
  destruct Hinv as [Hd _]. rewrite Hd', Hd, Hst.
  destruct op as [context| |].
  - rewrite length_app. simpl. lia.
  - destruct (context_stack cli) as [|name rest] eqn:E; [simpl; lia|].
    rewrite length_removelast by discriminate. lia.
  - simpl. lia.
Qed.

(** The operations are defined as long as the counter stays an int. *)
Lemma ctx_run_defined (ops : list ctx_op) :
  forall cli,
    ctx_inv cli ->
    (context_depth cli + Z.of_nat (count_enters ops) <= INT_MAX)%Z ->
    exists cli', ctx_run ops cli = Some cli'.
Proof.
  induction ops as [|op rest IH]; intros cli Hinv Hb; simpl.
  - now exists cli.
  - assert (Hstep : exists cli1, ctx_step op cli = Some cli1).
    { destruct op as [context| |]; simpl; [|eauto|eauto].
      unfold ecli_enter_context.
      destruct (context_depth cli =? INT_MAX)%Z eqn:Hmax; [|eauto].
      apply Z.eqb_eq in Hmax. unfold count_enters in Hb. simpl in Hb. lia. }
    destruct Hstep as [cli1 Hstep]. rewrite Hstep.
    apply IH; [eapply ctx_step_inv; eassumption|].
    pose proof (ctx_step_depth op cli cli1 Hinv Hstep) as Hdep.
    unfold count_enters in *. destruct op; simpl in *; lia.
Qed.

Lemma prompt_of_unbounded (base : string) (stack : list string) :
  prompt_fits base stack = true ->
  prompt_of base stack = prompt_unbounded base stack.
Proof.
  unfold prompt_fits, prompt_of, prompt_unbounded.
  destruct stack as [|name rest]; intros H.
  - apply Nat.leb_le in H. now apply strtrunc_all.
  - apply andb_prop in H as [H H3]. apply andb_prop in H as [H1 H2].
    apply Nat.leb_le in H1, H2, H3.
    now rewrite (strtrunc_all 63 base), (strtrunc_all 127), strtrunc_all.
Qed.

Lemma ctx_step_config (op : ctx_op) (cli cli' : eecli_ctx_t) :
  ctx_step op cli = Some cli' -> config cli' = config cli.
Proof.
  intros Hstep. destruct op as [context| |]; simpl in Hstep.
  - unfold ecli_enter_context in Hstep.
    destruct (context_depth cli =? INT_MAX)%Z; [discriminate|].
    injection Hstep as <-.
    now rewrite (proj2 (proj2 (ecli_update_prompt_stack _))).
  - injection Hstep as <-. unfold ecli_exit_context.
    destruct (context_depth cli =? 0)%Z; simpl; [reflexivity|].
    rewrite (proj2 (proj2 (ecli_update_prompt_stack _))).
    now destruct (context_stack cli).
  - injection Hstep as <-. unfold ecli_exit_all_contexts.
    now rewrite (proj2 (proj2 (ecli_update_prompt_stack _))).
Qed.

Lemma ctx_run_config (ops : list ctx_op) :
  forall cli cli', ctx_run ops cli = Some cli' -> config cli' = config cli.
Proof.
  induction ops as [|op rest IH]; intros cli cli' Hrun; simpl in Hrun.
  - now injection Hrun as <-.
  - destruct (ctx_step op cli) as [cli1|] eqn:Hstep; [|discriminate].
    rewrite (IH _ _ Hrun). eapply ctx_step_config; eassumption.
Qed.

(** C9 (as amended): after any sequence of enter, exit and exit-all
    operations on a session, the depth counter equals the number of frames
    on the stack, and the prompt is a fixed function of the base prompt and
    the stack: at depth 0 the first 255 bytes of the base prompt; at depth
    above 0 the first 63 bytes of the base prompt less the trailing glyph
    segment, cut to 59 bytes, then the dash-joined frame names cut to 127
    bytes between parentheses, then the closing glyph and a space.  Within
    these sizes that is the base prompt verbatim, respectively the whole
    stripped prompt and the whole joined names.  The operations are all
    defined while the counter, a C int, can hold the number of entries. *)
Theorem context_invariant :
  forall (cfg : ecli_config_t) (yaml : bool) (ops : list ctx_op),
    (forall cli',
        ctx_run ops (ecli_init cfg yaml) = Some cli' ->
        context_depth cli' = Z.of_nat (List.length (context_stack cli'))
        /\ current_prompt cli' = prompt_of (prompt cfg) (context_stack cli')
        /\ (prompt_fits (prompt cfg) (context_stack cli') = true ->
            current_prompt cli'
            = prompt_unbounded (prompt cfg) (context_stack cli')))
    /\ ((Z.of_nat (count_enters ops) <= INT_MAX)%Z ->
        exists cli', ctx_run ops (ecli_init cfg yaml) = Some cli').
Proof.
  intros cfg yaml ops. split.
  - intros cli' Hrun.
    destruct (ctx_run_inv ops _ _ (ecli_init_inv cfg yaml) Hrun) as [Hd Hp].
    pose proof (ctx_run_config ops _ _ Hrun) as Hc.
    change (config (ecli_init cfg yaml)) with cfg in Hc.
    rewrite Hc in Hp. split; [exact Hd|]. split; [exact Hp|].
    intros Hfit. rewrite Hp. now apply prompt_of_unbounded.
  - intros Hb. apply ctx_run_defined; [apply ecli_init_inv|].
    change (context_depth (ecli_init cfg yaml)) with 0%Z. lia.
Qed.

Lemma context_invariant_witness :
  exists cli',
    ctx_run [Enter "vhost"; Enter "www"; ExitOne; Enter "tls"]
            (ecli_init (mk_config "cli> ") false) = Some cli'
    /\ context_depth cli' = 2%Z
    /\ current_prompt cli' = "cli(vhost-tls)> ".
Proof.
  destruct (context_invariant (mk_config "cli> ") false
              [Enter "vhost"; Enter "www"; ExitOne; Enter "tls"])
    as [Hinv Hdef].
  destruct Hdef as [cli' Hrun]; [vm_compute; discriminate|].
  exists cli'. split; [exact Hrun|].
  destruct (Hinv cli' Hrun) as (Hd & _ & Hp).
  assert (Hst : context_stack cli' = ["vhost"; "tls"]).
  { vm_compute in Hrun. injection Hrun as <-. reflexivity. }
  rewrite Hst in Hd, Hp. split; [exact Hd|]. apply Hp. reflexivity.
Defined.

(** C9 (as stated) fails: a frame name of 128 bytes does not appear whole
    in the prompt. *)
Lemma prompt_cuts_long_context :
  exists cli',
    ctx_run [Enter (replicate 128 "a")] (ecli_init (mk_config "cli> ") false)
    = Some cli'
    /\ context_stack cli' = [replicate 128 "a"]
    /\ current_prompt cli'
       <> strip_glyph "cli> " ++ "(" ++ concat "-" (context_stack cli') ++ ")> ".
Proof.
  eexists. split; [vm_compute; reflexivity|].
  split; [reflexivity|]. intros H.
  differ_by_length H.
Qed.

(* ------------------------------------------------------------------ *)
(** ** The reserved words of [process_line] *)

(** Handlers leave the session alone. *)
Lemma dispatch_and_prompt_ctx {A} (grammar : ec_node A) (cli : eecli_ctx_t)
    (app : A) (parse : ec_pnode grammar) :
  fst (fst (dispatch_and_prompt grammar cli app parse)) = cli.
Proof.
  unfold dispatch_and_prompt.
  now destruct (run_callback grammar cli app parse) as [[ret app'] evs].
Qed.

(** Every input line keeps the context invariant, so the sessions that
    [process_line] can reach from [ecli_init] all satisfy it. *)
Lemma process_line_inv {A} (grammar : ec_node A)
    (g_context_groups : list string) (cli cli' : eecli_ctx_t) (app app' : A)
    (line : string) (evs : list event) :
  ctx_inv cli ->
  process_line grammar g_context_groups cli app line = Some (cli', app', evs) ->
  ctx_inv cli'.
Proof.
  intros Hinv. unfold process_line.
  set (l := trim_tail line_tail (skip_blanks line)).
  destruct (negb (nonempty l)); [intros H; now injection H as <- _ _|].
  destruct (l =? "end").
  - intros H; injection H as <- _ _.
    apply (ctx_step_inv ExitAll cli _ Hinv eq_refl).
  - destruct ((l =? "exit") && (0 <? context_depth cli)%Z).
    + destruct (ecli_exit_context cli) as [[ret cli1] evs1] eqn:He.
      intros H; injection H as <- _ _.
      apply (ctx_step_inv ExitOne cli cli1 Hinv). simpl. now rewrite He.
    + unfold resolve_line.
      destruct (ec_parse grammar _) as [parse|];
        [|intros H; now injection H as <- _ _].
      destruct (negb (ec_pnode_matches grammar parse)).
      * destruct (expanded_match grammar _) as [exp_parse|].
        -- intros H.
           pose proof (dispatch_and_prompt_ctx grammar cli app exp_parse) as Hc.
           injection H as H. rewrite H in Hc. cbn [fst] in Hc. now subst cli'.
        -- destruct (no_char " " l && is_context_group g_context_groups l).
           ++ destruct (ecli_enter_context cli l) as [[ret cli1]|] eqn:He;
                [|discriminate].
              intros H; injection H as <- _ _.
              apply (ctx_step_inv (Enter l) cli cli1 Hinv).
              simpl. now rewrite He.
           ++ intros H; now injection H as <- _ _.
      * intros H.
        pose proof (dispatch_and_prompt_ctx grammar cli app parse) as Hc.
        injection H as H. rewrite H in Hc. cbn [fst] in Hc. now subst cli'.
Qed.

(** C5 (as amended): an input line that trims to [end], at any depth, is
    answered by clearing the context stack, setting the depth counter to 0,
    setting the prompt to the first 255 bytes of the base prompt - the base
    prompt itself when it is no longer than that - and writing that prompt;
    no handler runs. *)
Theorem end_clears_contexts :
  forall (A : Type) (grammar : ec_node A) (g_context_groups : list string)
         (cli : eecli_ctx_t) (app : A) (line : string),
    trim_tail line_tail (skip_blanks line) = "end" ->
    exists cli',
      process_line grammar g_context_groups cli app line
        = Some (cli', app, [ecli_prompt cli'])
      /\ context_stack cli' = []
      /\ context_depth cli' = 0%Z
      /\ config cli' = config cli
      /\ current_prompt cli' = strtrunc 255 (prompt (config cli))
      /\ (length (prompt (config cli)) <= 255 ->
          current_prompt cli' = prompt (config cli)).
Proof.
  intros A grammar groups cli app line Htrim.
  exists (ecli_exit_all_contexts cli).
  unfold process_line. rewrite Htrim. cbn [nonempty negb String.eqb].
  split; [reflexivity|]. repeat split.
  intros Hfit.
  change (current_prompt (ecli_exit_all_contexts cli))
    with (strtrunc 255 (prompt (config cli))).
  now apply strtrunc_all.
Qed.

Lemma end_clears_contexts_witness :
  exists cli',
    process_line (demo_grammar true) []
      (mk_ctx (mk_config "cli> ") false ["vhost"; "www"] 2 "cli(vhost-www)> ")
      tt ("  end" ++ String CR nl)
    = Some (cli', tt, [Write "cli> "])
    /\ context_stack cli' = [] /\ context_depth cli' = 0%Z.
Proof.
  destruct (end_clears_contexts unit (demo_grammar true) []
              (mk_ctx (mk_config "cli> ") false ["vhost"; "www"] 2
                      "cli(vhost-www)> ")
              tt ("  end" ++ String CR nl) eq_refl)
    as (cli' & Hrun & Hst & Hd & _ & Hp & _).
  exists cli'. split; [|split; assumption].
  rewrite Hrun. unfold ecli_prompt. rewrite Hp. reflexivity.
Defined.

(** C5 (as stated) fails: with a base prompt of 256 bytes the prompt after
    [end] is not the base prompt. *)
Lemma end_cuts_long_prompt :
  exists cli' evs,
    process_line (demo_grammar true) []
      (ecli_init (mk_config (replicate 256 "x")) false) tt "end"
    = Some (cli', tt, evs)
    /\ context_depth cli' = 0%Z
    /\ current_prompt cli' <> replicate 256 "x".
Proof.
  do 2 eexists. split; [vm_compute; reflexivity|].
  split; [reflexivity|]. intros H.
  differ_by_length H.
Qed.

(** C4: with the depth counter equal to the number of frames, an input line
    that trims to [exit] is, at depth 0, handed to the normal resolution of
    the command [exit] (the underflow branch of [ecli_exit_context] is not
    taken); at a depth above 0 it removes the last frame only, lowers the
    depth by exactly 1 and writes the prompt, and nothing else. *)
Theorem exit_pops_one_context :
  forall (A : Type) (grammar : ec_node A) (g_context_groups : list string)
         (cli : eecli_ctx_t) (app : A) (line : string),
    context_depth cli = Z.of_nat (List.length (context_stack cli)) ->
    trim_tail line_tail (skip_blanks line) = "exit" ->
    (context_depth cli = 0%Z ->
     process_line grammar g_context_groups cli app line
     = resolve_line grammar g_context_groups cli app "exit")
    /\ ((0 < context_depth cli)%Z ->
        exists cli',
          process_line grammar g_context_groups cli app line
            = Some (cli', app, [ecli_prompt cli'])
          /\ context_depth cli' = (context_depth cli - 1)%Z
          /\ context_stack cli' = removelast (context_stack cli)
          /\ config cli' = config cli).
Proof.
  intros A grammar groups cli app line Hinv Htrim.
  unfold process_line. rewrite Htrim. cbn [nonempty negb String.eqb Ascii.eqb].
  split.
  - intros H0. rewrite H0. reflexivity.
  - intros Hpos. apply Z.ltb_lt in Hpos as Hlt. rewrite Hlt.
    change (Ascii.eqb "e" "e" && (Ascii.eqb "x" "x" && (Ascii.eqb "i" "i"
            && (Ascii.eqb "t" "t" && true))))%bool with true.
    cbn [andb]. unfold ecli_exit_context.
    destruct (context_depth cli =? 0)%Z eqn:H0;
      [apply Z.eqb_eq in H0; lia|].
    destruct (context_stack cli) as [|name rest] eqn:Hst;
      [simpl in Hinv; lia|].
    eexists. split; [reflexivity|].
    destruct (ecli_update_prompt_stack
                (set_stack cli (removelast (name :: rest))
                           (context_depth cli - 1))) as (Hs & Hd & Hc).
    rewrite Hs, Hd, Hc. repeat split.
Qed.

Lemma exit_pops_one_context_witness :
  (exists cli',
      process_line (demo_grammar true) []
        (mk_ctx (mk_config "cli> ") false ["vhost"; "www"] 2
                "cli(vhost-www)> ")
        tt ("exit" ++ nl)
      = Some (cli', tt, [ecli_prompt cli'])
      /\ context_depth cli' = 1%Z
      /\ context_stack cli' = ["vhost"])
  /\ process_line (demo_grammar true) []
       (ecli_init (mk_config "cli> ") false) tt "exit"
     = Some (ecli_init (mk_config "cli> ") false, tt,
             [ecli_err ("Unknown command: exit" ++ nl); Write "cli> "]).
Proof.
  split.
  - destruct (exit_pops_one_context unit (demo_grammar true) []
                (mk_ctx (mk_config "cli> ") false ["vhost"; "www"] 2
                        "cli(vhost-www)> ")
                tt ("exit" ++ nl) eq_refl eq_refl) as [_ Hpop].
    destruct (Hpop eq_refl) as (cli' & Hrun & Hd & Hst & _).
    exists cli'. repeat split; assumption.
  - rewrite (proj1 (exit_pops_one_context unit (demo_grammar true) []
                      (ecli_init (mk_config "cli> ") false) tt "exit"
                      eq_refl eq_refl) eq_refl).
    reflexivity.
Defined.

(* ------------------------------------------------------------------ *)
(** ** Abbreviation expansion *)

Lemma join_sp_length (acc tok : string) :
  length acc <= length (join_sp acc tok).
Proof.
  unfold join_sp. destruct acc as [|c acc]; simpl; [lia|].
  rewrite length_append. lia.
Qed.

Lemma reconstruct_length (words : list string) :
  forall acc, length acc <= length (reconstruct acc words).
Proof.
  induction words as [|w rest IH]; intros acc; simpl; [lia|].
  etransitivity; [apply (join_sp_length acc w) | apply IH].
Qed.

(** While the result fits its buffer, appending a token joins it. *)
Lemma append_token_fits (result tok : string) :
  length (join_sp result tok) <= 4095 ->
  append_token result tok = join_sp result tok.
Proof.
  unfold append_token, join_sp, strncat.
  destruct (nonempty result) eqn:Hne; intros H.
  - rewrite !length_append in H. change (length " ") with 1 in H.
    rewrite (strtrunc_all _ " ") by (change (length " ") with 1; lia).
    rewrite strtrunc_all
      by (rewrite length_append; change (length " ") with 1; lia).
    now rewrite append_assoc.
  - apply nonempty_length in Hne. subst result.
    change (length "") with 0. cbn [append].
    rewrite strtrunc_all; [reflexivity | lia].
Qed.

Lemma changed_cons (tok w : string) (tokens words : list string) :
  changed (tok :: tokens) (w :: words)
  = negb (tok =? w) || changed tokens words.
Proof. reflexivity. Qed.

(** The loop computes the replacements, their reconstruction and whether
    one differs, as long as the reconstruction fits the result buffer. *)
Lemma expand_loop_ref {A} (grammar : ec_node A) (tokens : list string) :
  forall (result : string) (expanded_any : bool),
    length (reconstruct result (replacements grammar result tokens)) <= 4095 ->
    expand_loop grammar tokens result expanded_any
    = (reconstruct result (replacements grammar result tokens),
       expanded_any || changed tokens (replacements grammar result tokens)).
Proof.
  induction tokens as [|token rest IH]; intros result any Hfit.
  - simpl. now rewrite orb_false_r.
  - cbn [expand_loop replacements reconstruct fold_left] in *.
    fold (join_sp result token).
    assert (Hstep : length (join_sp result (replacement grammar result token))
                    <= 4095).
    { etransitivity; [apply reconstruct_length | exact Hfit]. }
    rewrite changed_cons. unfold replacement in *.
    destruct (expand_single_token grammar (join_sp result token)) as [v|].
    + rewrite (append_token_fits _ _ Hstep), (IH _ _ Hfit).
      f_equal. destruct (token =? v), any; reflexivity.
    + rewrite (append_token_fits _ _ Hstep), (IH _ _ Hfit).
      f_equal. rewrite String.eqb_refl. reflexivity.
Qed.

Lemma strtok_all_empty (cmd : string) :
  nonempty cmd = false -> strtok_all cmd = [].
Proof. intros H. apply nonempty_length in H. now subst. Qed.

(** A token is expanded exactly when the grammar answers with one full or
    partial completion whose string is known. *)
Lemma expand_single_token_spec {A} (grammar : ec_node A)
    (partial_cmd v : string) :
  expand_single_token grammar partial_cmd = Some v
  <-> exists comp item,
        ec_complete grammar partial_cmd = Some comp
        /\ ec_comp_count grammar comp = 1
        /\ ec_comp_iter_first grammar comp = Some item
        /\ ec_comp_item_get_str grammar item = Some v.
Proof.
  unfold expand_single_token. split.
  - destruct (ec_complete grammar partial_cmd) as [comp|]; [|discriminate].
    destruct (ec_comp_count grammar comp =? 1)%nat eqn:Hc;
      cbn [negb]; [|discriminate].
    destruct (ec_comp_iter_first grammar comp) as [item|] eqn:Hi;
      [|discriminate].
    intros Hv. exists comp, item. apply Nat.eqb_eq in Hc.
    split; [reflexivity|]. split; [exact Hc|]. split; [exact Hi | exact Hv].
  - intros (comp & item & -> & Hc & -> & Hv).
    apply Nat.eqb_eq in Hc. now rewrite Hc.
Qed.

(** C1 (as amended): expansion takes the tokens of the command - the runs
    of bytes other than space and tab - from left to right; the candidate
    of a token is the result accumulated so far, a space and the token, or
    the token alone while nothing is accumulated (so the candidate of the
    first token has no leading space); a token whose candidate has exactly
    one full or partial completion, with a known string, is replaced by
    that string and counts as expanded when the string differs from it;
    any other token is kept.  When the string rebuilt from the replacements
    fits the 4095 bytes of the result buffer, that string is returned if at
    least one token was expanded, and no expansion is reported otherwise. *)
Theorem expand_prefixes_token_by_token :
  forall (A : Type) (grammar : ec_node A) (cmd : string),
    length (reconstruct "" (replacements grammar "" (strtok_all cmd))) <= 4095 ->
    expand_prefixes grammar cmd = expansion_ref grammar cmd
    /\ (expand_prefixes grammar cmd <> None
        <-> changed (strtok_all cmd)
                    (replacements grammar "" (strtok_all cmd)) = true)
    /\ (forall acc tok v : string,
           replacement grammar acc tok = v
           <-> (exists comp item,
                   ec_complete grammar (join_sp acc tok) = Some comp
                   /\ ec_comp_count grammar comp = 1
                   /\ ec_comp_iter_first grammar comp = Some item
                   /\ ec_comp_item_get_str grammar item = Some v)
               \/ (expand_single_token grammar (join_sp acc tok) = None
                   /\ v = tok)).
Proof.
  intros A grammar cmd Hfit.
  assert (Heq : expand_prefixes grammar cmd = expansion_ref grammar cmd).
  { unfold expand_prefixes, expansion_ref.
    destruct (nonempty cmd) eqn:Hne; cbn [negb].
    - now rewrite (expand_loop_ref grammar _ _ _ Hfit).
    - now rewrite (strtok_all_empty cmd Hne). }
  split; [exact Heq|]. split.
  - rewrite Heq. unfold expansion_ref.
    destruct (changed _ _); split; congruence.
  - intros acc tok v. unfold replacement.
    destruct (expand_single_token grammar (join_sp acc tok)) as [w|] eqn:Hw.
    + split.
      * intros <-. left. now apply expand_single_token_spec.
      * intros [Hex | [Hn _]]; [|discriminate].
        apply expand_single_token_spec in Hex. congruence.
    + split.
      * intros <-. right. now split.
      * intros [Hex | [_ ->]]; [|reflexivity].
        apply expand_single_token_spec in Hex. congruence.
Qed.

Lemma expand_prefixes_token_by_token_witness :
  expand_prefixes (demo_grammar true) "sh  sh" = Some "show show".
Proof.
  rewrite (proj1 (expand_prefixes_token_by_token unit (demo_grammar true)
                    "sh  sh" ltac:(vm_compute; lia))).
  reflexivity.
Defined.

(** C1 (as stated) fails twice.  The candidate of the first token is the
    token alone: a grammar that gives no completion to a partial command
    with a leading blank still sees [sh] expanded, where forming the
    candidate from the empty result, a space and the token would keep it.
    And the result buffer holds 4095 bytes: a command of 256 one-letter
    words, each with one completion of 16 bytes, comes back cut, not as the
    string rebuilt from the adopted values. *)
Lemma expand_prefixes_differs_from_spaced :
  (expand_prefixes (demo_grammar true) "sh" = Some "show"
   /\ expand_single_token (demo_grammar true) ("" ++ " " ++ "sh") = None
   /\ spaced_expansion (demo_grammar true) "sh" = None)
  /\ (exists r full,
        expand_prefixes (demo_grammar false) many_words = Some r
        /\ spaced_expansion (demo_grammar false) many_words = Some full
        /\ length r = 4095 /\ length full = 4351).
Proof.
  split.
  - split; [vm_compute; reflexivity|]. split; vm_compute; reflexivity.
  - do 2 eexists.
    split; [vm_compute; reflexivity|].
    split; [vm_compute; reflexivity|].
    split; vm_compute; reflexivity.
Qed.

Lemma reconstruct_cost (words : list string) :
  forall acc, length (reconstruct acc words) <= length acc + cost words.
Proof.
  induction words as [|w rest IH]; intros acc; simpl; [lia|].
  etransitivity; [apply IH|]. unfold join_sp.
  destruct (nonempty acc); rewrite ?length_append; simpl; lia.
Qed.

Lemma reconstruct_cost_empty (words : list string) :
  length (reconstruct "" words) <= cost words - 1.
Proof.
  destruct words as [|w rest]; simpl; [lia|].
  etransitivity; [apply reconstruct_cost|].
  unfold join_sp; simpl. lia.
Qed.

Lemma strtok_aux_cost (s : string) :
  forall tok, cost (strtok_aux tok s) <= length tok + length s + 1.
Proof.
  induction s as [|c s IH]; intros tok; simpl.
  - destruct (tok =? ""); simpl; lia.
  - destruct (is_delim c).
    + destruct (tok =? ""); simpl.
      * specialize (IH ""). simpl in IH. lia.
      * specialize (IH ""). simpl in IH. lia.
    + specialize (IH (tok ++ String c "")).
      rewrite length_append in IH. simpl in IH. lia.
Qed.

(** The tokens joined by single spaces are no longer than the command. *)
Lemma strtok_all_length (cmd : string) :
  length (reconstruct "" (strtok_all cmd)) <= length cmd.
Proof.
  pose proof (reconstruct_cost_empty (strtok_all cmd)) as H1.
  pose proof (strtok_aux_cost cmd "") as H2.
  unfold strtok_all in *. simpl in H2. lia.
Qed.

Lemma changed_same (tokens : list string) : changed tokens tokens = false.
Proof.
  induction tokens as [|tok rest IH]; [reflexivity|].
  now rewrite changed_cons, String.eqb_refl, IH.
Qed.

(** Tokens that are their own completions are their own replacements. *)
Lemma full_forms_kept {A} (grammar : ec_node A) (tokens : list string) :
  forall acc : string,
    (forall (before after : list string) (tok v : string),
        tokens = (before ++ tok :: after)%list ->
        expand_single_token grammar (reconstruct acc (before ++ [tok]))
        = Some v ->
        v = tok) ->
    replacements grammar acc tokens = tokens.
Proof.
  induction tokens as [|tok rest IH]; intros acc Hfull; [reflexivity|].
  cbn [replacements].
  assert (Htok : replacement grammar acc tok = tok).
  { unfold replacement.
    destruct (expand_single_token grammar (join_sp acc tok)) as [v|] eqn:Hv;
      [|reflexivity].
    apply (Hfull [] rest tok v); [reflexivity | exact Hv]. }
  rewrite Htok. f_equal. apply IH.
  intros before after t v Hsplit Hv.
  apply (Hfull (tok :: before) after t v); [now rewrite Hsplit | exact Hv].
Qed.

(** C7: on a command that is already fully expanded - every token, taken
    with the tokens before it, is either without a single completion or is
    its own single completion - expansion reports that nothing was expanded.
    The command is one that fits the 4096-byte result buffer, as every
    command the resolver builds does (at most 511 or 1023 bytes). *)
Theorem expand_prefixes_idempotent :
  forall (A : Type) (grammar : ec_node A) (cmd : string),
    length cmd <= 4095 ->
    fully_expanded grammar cmd ->
    expand_prefixes grammar cmd = None.
Proof.
  intros A grammar cmd Hlen Hfull.
  apply (full_forms_kept grammar (strtok_all cmd) "") in Hfull.
  unfold expand_prefixes.
  destruct (nonempty cmd); cbn [negb]; [|reflexivity].
  rewrite expand_loop_ref.
  - now rewrite Hfull, changed_same.
  - rewrite Hfull. etransitivity; [apply strtok_all_length | exact Hlen].
Qed.

Lemma expand_prefixes_idempotent_witness :
  expand_prefixes (demo_grammar true) "show  show" = None.
Proof.
  apply (expand_prefixes_idempotent unit (demo_grammar true) "show  show").
  - vm_compute. lia.
  - intros before after tok v Hsplit Hv.
    change (strtok_all "show  show") with ["show"; "show"] in Hsplit.
    destruct before as [|b1 [|b2 before]]; simpl in Hsplit.
    + injection Hsplit as <- _. vm_compute in Hv. congruence.
    + injection Hsplit as <- <- _. vm_compute in Hv. congruence.
    + destruct before; discriminate.
Defined.

(** What expansion returns is fully expanded for the demo grammar, and
    expanding it again reports nothing. *)
Example expand_twice_demo :
  expand_prefixes (demo_grammar true) "sh" = Some "show"
  /\ expand_prefixes (demo_grammar true) "show" = None.
Proof. split; reflexivity. Qed.

(* ------------------------------------------------------------------ *)
(** ** The output registry *)

Lemma ecli_out_register_insert {A} (head : list (ecli_out_entry_t A))
    (e : ecli_out_entry_t A) :
  ecli_out_register head (name e) (group e) (default_fmt e) (func e)
                    (priority e)
  = out_insert e head.
Proof. now destruct e. Qed.

Lemma out_insert_perm {A} (e : ecli_out_entry_t A)
    (l : list (ecli_out_entry_t A)) :
  Permutation (out_insert e l) (e :: l).
Proof.
  induction l as [|x rest IH]; simpl; [reflexivity|].
  destruct (priority x <=? priority e)%Z; [|reflexivity].
  rewrite IH. apply perm_swap.
Qed.

Lemma out_insert_sorted {A} (e : ecli_out_entry_t A)
    (l : list (ecli_out_entry_t A)) :
  StronglySorted prio_le l -> StronglySorted prio_le (out_insert e l).
Proof.
  induction 1 as [|x rest Hs IH Hall]; simpl.
  - repeat constructor.
  - destruct (priority x <=? priority e)%Z eqn:Hle.
    + constructor; [exact IH|].
      apply (Permutation_Forall (Permutation_sym (out_insert_perm e rest))).
      constructor; [apply Z.leb_le in Hle; exact Hle | exact Hall].
    + apply Z.leb_gt in Hle. constructor.
      * constructor; assumption.
      * constructor; [unfold prio_le; lia|].
        eapply Forall_impl; [|exact Hall].
        intros y Hy. unfold prio_le in *. lia.
Qed.

(** A new entry goes behind the entries of its priority. *)
Lemma with_priority_insert {A} (p : Z) (e : ecli_out_entry_t A)
    (l : list (ecli_out_entry_t A)) :
  StronglySorted prio_le l ->
  with_priority p (out_insert e l)
  = (with_priority p l ++ with_priority p [e])%list.
Proof.
  induction 1 as [|x rest Hs IH Hall]; [reflexivity|].
  cbn [out_insert].
  destruct (priority x <=? priority e)%Z eqn:Hle.
  - unfold with_priority in *. cbn [filter].
    rewrite IH. now destruct (priority x =? p)%Z.
  - apply Z.leb_gt in Hle.
    unfold with_priority. cbn [filter].
    destruct (priority e =? p)%Z eqn:He; [|now rewrite app_nil_r].
    apply Z.eqb_eq in He.
    assert (Hx : (priority x =? p)%Z = false) by (apply Z.eqb_neq; lia).
    rewrite Hx.
    assert (Hnone : filter (fun e0 => (priority e0 =? p)%Z) rest = []).
    { clear IH Hs. induction Hall as [|y rest' Hy _ IH']; [reflexivity|].
      cbn [filter]. unfold prio_le in Hy.
      assert (Hy' : (priority y =? p)%Z = false) by (apply Z.eqb_neq; lia).
      now rewrite Hy'. }
    now rewrite Hnone.
Qed.

Lemma register_fold {A} (regs : list (ecli_out_entry_t A)) :
  forall head,
    StronglySorted prio_le head ->
    let registry :=
      fold_left (fun head e =>
                   ecli_out_register head (name e) (group e) (default_fmt e)
                                     (func e) (priority e)) regs head in
    StronglySorted prio_le registry
    /\ Permutation registry (head ++ regs)
    /\ forall p, with_priority p registry
                 = (with_priority p head ++ with_priority p regs)%list.
Proof.
  induction regs as [|e rest IH]; intros head Hs; cbn [fold_left].
  - rewrite app_nil_r. split; [assumption|]. split; [reflexivity|].
    intros p. unfold with_priority at 3. cbn [filter]. now rewrite app_nil_r.
  - rewrite ecli_out_register_insert.
    destruct (IH (out_insert e head) (out_insert_sorted e head Hs))
      as (H1 & H2 & H3).
    split; [exact H1|]. split.
    + eapply Permutation_trans; [exact H2|].
      eapply Permutation_trans;
        [apply Permutation_app_tail, out_insert_perm|].
      apply Permutation_middle.
    + intros p. rewrite H3, (with_priority_insert p e head Hs).
      rewrite <- app_assoc. unfold with_priority. cbn [filter].
      now destruct (priority e =? p)%Z.
Qed.

(** The registry is sorted by priority, holds what was registered, and
    keeps entries of equal priority in the order of their registration. *)
Lemma register_all_sorted_stable {A} (regs : list (ecli_out_entry_t A)) :
  StronglySorted prio_le (register_all regs)
  /\ Permutation (register_all regs) regs
  /\ forall p, with_priority p (register_all regs) = with_priority p regs.
Proof.
  destruct (register_fold regs [] (SSorted_nil _)) as (H1 & H2 & H3).
  split; [exact H1|]. split; [exact H2|]. exact H3.
Qed.

(** C2 (as amended): bindings registered as a (G1, priority 20), b (G1,
    priority 10) and c (G2, priority 5) are dumped in the order of the
    registry, which is by ascending priority over all groups: first c
    between the opening and closing markers of G2, then b and a between
    those of G1.  For any registrations the registry is ordered by
    ascending priority, holds exactly what was registered, and keeps
    bindings of equal priority in their order of registration. *)
Theorem dump_follows_registry_order :
  forall (A : Type),
    (forall (fmts : list (string * string)) (fa fb fc : ecli_out_t A)
            (app : A) (fp : bool) (ta tb tc : list string),
        fa app fp (ecli_out_get_fmt fmts (Some "a") None) = Some ta ->
        fb app fp (ecli_out_get_fmt fmts (Some "b") None) = Some tb ->
        fc app fp (ecli_out_get_fmt fmts (Some "c") None) = Some tc ->
        ecli_dump_running_config fmts (abc_registry fa fb fc) app fp
        = Some ([ECLI_OUT fp ("! running configuration" ++ nl);
                 ECLI_OUT fp ("!" ++ nl);
                 ECLI_OUT fp ("! G2 configuration" ++ nl)]
                ++ tc
                ++ [ECLI_OUT fp ("! end G2" ++ nl);
                    ECLI_OUT fp ("! G1 configuration" ++ nl)]
                ++ tb ++ ta
                ++ [ECLI_OUT fp ("! end G1" ++ nl);
                    ECLI_OUT fp ("!" ++ nl);
                    ECLI_OUT fp ("! end" ++ nl)])%list)
    /\ (forall regs : list (ecli_out_entry_t A),
           StronglySorted prio_le (register_all regs)
           /\ Permutation (register_all regs) regs
           /\ forall p : Z,
                with_priority p (register_all regs) = with_priority p regs).
Proof.
  intros A. split; [|apply register_all_sorted_stable].
  intros fmts fa fb fc app fp ta tb tc Ha Hb Hc.
  unfold ecli_dump_running_config.
  change (abc_registry fa fb fc)
    with [mk_out_entry (Some "c") (Some "G2") None (Some fc) 5;
          mk_out_entry (Some "b") (Some "G1") None (Some fb) 10;
          mk_out_entry (Some "a") (Some "G1") None (Some fa) 20].
  cbn [dump_loop group func name default_fmt].
  rewrite Hc, Hb, Ha.
  cbn [group_changed group_separator String.eqb Ascii.eqb Bool.eqb negb].
  cbn [List.app]. rewrite <- !app_assoc. reflexivity.
Qed.

Lemma dump_follows_registry_order_witness :
  option_map (fun out => lines (text_of out))
    (ecli_dump_running_config []
       (abc_registry (prints ("a" ++ nl)) (prints ("b" ++ nl))
                     (prints ("c" ++ nl)))
       tt false)
  = Some ["! running configuration"; "!";
          "! G2 configuration"; "c"; "! end G2";
          "! G1 configuration"; "b"; "a"; "! end G1";
          "!"; "! end"].
Proof.
  rewrite (proj1 (dump_follows_registry_order unit) []
             (prints ("a" ++ nl)) (prints ("b" ++ nl)) (prints ("c" ++ nl))
             tt false _ _ _ eq_refl eq_refl eq_refl).
  reflexivity.
Defined.

(** C2 (as stated) fails: c is registered with the lowest priority, so the
    registry holds c, b, a and the dump prints the group of c first; the
    order b, a, c is not the one of the dump. *)
Lemma dump_puts_lowest_priority_first :
  map name (abc_registry (prints ("a" ++ nl)) (prints ("b" ++ nl))
                         (@prints unit ("c" ++ nl)))
  = [Some "c"; Some "b"; Some "a"]
  /\ exists out,
       ecli_dump_running_config []
         (abc_registry (prints ("a" ++ nl)) (prints ("b" ++ nl))
                       (prints ("c" ++ nl))) tt true = Some out
       /\ lines (text_of out)
          = ["! running configuration"; "!";
             "! G2 configuration"; "c"; "! end G2";
             "! G1 configuration"; "b"; "a"; "! end G1";
             "!"; "! end"]
       /\ lines (text_of out)
          <> ["! running configuration"; "!";
              "! G1 configuration"; "b"; "a"; "! end G1";
              "! G2 configuration"; "c"; "! end G2";
              "!"; "! end"].
Proof.
  split; [reflexivity|]. eexists. split; [reflexivity|].
  split; [reflexivity | discriminate].
Qed.

(* ------------------------------------------------------------------ *)
(** ** The dump *)

(** One turn of the dump loop: markers, then the output function, then the
    rest of the registry under the group now current. *)
Lemma dump_loop_step {A} (fmts : list (string * string)) (app : A)
    (fp : bool) (e : ecli_out_entry_t A) (rest : list (ecli_out_entry_t A))
    (current_group : option string) :
  dump_loop fmts app fp (e :: rest) current_group
  = let changes := group_changed current_group (group e) in
    let markers :=
      match group e with
      | Some g => if changes then group_separator fp current_group g else []
      | None => []
      end in
    match
      match func e with
      | Some f => f app fp (ecli_out_get_fmt fmts (name e) (default_fmt e))
      | None => Some []
      end
    with
    | None => None
    | Some body =>
        match dump_loop fmts app fp rest
                (if changes then group e else current_group) with
        | None => None
        | Some (out, last) => Some ((markers ++ body ++ out)%list, last)
        end
    end.
Proof.
  cbn [dump_loop]. unfold group_changed.
  destruct (group e) as [g|]; [|reflexivity].
  destruct current_group as [cur|]; [|reflexivity].
  destruct (negb (cur =? g)); reflexivity.
Qed.

(** C3 (as amended): with the two bindings of the minimal example
    registered and both values set, the dump is exactly ten lines on either
    sink: the two header lines, the greeting group with its line between
    its opening and closing markers, the network group likewise, and the
    two trailer lines.  In the loop a binding prints markers only when it
    has a group and that group differs from the current group, which is the
    group of the last marker opened: then a closing marker for the current
    group, if there is one, and an opening marker for the new group come
    before the output function is called; a binding without a group prints
    no marker and leaves the current group as it is. *)
Theorem dump_minimal_example :
  (forall fp : bool,
      option_map (fun out => lines (text_of out))
        (ecli_dump_running_config [] minimal_registry minimal_configured fp)
      = Some ["! running configuration"; "!";
              "! greeting configuration"; "set name Alice"; "! end greeting";
              "! network configuration"; "set address 10.0.0.1";
              "! end network";
              "!"; "! end"])
  /\ (forall (A : Type) (fmts : list (string * string)) (app : A) (fp : bool)
             (e : ecli_out_entry_t A) (rest : list (ecli_out_entry_t A))
             (current_group : option string) (body : list string),
         match func e with
         | Some f => f app fp (ecli_out_get_fmt fmts (name e) (default_fmt e))
         | None => Some []
         end = Some body ->
         (forall g,
             group e = Some g -> current_group <> Some g ->
             dump_loop fmts app fp (e :: rest) current_group
             = option_map
                 (fun r => ((match current_group with
                             | Some cur => [ECLI_OUT fp ("! end " ++ cur ++ nl)]
                             | None => []
                             end
                             ++ [ECLI_OUT fp ("! " ++ g ++ " configuration"
                                                ++ nl)]
                             ++ body ++ fst r)%list, snd r))
                 (dump_loop fmts app fp rest (Some g)))
         /\ (group e = None \/ group e = current_group ->
             dump_loop fmts app fp (e :: rest) current_group
             = option_map (fun r => ((body ++ fst r)%list, snd r))
                          (dump_loop fmts app fp rest current_group))).
Proof.
  split.
  - intros [|]; vm_compute; reflexivity.
  - intros A fmts app fp e rest cur body Hbody. split.
    + intros g Hg Hcur. rewrite dump_loop_step, Hbody, Hg.
      assert (Hch : group_changed cur (Some g) = true).
      { unfold group_changed. destruct cur as [c|]; [|reflexivity].
        destruct (String.eqb_spec c g); [subst; congruence | reflexivity]. }
      cbv zeta. rewrite Hch. unfold group_separator.
      destruct (dump_loop fmts app fp rest (Some g)) as [[out last]|];
        [|reflexivity].
      cbn [option_map fst snd]. now rewrite <- app_assoc.
    + intros Hsame. rewrite dump_loop_step, Hbody.
      assert (Hch : group_changed cur (group e) = false).
      { unfold group_changed. destruct Hsame as [-> | ->]; [reflexivity|].
        destruct cur as [c|]; [|reflexivity]. now rewrite String.eqb_refl. }
      cbv zeta. rewrite Hch.
      destruct (dump_loop fmts app fp rest cur) as [[out last]|];
        [|reflexivity].
      now destruct (group e).
Qed.

Lemma dump_minimal_example_witness :
  dump_loop [] minimal_configured true minimal_registry None
  = Some (["! greeting configuration" ++ nl; "set name Alice" ++ nl;
           "! end greeting" ++ nl;
           "! network configuration" ++ nl; "set address 10.0.0.1" ++ nl],
          Some "network").
Proof.
  pose (e1 := mk_out_entry (Some "set_name") (Some "greeting")
                (Some ("set name {value}" ++ nl)) (Some out_set_name) 10).
  pose (e2 := mk_out_entry (Some "set_address") (Some "network")
                (Some ("set address {ipv4}" ++ nl)) (Some out_set_address) 20).
  change minimal_registry with [e1; e2].
  rewrite (proj1 (proj2 dump_minimal_example _ [] minimal_configured true
                    e1 [e2] None ["set name Alice" ++ nl] eq_refl)
             "greeting" eq_refl ltac:(discriminate)).
  rewrite (proj1 (proj2 dump_minimal_example _ [] minimal_configured true
                    e2 [] (Some "greeting") ["set address 10.0.0.1" ++ nl]
                    eq_refl)
             "network" eq_refl ltac:(discriminate)).
  reflexivity.
Defined.

(** C3 (as stated) fails: the dump of the example has ten lines, the seven
    of the statement preceded by two header lines and with one more line
    before the last.  And a binding without a group, between two bindings
    of one group, differs in group from its neighbours yet no marker is
    printed around it. *)
Lemma dump_has_header_lines :
  (exists out,
      ecli_dump_running_config [] minimal_registry minimal_configured false
      = Some out
      /\ List.length (lines (text_of out)) = 10
      /\ lines (text_of out)
         <> ["! greeting configuration"; "set name Alice"; "! end greeting";
             "! network configuration"; "set address 10.0.0.1";
             "! end network"; "! end"])
  /\ option_map (fun out => lines (text_of out))
       (ecli_dump_running_config []
          (ungrouped_registry (prints ("x" ++ nl)) (prints ("y" ++ nl))
                              (prints ("z" ++ nl))) tt false)
     = Some ["! running configuration"; "!";
             "! g configuration"; "x"; "y"; "z"; "! end g";
             "!"; "! end"].
Proof.
  split; [|vm_compute; reflexivity].
  eexists. split; [vm_compute; reflexivity|].
  split; [reflexivity | discriminate].
Qed.

(* ------------------------------------------------------------------ *)
(** ** Configuration replay *)

(** While the line counter stays within an int the loop is the run of the
    commands of the file. *)
Lemma load_config_loop_commands {A} (grammar : ec_node A)
    (cli : eecli_ctx_t) (buffers : list string) :
  forall (app : A) (line_num error_count : Z),
    (0 <= error_count <= line_num)%Z ->
    (line_num + Z.of_nat (List.length buffers) <= INT_MAX)%Z ->
    load_config_loop grammar cli app buffers line_num error_count
    = Some (let '(k, app', evs) :=
              run_commands grammar cli app (config_commands buffers line_num)
            in ((error_count + k)%Z, app', evs)).
Proof.
  induction buffers as [|line rest IH]; intros app n e He Hn.
  - simpl. now rewrite Z.add_0_r.
  - assert (Hlen : Z.of_nat (List.length (line :: rest))
                   = (Z.of_nat (List.length rest) + 1)%Z)
      by (cbn [List.length]; lia).
    rewrite Hlen in Hn.
    cbn [load_config_loop config_commands].
    assert (Hn1 : (n =? INT_MAX)%Z = false) by (apply Z.eqb_neq; lia).
    assert (He1 : (e =? INT_MAX)%Z = false) by (apply Z.eqb_neq; lia).
    rewrite Hn1.
    destruct (nonempty (trim_tail config_tail (skip_blanks line))) eqn:Hne;
      cbn [negb andb]; [|apply IH; lia].
    destruct (is_comment (trim_tail config_tail (skip_blanks line)));
      cbn [negb]; [apply IH; lia|].
    cbn [run_commands].
    destruct (execute_command grammar cli app
                (trim_tail config_tail (skip_blanks line)))
      as [[ret app1] evs].
    destruct (ret <? 0)%Z.
    + rewrite He1, IH by lia.
      destruct (run_commands grammar cli app1 (config_commands rest (n + 1)))
        as [[k app2] evs'].
      replace (e + 1 + k)%Z with (e + (k + 1))%Z by lia. reflexivity.
    + rewrite IH by lia.
      destruct (run_commands grammar cli app1 (config_commands rest (n + 1)))
        as [[k app2] evs'].
      reflexivity.
Qed.

(** Past INT_MAX buffers the increment of the line counter overflows. *)
Lemma load_config_loop_overflow {A} (grammar : ec_node A)
    (cli : eecli_ctx_t) (buffers : list string) :
  forall (app : A) (line_num error_count : Z),
    (line_num <= INT_MAX)%Z ->
    (INT_MAX < line_num + Z.of_nat (List.length buffers))%Z ->
    load_config_loop grammar cli app buffers line_num error_count = None.
Proof.
  induction buffers as [|line rest IH]; intros app n e Hn Hover.
  - simpl in Hover. lia.
  - assert (Hlen : Z.of_nat (List.length (line :: rest))
                   = (Z.of_nat (List.length rest) + 1)%Z)
      by (cbn [List.length]; lia).
    rewrite Hlen in Hover.
    cbn [load_config_loop].
    destruct (n =? INT_MAX)%Z eqn:Hn1; [reflexivity|].
    apply Z.eqb_neq in Hn1.
    destruct (negb (nonempty (trim_tail config_tail (skip_blanks line))));
      [apply IH; lia|].
    destruct (is_comment (trim_tail config_tail (skip_blanks line)));
      [apply IH; lia|].
    destruct (execute_command grammar cli app
                (trim_tail config_tail (skip_blanks line)))
      as [[ret app1] evs].
    destruct (ret <? 0)%Z.
    + destruct (e =? INT_MAX)%Z; [reflexivity|].
      rewrite IH by lia. reflexivity.
    + rewrite IH by lia. reflexivity.
Qed.

Lemma run_commands_failures {A} (grammar : ec_node A) (cli : eecli_ctx_t)
    (cmds : list (Z * string)) :
  forall app : A,
    fst (fst (run_commands grammar cli app cmds))
    = Z.of_nat (List.length (failures grammar cli app cmds))
    /\ forall n p,
         In (n, p) (failures grammar cli app cmds) ->
         In (Stderr (" Config error at line " ++ decimal n ++ ": " ++ p ++ nl))
            (snd (run_commands grammar cli app cmds)).
Proof.
  induction cmds as [|[n p] rest IH]; intros app.
  - split; [reflexivity | intros n p []].
  - cbn [run_commands failures].
    destruct (execute_command grammar cli app p) as [[ret app1] evs].
    destruct (IH app1) as [Hc Hl].
    destruct (run_commands grammar cli app1 rest) as [[k app2] evs'].
    cbn [fst snd] in *.
    destruct (ret <? 0)%Z; cbn [fst snd].
    + split.
      * cbn [List.length]. lia.
      * intros n' p' [Heq | Hin]; apply in_or_app; right.
        -- injection Heq as <- <-. now left.
        -- right. now apply Hl.
    + split; [exact Hc|].
      intros n' p' Hin. apply in_or_app. right. now apply Hl.
Qed.

Lemma trim_tail_keeps_first (ws : ascii -> bool) (s : string) :
  nonempty (trim_tail ws s) = nonempty s
  /\ is_comment (trim_tail ws s) = is_comment s.
Proof. now destruct s. Qed.

Lemma config_commands_spec (buffers : list string) :
  forall (line_num n : Z) (p : string),
    In (n, p) (config_commands buffers line_num) ->
    nonempty p = true /\ is_comment p = false
    /\ exists line, In line buffers
                    /\ p = trim_tail config_tail (skip_blanks line).
Proof.
  induction buffers as [|line rest IH]; intros line_num n p Hin;
    [destruct Hin|].
  cbn [config_commands] in Hin.
  destruct (nonempty (trim_tail config_tail (skip_blanks line))) eqn:Hne;
    cbn [andb] in Hin.
  - destruct (is_comment (trim_tail config_tail (skip_blanks line))) eqn:Hc;
      cbn [negb] in Hin.
    + destruct (IH _ _ _ Hin) as (H1 & H2 & l & Hl & Hp).
      repeat split; try assumption. exists l. split; [now right | exact Hp].
    + destruct Hin as [Heq | Hin].
      * injection Heq as <- <-. repeat split; try assumption.
        exists line. split; [now left | reflexivity].
      * destruct (IH _ _ _ Hin) as (H1 & H2 & l & Hl & Hp).
        repeat split; try assumption. exists l. split; [now right | exact Hp].
  - destruct (IH _ _ _ Hin) as (H1 & H2 & l & Hl & Hp).
    repeat split; try assumption. exists l. split; [now right | exact Hp].
Qed.

(** C8 (as amended): replay reads the file in buffers of at most 1023
    bytes, drops the leading blanks and the trailing newline and blank
    bytes of each, and skips the lines whose first non-blank byte is an
    exclamation mark or a hash sign.  Each line it executes is built into
    the full command and parsed once.  When the parse fails, or is not a
    complete match, the line fails with a notice on the standard error
    stream and nothing else happens: no abbreviation is expanded, no
    context is entered, and the words end and exit are commands like any
    other.  On a complete match the handler runs and its status is the
    status of the line.  Nothing is written to the session by replay
    itself, so no prompt, and the session is the same for every line.  A
    line whose status is negative is logged with its number and text and
    counted, and replay goes on with the next line; the value returned is
    the number of those lines.  All this holds for a file of at most
    INT_MAX lines, the range of the line counter. *)
Theorem replay_counts_failures :
  forall (A : Type) (grammar : ec_node A) (cli : eecli_ctx_t) (app : A)
         (filename content : string),
    (Z.of_nat (List.length (fgets_all 1024 content)) <= INT_MAX)%Z ->
    let cmds := config_commands (fgets_all 1024 content) 0 in
    let r := run_commands grammar cli app cmds in
    ecli_load_config grammar (Some cli) filename (inl content) app = Some r
    /\ fst (fst r) = Z.of_nat (List.length (failures grammar cli app cmds))
    /\ (forall n p,
           In (n, p) (failures grammar cli app cmds) ->
           In (Stderr (" Config error at line " ++ decimal n ++ ": " ++ p
                         ++ nl)) (snd r))
    /\ (forall n p,
           In (n, p) cmds -> nonempty p = true /\ is_comment p = false)
    /\ (forall (line : string) (rest : list string) (n : Z),
           is_comment (skip_blanks line) = true ->
           config_commands (line :: rest) n = config_commands rest (n + 1))
    /\ (forall (session : eecli_ctx_t) (state : A) (p : string),
           let full_cmd := ecli_build_full_command session p 512 in
           (ec_parse grammar full_cmd = None ->
            execute_command grammar session state p
            = ((-1)%Z, state,
               [Stderr (" Config: parse error for: " ++ p ++ nl)]))
           /\ (forall parse : ec_pnode grammar,
                  ec_parse grammar full_cmd = Some parse ->
                  (ec_pnode_matches grammar parse = false ->
                   execute_command grammar session state p
                   = ((-1)%Z, state,
                      [Stderr (" Config: unknown command: " ++ p ++ nl)]))
                  /\ (ec_pnode_matches grammar parse = true ->
                      execute_command grammar session state p
                      = let '(ret, state', evs) :=
                          run_callback grammar session state parse in
                        (ret, state',
                         (evs ++ (if (ret <? 0)%Z
                                  then [Stderr (" Config: command failed: "
                                                  ++ p ++ nl)]
                                  else []))%list))))
    /\ (forall (state : A) (n : Z) (p : string) (rest : list (Z * string)),
           run_commands grammar cli state ((n, p) :: rest)
           = let '(ret, state1, evs) :=
               execute_command grammar cli state p in
             let '(k, state2, evs') := run_commands grammar cli state1 rest in
             ((if (ret <? 0)%Z then k + 1 else k)%Z, state2,
              (evs ++ (if (ret <? 0)%Z
                       then [Stderr (" Config error at line " ++ decimal n
                                       ++ ": " ++ p ++ nl)]
                       else []) ++ evs')%list)).
Proof.
  intros A grammar cli app filename content Hbound cmds r.
  assert (Hr : ecli_load_config grammar (Some cli) filename (inl content) app
               = Some r).
  { unfold r, ecli_load_config.
    rewrite load_config_loop_commands by lia.
    fold cmds. now destruct (run_commands grammar cli app cmds) as [[k a] e]. }
  split; [exact Hr|]. unfold r.
  destruct (run_commands_failures grammar cli cmds app) as [Hc Hl].
  split; [exact Hc|]. split; [exact Hl|]. split; [|split; [|split]].
  - intros n p Hin.
    destruct (config_commands_spec _ _ _ _ Hin) as (H1 & H2 & _).
    now split.
  - intros line rest n Hc'. cbn [config_commands].
    destruct (trim_tail_keeps_first config_tail (skip_blanks line))
      as [_ Hcm].
    now rewrite Hcm, Hc', andb_false_r.
  - intros session state p. cbv zeta. unfold execute_command. split.
    + intros Hp. now rewrite Hp.
    + intros parse Hp. rewrite Hp. split; intros Hm; now rewrite Hm.
  - intros state n p rest. reflexivity.
Qed.

(** C8 (as stated) fails: replay does not treat a line as interactive
    input does.  The abbreviation [sh] typed at the prompt is expanded and
    its handler runs; replayed from a file it is an unknown command and a
    counted failure.  A context keyword typed at the prompt enters the
    context; replayed it is a failure and the stack stays empty. *)
Lemma replay_does_not_expand :
  let cli := ecli_init (mk_config "cli> ") false in
  process_line (demo_grammar true) ["vhost"] cli tt "sh"
  = Some (cli, tt, [ecli_output ("ok" ++ nl); Write "cli> "])
  /\ ecli_load_config (demo_grammar true) (Some cli) "startup.conf"
       (inl ("sh" ++ nl)) tt
     = Some (1%Z, tt,
             [Stderr (" Config: unknown command: sh" ++ nl);
              Stderr (" Config error at line 1: sh" ++ nl)])
  /\ (exists cli',
         process_line (demo_grammar true) ["vhost"] cli tt "vhost"
         = Some (cli', tt, [Write "cli(vhost)> "])
         /\ context_stack cli' = ["vhost"])
  /\ ecli_load_config (demo_grammar true) (Some cli) "startup.conf"
       (inl ("vhost" ++ nl)) tt
     = Some (1%Z, tt,
             [Stderr (" Config: unknown command: vhost" ++ nl);
              Stderr (" Config error at line 1: vhost" ++ nl)]).
Proof.
  cbv zeta. split; [vm_compute; reflexivity|].
  split; [vm_compute; reflexivity|]. split; [|vm_compute; reflexivity].
  eexists. split; vm_compute; reflexivity.
Qed.

(** The trimming loop of replay stops at the first byte of the line, so a
    line made of a newline alone stays one byte long and is executed. *)
Example replay_executes_blank_line :
  trim_tail config_tail (skip_blanks nl) = nl
  /\ config_commands ["show" ++ nl; nl; "show" ++ nl] 0
     = [(1%Z, "show"); (2%Z, nl); (3%Z, "show")]
  /\ option_map (fun r => fst (fst r))
       (ecli_load_config (demo_grammar true)
          (Some (ecli_init (mk_config "cli> ") false)) "startup.conf"
          (inl ("show" ++ nl ++ nl ++ "show" ++ nl)) tt)
     = Some 1%Z.
Proof. repeat split. Qed.

Lemma replay_counts_failures_witness :
  let cli := ecli_init (mk_config "cli> ") false in
  let content := "! saved configuration" ++ nl ++ "show" ++ nl
                 ++ "  # next line is abbreviated" ++ nl ++ "sh" ++ nl
                 ++ "end" ++ nl in
  exists r,
    ecli_load_config (demo_grammar true) (Some cli) "startup.conf"
                     (inl content) tt = Some r
    /\ fst (fst r) = 2%Z
    /\ In (Stderr (" Config error at line 4: sh" ++ nl)) (snd r)
    /\ In (Stderr (" Config error at line 5: end" ++ nl)) (snd r)
    /\ execute_command (demo_grammar true) cli tt "end"
       = ((-1)%Z, tt, [Stderr (" Config: unknown command: end" ++ nl)]).
Proof.
  cbv zeta.
  destruct (replay_counts_failures unit (demo_grammar true)
              (ecli_init (mk_config "cli> ") false) tt "startup.conf"
              ("! saved configuration" ++ nl ++ "show" ++ nl
               ++ "  # next line is abbreviated" ++ nl ++ "sh" ++ nl
               ++ "end" ++ nl))
    as (Hr & Hc & Hl & _ & _ & Hexec & _).
  - vm_compute. discriminate.
  - eexists. split; [exact Hr|].
    split; [rewrite Hc; reflexivity|]. split; [|split].
    + apply (Hl 4%Z "sh"). vm_compute. left. reflexivity.
    + apply (Hl 5%Z "end"). vm_compute. right. left. reflexivity.
    + destruct (Hexec (ecli_init (mk_config "cli> ") false) tt "end")
        as [_ Hparse].
      destruct (Hparse "end" eq_refl) as [Hunknown _].
      apply Hunknown. reflexivity.
Defined.

(* ------------------------------------------------------------------ *)
(** ** Named-placeholder substitution *)

Lemma read_params_firstn (n : nat) (ap : list ecli_fmt_param_t) :
  read_params n ap = firstn n ap.
Proof.
  revert ap; induction n as [|n IH]; intros [|a ap]; simpl;
    try reflexivity; now rewrite IH.
Qed.

(** At most 16 parameters are read, and those behind them change
    nothing. *)
Lemma ecli_out_fmt_first_params (fp : bool) (fmt : option string)
    (ap : list ecli_fmt_param_t) :
  List.length (read_params ECLI_FMT_MAX_PARAMS ap) <= 16
  /\ ecli_out_fmt fp fmt ap = ecli_out_fmt fp fmt (firstn 16 ap).
Proof.
  split.
  - rewrite read_params_firstn. apply firstn_le_length.
  - unfold ecli_out_fmt. destruct fmt as [f|]; [|reflexivity].
    rewrite (read_params_firstn _ ap).
    rewrite (read_params_firstn _ (firstn 16 ap)).
    now rewrite firstn_firstn.
Qed.

Lemma length_advance (n : nat) (p : string) :
  length (advance n p) = length p - n.
Proof.
  revert p; induction n as [|n IH]; intros [|c p]; simpl; try reflexivity.
  apply IH.
Qed.

(** The loop does not depend on the fuel once there is a turn for every
    byte of the format. *)
Lemma fmt_loop_fuel (params : list ecli_fmt_param_t) (fuel1 : nat) :
  forall (fuel2 : nat) (p output : string) (out : nat),
    length p <= fuel1 -> length p <= fuel2 ->
    fmt_loop fuel1 params p output out = fmt_loop fuel2 params p output out.
Proof.
  induction fuel1 as [|fuel1 IH]; intros fuel2 p output out H1 H2.
  - destruct p; [|simpl in H1; lia]. now destruct fuel2.
  - destruct fuel2 as [|fuel2].
    + destruct p; [reflexivity | simpl in H2; lia].
    + destruct p as [|c p']; [reflexivity|].
      simpl in H1, H2. cbn [fmt_loop].
      destruct (negb (out <? out_end)%nat) eqn:Hout; [reflexivity|].
      assert (Hlt : out < out_end)
        by (apply negb_false_iff, Nat.ltb_lt in Hout; exact Hout).
      rewrite (IH fuel2 p') by lia.
      destruct (Ascii.eqb c "{"); [|reflexivity].
      destruct (strchr p' "}") as [name_len|]; [|reflexivity].
      destruct (if (name_len <? 64)%nat
                then find_param params (strtrunc name_len p') else None).
      * apply IH; rewrite length_advance; lia.
      * apply IH; rewrite length_advance; simpl length; lia.
Qed.

(** The stored text never exceeds the 1023 bytes before the terminator. *)
Lemma fmt_loop_bounded (params : list ecli_fmt_param_t) (fuel : nat) :
  forall (p output : string) (out : nat),
    length output <= out -> length output <= out_end ->
    length (fst (fmt_loop fuel params p output out)) <= out_end.
Proof.
  induction fuel as [|fuel IH]; intros p output out H1 H2; [exact H2|].
  destruct p as [|c p']; [exact H2|]. cbn [fmt_loop].
  destruct (negb (out <? out_end)%nat) eqn:Hout; [exact H2|].
  assert (Hlt : out < out_end)
    by (apply negb_false_iff, Nat.ltb_lt in Hout; exact Hout).
  assert (Hplain : length (fst (fmt_loop fuel params p'
                                  (output ++ String c "") (out + 1)))
                   <= out_end).
  { apply IH; rewrite length_append; simpl length; lia. }
  destruct (Ascii.eqb c "{"); [|exact Hplain].
  destruct (strchr p' "}") as [name_len|]; [|exact Hplain].
  destruct (if (name_len <? 64)%nat
            then find_param params (strtrunc name_len p') else None) as [v|].
  - apply IH; rewrite length_append; unfold snprintf;
      rewrite strtrunc_length; lia.
  - apply IH; rewrite length_append, strtrunc_length; lia.
Qed.

(** A call that returns has handed one text of at most 1023 bytes to the
    sink. *)
Lemma ecli_out_fmt_bounded (fp : bool) (f : string)
    (ap : list ecli_fmt_param_t) (chunks : list string) :
  ecli_out_fmt fp (Some f) ap = Some chunks ->
  exists output, chunks = [ECLI_OUT fp output] /\ length output <= out_end.
Proof.
  unfold ecli_out_fmt.
  pose proof (fmt_loop_bounded (read_params ECLI_FMT_MAX_PARAMS ap)
                (length f) f "" 0 (Nat.le_0_l _) (Nat.le_0_l _)) as Hb.
  destruct (fmt_loop (length f) (read_params ECLI_FMT_MAX_PARAMS ap) f "" 0)
    as [output out].
  destruct (out <=? out_end)%nat; [|discriminate].
  intros H; injection H as <-. exists output. now split.
Qed.

(** C10: the substituted line is not always cut to the buffer.  For the
    format [{v}] and a string value [s] longer than 1023 bytes the loop
    stores the first 1022 bytes of the value and moves [out] to the offset
    [length s], beyond the last byte of the 1024-byte buffer, where the
    terminator is then written: the call has no defined result.  The same
    happens whenever a value is longer than the room left in the buffer. *)
Theorem ecli_out_fmt_overruns_buffer :
  forall (fp : bool) (s : string),
    out_end < length s ->
    fmt_loop (length "{v}") (read_params ECLI_FMT_MAX_PARAMS
                                         [("v", FMT_STR (Some s))])
             "{v}" "" 0
    = (strtrunc 1022 s, length s)
    /\ ecli_out_fmt fp (Some "{v}") [("v", FMT_STR (Some s))] = None.
Proof.
  intros fp s Hlong.
  assert (Hloop : fmt_loop (length "{v}")
                    (read_params ECLI_FMT_MAX_PARAMS [("v", FMT_STR (Some s))])
                    "{v}" "" 0
                  = (strtrunc 1022 s, length s)) by reflexivity.
  split; [exact Hloop|].
  unfold ecli_out_fmt. rewrite Hloop.
  apply Nat.leb_gt in Hlong. now rewrite Hlong.
Qed.

Lemma ecli_out_fmt_overruns_buffer_witness :
  fmt_loop 3 [("v", FMT_STR (Some (replicate 2000 "a")))] "{v}" "" 0
  = (replicate 1022 "a", 2000)
  /\ ecli_out_fmt false (Some "{v}")
       [("v", FMT_STR (Some (replicate 2000 "a")))] = None.
Proof.
  destruct (ecli_out_fmt_overruns_buffer false (replicate 2000 "a"))
    as [Hloop Hnone].
  - rewrite length_replicate. unfold out_end. lia.
  - split; [|exact Hnone].
    etransitivity; [exact Hloop|].
    rewrite length_replicate. vm_compute. reflexivity.
Defined.

(** Within the buffer the substitution behaves as documented: values are
    substituted, a placeholder without parameter is copied with its braces,
    and a seventeenth parameter is not seen. *)
Example ecli_out_fmt_examples :
  ecli_out_fmt true (Some ("vhost add {hostname} port {port} root {docroot}"
                             ++ nl))
               [("hostname", FMT_STR (Some "www.example.com"));
                ("port", FMT_INT 443)]
  = Some ["vhost add www.example.com port 443 root {docroot}" ++ nl]
  /\ ecli_out_fmt true (Some "{p17}")
       (map (fun k => ("p" ++ decimal (Z.of_nat k), FMT_UINT (Z.of_nat k)))
            (seq 1 17))
     = Some ["{p17}"]
  /\ ecli_out_fmt true (Some "{p16}")
       (map (fun k => ("p" ++ decimal (Z.of_nat k), FMT_UINT (Z.of_nat k)))
            (seq 1 17))
     = Some ["16"].
Proof. repeat split; vm_compute; reflexivity. Qed.

(* ================================================================== *)
(** ** Context groups and the entry of a context *)

Lemma is_context_group_In (groups : list string) (kw : string) :
  is_context_group groups kw = true <-> In kw groups.
Proof.
  unfold is_context_group. rewrite existsb_exists. split.
  - intros [k [Hin Heq]]. apply String.eqb_eq in Heq. now subst.
  - intros Hin. exists kw. split; [exact Hin | apply String.eqb_refl].
Qed.

Lemma registered_groups (keywords : list string) :
  forall (init : list string) (kw : string),
    In kw (fold_left ecli_register_context_group keywords init)
    <-> In kw keywords \/ In kw init.
Proof.
  induction keywords as [|k keywords IH]; intros init kw; simpl.
  - tauto.
  - rewrite IH. unfold ecli_register_context_group. simpl. tauto.
Qed.

Lemma ecli_update_prompt_use_yaml (cli : eecli_ctx_t) :
  use_yaml (ecli_update_prompt cli) = use_yaml cli.
Proof.
  unfold ecli_update_prompt. now destruct (context_depth cli =? 0)%Z.
Qed.

Lemma dispatch_and_prompt_shape {A} (grammar : ec_node A) (cli : eecli_ctx_t)
    (app : A) (parse : ec_pnode grammar) :
  exists app' evs0,
    dispatch_and_prompt grammar cli app parse
    = (cli, app', (evs0 ++ [ecli_prompt cli])%list).
Proof.
  unfold dispatch_and_prompt.
  destruct (run_callback grammar cli app parse) as [[ret app'] evs].
  eexists. eexists. rewrite app_assoc. reflexivity.
Qed.

(** What one input line can do to the session. *)
Lemma process_line_shape {A} (grammar : ec_node A)
    (g_context_groups : list string) (cli cli' : eecli_ctx_t) (app app' : A)
    (line : string) (evs : list event) :
  process_line grammar g_context_groups cli app line = Some (cli', app', evs) ->
  (exists evs0, evs = (evs0 ++ [ecli_prompt cli'])%list)
  /\ config cli' = config cli
  /\ use_yaml cli' = use_yaml cli
  /\ (context_stack cli' = context_stack cli
      \/ context_stack cli' = []
      \/ context_stack cli' = removelast (context_stack cli)
      \/ context_stack cli'
         = (context_stack cli ++ [trim_tail line_tail (skip_blanks line)])%list).
Proof.
  unfold process_line.
  set (l := trim_tail line_tail (skip_blanks line)).
  destruct (negb (nonempty l)).
  { intros H. inversion H; subst. split; [now exists []|]. tauto. }
  destruct (l =? "end").
  { intros H. inversion H; subst. split; [now exists []|].
    unfold ecli_exit_all_contexts.
    destruct (ecli_update_prompt_stack (set_stack cli [] 0%Z)) as [Hs [_ Hc]].
    rewrite Hs, Hc, ecli_update_prompt_use_yaml. simpl. tauto. }
  destruct ((l =? "exit") && (0 <? context_depth cli)%Z).
  { unfold ecli_exit_context.
    destruct (context_depth cli =? 0)%Z.
    - intros H. inversion H; subst.
      split; [exists [ecli_write ("Already at top level" ++ nl)];
              reflexivity|]. tauto.
    - intros H. inversion H; subst. split; [now exists []|].
      match goal with
      | |- context [ecli_update_prompt ?c] =>
          destruct (ecli_update_prompt_stack c) as [Hs [_ Hc]];
          rewrite Hs, Hc, ecli_update_prompt_use_yaml
      end.
      destruct (context_stack cli) eqn:Hst; simpl; [tauto|].
      repeat split; auto. }
  unfold resolve_line.
  destruct (ec_parse grammar (ecli_build_full_command cli l 512)) as [parse|].
  2:{ intros H. inversion H; subst.
      split; [exists [ecli_err ("Parse error" ++ nl)]; reflexivity|]. tauto. }
  destruct (negb (ec_pnode_matches grammar parse)).
  2:{ destruct (dispatch_and_prompt_shape grammar cli app parse)
        as [a [e He]].
      rewrite He. intros H. inversion H; subst.
      split; [now exists e|]. tauto. }
  destruct (expanded_match grammar (ecli_build_full_command cli l 512))
    as [exp_parse|].
  { destruct (dispatch_and_prompt_shape grammar cli app exp_parse)
      as [a [e He]].
    rewrite He. intros H. inversion H; subst.
    split; [now exists e|]. tauto. }
  destruct (no_char " " l && is_context_group g_context_groups l).
  2:{ intros H. inversion H; subst.
      split; [exists [ecli_err ("Unknown command: " ++ l ++ nl)]; reflexivity|].
      tauto. }
  unfold ecli_enter_context.
  destruct (context_depth cli =? INT_MAX)%Z; [discriminate|].
  intros H. inversion H; subst. split; [now exists []|].
  match goal with
  | |- context [ecli_update_prompt ?c] =>
      destruct (ecli_update_prompt_stack c) as [Hs [_ Hc]];
      rewrite Hs, Hc, ecli_update_prompt_use_yaml
  end.
  simpl. tauto.
Qed.

Lemma process_line_defined {A} (grammar : ec_node A)
    (g_context_groups : list string) (cli : eecli_ctx_t) (app : A)
    (line : string) :
  context_depth cli <> INT_MAX ->
  exists r, process_line grammar g_context_groups cli app line = Some r.
Proof.
  intros Hd. apply Z.eqb_neq in Hd.
  unfold process_line, resolve_line, ecli_enter_context. rewrite Hd.
  repeat match goal with
         | |- context [if ?b then _ else _] => destruct b
         | |- context [match ?x with _ => _ end] => destruct x
         end; eauto.
Qed.

Lemma process_line_depth {A} (grammar : ec_node A)
    (g_context_groups : list string) (cli cli' : eecli_ctx_t) (app app' : A)
    (line : string) (evs : list event) :
  ctx_inv cli ->
  process_line grammar g_context_groups cli app line = Some (cli', app', evs) ->
  (0 <= context_depth cli' <= context_depth cli + 1)%Z.
Proof.
  intros Hinv H.
  pose proof (process_line_inv _ _ _ _ _ _ _ _ Hinv H) as [Hd' _].
  destruct Hinv as [Hd _].
  apply process_line_shape in H. destruct H as [_ [_ [_ Hst]]].
  rewrite Hd', Hd.
  destruct Hst as [Hs | [Hs | [Hs | Hs]]]; rewrite Hs.
  - lia.
  - simpl. lia.
  - destruct (context_stack cli) as [|x s] eqn:E; [simpl; lia|].
    rewrite length_removelast by discriminate. lia.
  - rewrite length_app. simpl. lia.
Qed.

(** X1.  A keyword registered with [ecli_register_context_group], typed
    alone on a line that the grammar parses without a complete match and
    that no expansion completes, opens a context: the keyword is pushed,
    the depth grows by one, the prompt shows the new path, no handler runs
    and the new prompt is the only thing written.  The same line with a
    keyword that was never registered is an unknown command and leaves the
    session as it was. *)
Theorem registered_keyword_enters_context :
  forall (A : Type) (grammar : ec_node A) (keywords : list string)
         (cli : eecli_ctx_t) (app : A) (line kw : string)
         (parse : ec_pnode grammar),
    ctx_inv cli ->
    (context_depth cli < INT_MAX)%Z ->
    trim_tail line_tail (skip_blanks line) = kw ->
    nonempty kw = true ->
    kw <> "end" ->
    (kw = "exit" -> context_depth cli = 0%Z) ->
    no_char " " kw = true ->
    ec_parse grammar (ecli_build_full_command cli kw 512) = Some parse ->
    ec_pnode_matches grammar parse = false ->
    expanded_match grammar (ecli_build_full_command cli kw 512) = None ->
    let groups := fold_left ecli_register_context_group keywords [] in
    (In kw keywords ->
     exists cli',
       process_line grammar groups cli app line
       = Some (cli', app, [ecli_prompt cli'])
       /\ context_stack cli' = (context_stack cli ++ [kw])%list
       /\ context_depth cli' = (context_depth cli + 1)%Z
       /\ current_prompt cli'
          = prompt_of (prompt (config cli)) (context_stack cli ++ [kw])
       /\ config cli' = config cli)
    /\ (~ In kw keywords ->
        process_line grammar groups cli app line
        = Some (cli, app,
                [ecli_err ("Unknown command: " ++ kw ++ nl); ecli_prompt cli])).
Proof.
  intros A grammar keywords cli app line kw parse Hinv Hmax Htrim Hne Hend
         Hexit Hsp Hparse Hmatch Hexp groups.
  assert (Hgrp : is_context_group groups kw = true <-> In kw keywords).
  { rewrite is_context_group_In. unfold groups. rewrite registered_groups.
    simpl. tauto. }
  assert (Hstart :
    process_line grammar groups cli app line
    = if is_context_group groups kw
      then match ecli_enter_context cli kw with
           | None => None
           | Some (_, cli') => Some (cli', app, [ecli_prompt cli'])
           end
      else Some (cli, app,
                 [ecli_err ("Unknown command: " ++ kw ++ nl);
                  ecli_prompt cli])).
  { unfold process_line. rewrite Htrim, Hne. simpl.
    destruct (kw =? "end") eqn:E1.
    { apply String.eqb_eq in E1. contradiction. }
    destruct (kw =? "exit") eqn:E2.
    { apply String.eqb_eq in E2. rewrite (Hexit E2). simpl.
      unfold resolve_line. rewrite Hparse, Hmatch, Hexp, Hsp. reflexivity. }
    simpl. unfold resolve_line. rewrite Hparse, Hmatch, Hexp, Hsp.
    reflexivity. }
  split.
  - intros Hin. apply Hgrp in Hin. rewrite Hstart, Hin.
    unfold ecli_enter_context.
    assert (Hneq : (context_depth cli =? INT_MAX)%Z = false)
      by (apply Z.eqb_neq; lia).
    rewrite Hneq.
    set (c1 := set_stack cli (context_stack cli ++ [kw])
                         (context_depth cli + 1)).
    assert (Hd1 : context_depth c1
                  = Z.of_nat (List.length (context_stack c1))).
    { unfold c1. simpl. rewrite length_app. simpl.
      destruct Hinv as [Hd _]. rewrite Hd. lia. }
    exists (ecli_update_prompt c1). split; [reflexivity|].
    rewrite (ecli_update_prompt_eq c1 Hd1). simpl. auto.
  - intros Hnin. rewrite Hstart.
    destruct (is_context_group groups kw) eqn:E; [|reflexivity].
    exfalso. apply Hnin, Hgrp. reflexivity.
Qed.

Lemma registered_keyword_enters_context_witness :
  exists cli',
    process_line (demo_grammar true)
      (fold_left ecli_register_context_group ["vhost"; "pool"] [])
      (ecli_init (mk_config "cli> ") false) tt
      ("  vhost" ++ String CR nl)
    = Some (cli', tt, [Write "cli(vhost)> "])
    /\ context_stack cli' = ["vhost"]
    /\ context_depth cli' = 1%Z.
Proof.
  destruct (registered_keyword_enters_context unit (demo_grammar true)
              ["vhost"; "pool"] (ecli_init (mk_config "cli> ") false) tt
              ("  vhost" ++ String CR nl) "vhost" "vhost")
    as [Henter _].
  - apply ecli_init_inv.
  - reflexivity.
  - reflexivity.
  - reflexivity.
  - discriminate.
  - discriminate.
  - reflexivity.
  - reflexivity.
  - reflexivity.
  - reflexivity.
  - destruct Henter as [cli' [Hrun [Hst [Hd [Hp _]]]]].
    + left. reflexivity.
    + exists cli'. split; [|split].
      * rewrite Hrun. unfold ecli_prompt. rewrite Hp. reflexivity.
      * exact Hst.
      * exact Hd.
Defined.

(** X2.  Whatever a line holds, when [process_line] returns the last
    thing written is the prompt of the session as the line left it.  The
    configuration and the dispatch mode are untouched, the invariant of
    the context stack is kept, and the stack is unchanged, emptied, popped
    once, or extended by the trimmed line. *)
Theorem line_ends_with_prompt :
  forall (A : Type) (grammar : ec_node A) (g_context_groups : list string)
         (cli cli' : eecli_ctx_t) (app app' : A) (line : string)
         (evs : list event),
    process_line grammar g_context_groups cli app line
    = Some (cli', app', evs) ->
    (exists evs0, evs = (evs0 ++ [ecli_prompt cli'])%list)
    /\ config cli' = config cli
    /\ use_yaml cli' = use_yaml cli
    /\ (context_stack cli' = context_stack cli
        \/ context_stack cli' = []
        \/ context_stack cli' = removelast (context_stack cli)
        \/ context_stack cli'
           = (context_stack cli
                ++ [trim_tail line_tail (skip_blanks line)])%list)
    /\ (ctx_inv cli -> ctx_inv cli').
Proof.
  intros A grammar groups cli cli' app app' line evs H.
  destruct (process_line_shape _ _ _ _ _ _ _ _ H) as [H1 [H2 [H3 H4]]].
  split; [exact H1|]. split; [exact H2|]. split; [exact H3|].
  split; [exact H4|].
  intros Hinv. exact (process_line_inv _ _ _ _ _ _ _ _ Hinv H).
Qed.

Lemma line_ends_with_prompt_witness :
  exists evs0,
    [ecli_output ("ok" ++ nl); Write "cli> "]
    = (evs0 ++ [ecli_prompt (ecli_init (mk_config "cli> ") false)])%list.
Proof.
  pose (cli := ecli_init (mk_config "cli> ") false).
  destruct (line_ends_with_prompt unit (demo_grammar true) [] cli cli tt tt
              "show" [ecli_output ("ok" ++ nl); Write "cli> "])
    as [Hlast _].
  - reflexivity.
  - exact Hlast.
Defined.

(* ================================================================== *)
(** ** The loops over input lines *)

(** X3.  A batch of lines read from the client, whatever the lines are and
    whatever the handlers do, is processed to the end as long as the depth
    counter cannot pass INT_MAX; the session then still has its counter
    equal to the height of the stack and its prompt up to date, its
    configuration is the one it started with, every line was answered by
    at least one buffer, and the last buffer written is the prompt. *)
Theorem tcp_read_keeps_invariant :
  forall (A : Type) (grammar : ec_node A) (g_context_groups : list string)
         (input : list string) (cli : eecli_ctx_t) (app : A),
    ctx_inv cli ->
    (context_depth cli + Z.of_nat (List.length input) <= INT_MAX)%Z ->
    exists cli' app' evs,
      tcp_read_cb grammar g_context_groups cli app input
      = Some (cli', app', evs)
      /\ ctx_inv cli'
      /\ config cli' = config cli
      /\ (context_depth cli'
          <= context_depth cli + Z.of_nat (List.length input))%Z
      /\ List.length input <= List.length evs
      /\ (input <> [] ->
          exists evs0, evs = (evs0 ++ [ecli_prompt cli'])%list).
Proof.
  intros A grammar groups input.
  induction input as [|line rest IH]; intros cli app Hinv Hmax.
  - exists cli, app, []. simpl.
    split; [reflexivity|]. split; [exact Hinv|]. split; [reflexivity|].
    split; [lia|]. split; [lia|]. intros H. contradiction.
  - simpl tcp_read_cb.
    assert (Hlen : Z.of_nat (List.length (line :: rest))
                   = (Z.of_nat (List.length rest) + 1)%Z)
      by (simpl List.length; lia).
    rewrite Hlen in *.
    destruct (process_line_defined grammar groups cli app line)
      as [[[cli1 app1] evs1] H1]; [lia|].
    rewrite H1.
    pose proof (process_line_inv _ _ _ _ _ _ _ _ Hinv H1) as Hinv1.
    pose proof (process_line_depth _ _ _ _ _ _ _ _ Hinv H1) as Hd1.
    destruct (process_line_shape _ _ _ _ _ _ _ _ H1)
      as [[e1 He1] [Hc1 _]].
    destruct (IH cli1 app1 Hinv1) as [cli2 [app2 [evs2 [H2 [Hinv2 [Hc2
                                      [Hd2 [Hn2 Hlast2]]]]]]]]; [lia|].
    rewrite H2. exists cli2, app2, (evs1 ++ evs2)%list.
    split; [reflexivity|]. split; [exact Hinv2|].
    split; [congruence|]. split; [lia|]. split.
    + rewrite length_app. subst evs1. rewrite length_app. simpl. lia.
    + intros _. destruct rest as [|l2 rest'].
      * simpl in H2. inversion H2; subst. exists e1.
        now rewrite app_nil_r.
      * destruct Hlast2 as [e2 He2]; [discriminate|].
        exists (evs1 ++ e2)%list. rewrite He2. now rewrite app_assoc.
Qed.

Lemma tcp_read_keeps_invariant_witness :
  exists cli' app' evs,
    tcp_read_cb (demo_grammar true) ["vhost"]
      (ecli_init (mk_config "cli> ") false) tt ["vhost"; "sh"; "end"]
    = Some (cli', app', evs)
    /\ ctx_inv cli'.
Proof.
  destruct (tcp_read_keeps_invariant unit (demo_grammar true) ["vhost"]
              ["vhost"; "sh"; "end"] (ecli_init (mk_config "cli> ") false) tt)
    as [cli' [app' [evs [Hrun [Hinv _]]]]].
  - apply ecli_init_inv.
  - vm_compute. discriminate.
  - exists cli', app', evs. split; assumption.
Defined.

Lemma fgets_aux_app (size : nat) (s more : string) :
  forall (room : nat) (cur : string),
    fgets_aux size room cur (s ++ nl ++ more)
    = (fgets_aux size room cur (s ++ nl) ++ fgets_all size more)%list.
Proof.
  induction s as [|c s IH]; intros room cur.
  - reflexivity.
  - simpl. destruct (Ascii.eqb c LF || (room <=? 1)%nat).
    + now rewrite IH.
    + apply IH.
Qed.

Lemma stdin_loop_stops {A} (running : A -> bool) (grammar : ec_node A)
    (g_context_groups : list string) (before after : list string) :
  forall (cli cli' : eecli_ctx_t) (app app' : A) (evs : list event),
    stdin_loop running grammar g_context_groups cli app before
    = Some (cli', app', evs) ->
    running app' = false ->
    stdin_loop running grammar g_context_groups cli app (before ++ after)
    = Some (cli', app', evs).
Proof.
  induction before as [|line rest IH]; intros cli cli' app app' evs H Hoff.
  - simpl in H. inversion H; subst. destruct after as [|l after]; simpl.
    + reflexivity.
    + now rewrite Hoff.
  - simpl in *. destruct (negb (running app)); [exact H|].
    destruct (process_line grammar g_context_groups cli app line)
      as [[[cli1 app1] evs1]|]; [|discriminate].
    destruct (stdin_loop running grammar g_context_groups cli1 app1 rest)
      as [[[cli2 app2] evs2]|] eqn:E; [|discriminate].
    inversion H; subst.
    now rewrite (IH _ _ _ _ _ E Hoff).
Qed.

Lemma stdin_loop_inv {A} (running : A -> bool) (grammar : ec_node A)
    (g_context_groups : list string) (buffers : list string) :
  forall (cli cli' : eecli_ctx_t) (app app' : A) (evs : list event),
    ctx_inv cli ->
    stdin_loop running grammar g_context_groups cli app buffers
    = Some (cli', app', evs) ->
    ctx_inv cli'.
Proof.
  induction buffers as [|line rest IH]; intros cli cli' app app' evs Hinv H.
  - simpl in H. inversion H; subst. exact Hinv.
  - simpl in H. destruct (negb (running app)).
    { inversion H; subst. exact Hinv. }
    destruct (process_line grammar g_context_groups cli app line)
      as [[[cli1 app1] evs1]|] eqn:E1; [|discriminate].
    destruct (stdin_loop running grammar g_context_groups cli1 app1 rest)
      as [[[cli2 app2] evs2]|] eqn:E2; [|discriminate].
    inversion H; subst.
    exact (IH _ _ _ _ _ (process_line_inv _ _ _ _ _ _ _ _ Hinv E1) E2).
Qed.

(** X4.  Once a handler has cleared the running flag the standard-input
    loop of [ecli_run] reads nothing more: when the run over a text that
    ends with a newline leaves the flag cleared, the run over that text
    followed by any further input is the same run, with the same session,
    application state and output.  A run starts by writing the prompt and
    keeps the invariant of the context stack. *)
Theorem run_stops_at_cleared_flag :
  forall (A : Type) (running : A -> bool) (grammar : ec_node A)
         (g_context_groups : list string) (cli cli' : eecli_ctx_t)
         (app app' : A) (text : string) (status : Z) (evs : list event),
    ecli_run running grammar g_context_groups (Some cli) app (text ++ nl)
    = Some (status, Some cli', app', evs) ->
    running app' = false ->
    (forall more : string,
        ecli_run running grammar g_context_groups (Some cli) app
                 (text ++ nl ++ more)
        = Some (status, Some cli', app', evs))
    /\ status = 0%Z
    /\ (exists evs', evs = ecli_prompt cli :: evs')
    /\ (ctx_inv cli -> ctx_inv cli').
Proof.
  intros A running grammar groups cli cli' app app' text status evs H Hoff.
  unfold ecli_run in *.
  destruct (stdin_loop running grammar groups cli app
                       (fgets_all 1024 (text ++ nl)))
    as [[[cli1 app1] evs1]|] eqn:E; [|discriminate].
  inversion H; subst. split; [|split; [|split]].
  - intros more. unfold fgets_all in *. rewrite fgets_aux_app.
    now rewrite (stdin_loop_stops _ _ _ _ _ _ _ _ _ _ E Hoff).
  - reflexivity.
  - now exists evs1.
  - intros Hinv. exact (stdin_loop_inv _ _ _ _ _ _ _ _ _ Hinv E).
Qed.

Lemma run_stops_at_cleared_flag_witness :
  let cli := ecli_init (mk_config "cli> ") false in
  ecli_run (fun flag => flag) quit_grammar [] (Some cli) true
           ("quit" ++ nl ++ "quit" ++ nl)
  = Some (0%Z, Some cli, false,
          [Write "cli> "; ecli_output ("Goodbye!" ++ nl); Write "cli> "]).
Proof.
  intros cli.
  destruct (run_stops_at_cleared_flag bool (fun flag => flag) quit_grammar []
              cli cli true false "quit" 0%Z
              [Write "cli> "; ecli_output ("Goodbye!" ++ nl); Write "cli> "])
    as [Hmore _].
  - reflexivity.
  - reflexivity.
  - exact (Hmore ("quit" ++ nl)).
Defined.

(* ================================================================== *)
(** ** Context navigation *)

(** X5.  Leaving a context undoes entering it: from a session whose
    counter and prompt agree with its stack, and below INT_MAX,
    [ecli_enter_context] followed by [ecli_exit_context] gives back the
    very same session, both calls return 0 and nothing is written.  And
    [ecli_exit_all_contexts] brings any session, whatever its state, to
    the session that [ecli_init] builds from the same configuration. *)
Theorem enter_then_exit_restores :
  forall (cli : eecli_ctx_t) (context : string),
    ctx_inv cli ->
    (context_depth cli < INT_MAX)%Z ->
    (exists cli1,
        ecli_enter_context cli context = Some (0%Z, cli1)
        /\ ecli_exit_context cli1 = (0%Z, cli, []))
    /\ ecli_exit_all_contexts cli = ecli_init (config cli) (use_yaml cli).
Proof.
  intros cli context [Hd Hp] Hmax. split.
  - unfold ecli_enter_context.
    assert (Hneq : (context_depth cli =? INT_MAX)%Z = false)
      by (apply Z.eqb_neq; lia).
    rewrite Hneq. eexists. split; [reflexivity|].
    set (c1 := set_stack cli (context_stack cli ++ [context])
                         (context_depth cli + 1)).
    assert (Hd1 : context_depth c1
                  = Z.of_nat (List.length (context_stack c1))).
    { unfold c1. simpl. rewrite length_app. simpl. lia. }
    rewrite (ecli_update_prompt_eq c1 Hd1).
    unfold ecli_exit_context. simpl context_depth. simpl context_stack.
    assert (Hnz : (context_depth cli + 1 =? 0)%Z = false)
      by (apply Z.eqb_neq; lia).
    rewrite Hnz.
    destruct (context_stack cli ++ [context])%list eqn:E.
    { destruct (context_stack cli); discriminate. }
    rewrite <- E. rewrite removelast_last.
    match goal with
    | |- (_, ecli_update_prompt ?c, _) = _ =>
        assert (Hd2 : context_depth c
                      = Z.of_nat (List.length (context_stack c)))
          by (simpl; lia);
        rewrite (ecli_update_prompt_eq c Hd2)
    end.
    simpl. unfold set_prompt. simpl.
    destruct cli as [cfg yaml st d p]. simpl in *. subst p.
    replace (d + 1 - 1)%Z with d by lia. reflexivity.
  - unfold ecli_exit_all_contexts, ecli_init, ecli_update_prompt. reflexivity.
Qed.

Lemma enter_then_exit_restores_witness :
  let cli := mk_ctx (mk_config "cli> ") false ["vhost"] 1 "cli(vhost)> " in
  (exists cli1,
      ecli_enter_context cli "www" = Some (0%Z, cli1)
      /\ ecli_exit_context cli1 = (0%Z, cli, []))
  /\ ecli_exit_all_contexts cli = ecli_init (mk_config "cli> ") false.
Proof.
  intros cli.
  apply (enter_then_exit_restores cli "www").
  - split; reflexivity.
  - reflexivity.
Defined.

(** X6.  A line of spaces and tabs only is answered by the prompt alone:
    no parse, no handler, no change.  A line that holds a single byte after
    its leading blanks is never taken for empty, since the trimming loop
    stops at the first byte: the newline that [fgets] returns for an empty
    line of the standard input is resolved as a command. *)
Theorem blank_line_only_reprompts :
  forall (A : Type) (grammar : ec_node A) (g_context_groups : list string)
         (cli : eecli_ctx_t) (app : A) (line : string),
    (skip_blanks line = "" ->
     process_line grammar g_context_groups cli app line
     = Some (cli, app, [ecli_prompt cli]))
    /\ (forall c : ascii,
           skip_blanks line = String c "" ->
           process_line grammar g_context_groups cli app line
           = resolve_line grammar g_context_groups cli app (String c "")).
Proof.
  intros A grammar groups cli app line. split.
  - intros H. unfold process_line. now rewrite H.
  - intros c H. unfold process_line. rewrite H.
    change (trim_tail line_tail (String c "")) with (String c "").
    simpl. destruct (Ascii.eqb c "e"); reflexivity.
Qed.

Lemma blank_line_only_reprompts_witness :
  let cli := ecli_init (mk_config "cli> ") false in
  process_line (demo_grammar true) [] cli tt (String " " (String TAB " "))
  = Some (cli, tt, [Write "cli> "])
  /\ process_line (demo_grammar true) [] cli tt nl
     = Some (cli, tt,
             [ecli_err ("Unknown command: " ++ nl ++ nl); Write "cli> "]).
Proof.
  intros cli.
  destruct (blank_line_only_reprompts unit (demo_grammar true) [] cli tt
              (String " " (String TAB " "))) as [Hblank _].
  destruct (blank_line_only_reprompts unit (demo_grammar true) [] cli tt nl)
    as [_ Hnl].
  split.
  - rewrite Hblank; reflexivity.
  - rewrite (Hnl LF); reflexivity.
Defined.

(* ================================================================== *)
(** ** The registries of callbacks and of output formats *)

Lemma lookup_callback_in_first {H} (entries : list (string * H))
    (n : string) :
  lookup_callback_in entries (Some n) = first_named entries n.
Proof.
  induction entries as [|[k v] rest IH]; simpl; [reflexivity|].
  now rewrite IH.
Qed.

Lemma ecli_yaml_get_output_fmt_first (entries : list (string * string))
    (n : string) :
  ecli_yaml_get_output_fmt entries (Some n) = first_named entries n.
Proof.
  induction entries as [|[k v] rest IH]; simpl; [reflexivity|].
  now rewrite IH.
Qed.

Lemma first_named_none {V} (entries : list (string * V)) (key : string) :
  first_named entries key = None <-> ~ In key (map fst entries).
Proof.
  induction entries as [|[k v] rest IH]; simpl; [tauto|].
  destruct (k =? key) eqn:E.
  - apply String.eqb_eq in E. split; [discriminate | tauto].
  - apply String.eqb_neq in E. rewrite IH. tauto.
Qed.

Lemma replace_entry_none {V} (entries : list (string * V)) (key : string)
    (v : V) :
  replace_entry entries key v = None <-> ~ In key (map fst entries).
Proof.
  induction entries as [|[k old] rest IH]; simpl; [tauto|].
  destruct (k =? key) eqn:E.
  - apply String.eqb_eq in E. split; [discriminate | tauto].
  - apply String.eqb_neq in E.
    destruct (replace_entry rest key v).
    + split; [discriminate|]. intros Hn. exfalso.
      assert (Hr : ~ In key (map fst rest)) by tauto.
      apply IH in Hr. discriminate.
    + split; [|reflexivity]. intros _.
      assert (Hr : ~ In key (map fst rest)) by (apply IH; reflexivity).
      tauto.
Qed.

Lemma replace_entry_some {V} (entries : list (string * V)) (key : string)
    (v : V) :
  forall entries',
    replace_entry entries key v = Some entries' ->
    map fst entries' = map fst entries
    /\ forall n, first_named entries' n
                 = if n =? key then Some v else first_named entries n.
Proof.
  induction entries as [|[k old] rest IH]; simpl; intros entries' H;
    [discriminate|].
  destruct (k =? key) eqn:E.
  - apply String.eqb_eq in E. subst k. inversion H; subst. simpl.
    split; [reflexivity|]. intros n. rewrite (String.eqb_sym n key).
    now destruct (key =? n).
  - destruct (replace_entry rest key v) as [rest'|]; [|discriminate].
    inversion H; subst. destruct (IH rest' eq_refl) as [Hn Hf]. simpl.
    split; [now rewrite Hn|]. intros n. rewrite Hf.
    destruct (k =? n) eqn:E2; [|reflexivity].
    apply String.eqb_eq in E2. subst n. now rewrite E.
Qed.

(** The registries after the [if (!initialized)] that opens a
    registration. *)
Lemma initialized_or_fresh {H} (st : yaml_state H) :
  (if initialized st then st else snd (ecli_yaml_init st))
  = if initialized st then st else mk_yaml true [] 0 [].
Proof.
  unfold ecli_yaml_init. now destruct (initialized st).
Qed.

(** X7.  The callback registry is a map from names to callbacks in which
    the last registration of a name wins: after [ecli_yaml_register] of a
    name and a callback, which returns 0, the lookup of that name gives
    that callback and the lookup of every other name is what it was (or
    nothing, when the registration was the first use of the module).  A
    NULL name or a NULL callback is refused with -1 and adds nothing, and
    the lookup of a NULL name finds nothing. *)
Theorem callback_registry_lookup :
  forall (H : Type) (st : yaml_state H) (name : option string)
         (callback : option H),
    let before := if initialized st then cb_registry st else [] in
    let r := ecli_yaml_register st name callback in
    initialized (snd r) = true
    /\ lookup_callback_in (cb_registry (snd r)) None = None
    /\ match name, callback with
       | Some n, Some cb =>
           fst r = 0%Z
           /\ forall n' : string,
                lookup_callback_in (cb_registry (snd r)) (Some n')
                = if n' =? n then Some cb
                  else lookup_callback_in before (Some n')
       | _, _ => fst r = (-1)%Z /\ cb_registry (snd r) = before
       end.
Proof.
  intros H st name callback before r. unfold r, before, ecli_yaml_register.
  rewrite initialized_or_fresh.
  set (st0 := if initialized st then st else mk_yaml true [] 0 []).
  assert (Hi : initialized st0 = true)
    by (unfold st0; destruct (initialized st) eqn:E; [exact E | reflexivity]).
  assert (Hb : (if initialized st then cb_registry st else [])
               = cb_registry st0)
    by (unfold st0; now destruct (initialized st)).
  rewrite Hb.
  destruct name as [n|]; [destruct callback as [cb|]|];
    try (simpl; split; [exact Hi|]; split; [now destruct (cb_registry st0)|];
         split; reflexivity).
  destruct (replace_entry (cb_registry st0) n cb) as [entries|] eqn:E; simpl.
  - split; [exact Hi|]. split; [now destruct entries|].
    split; [reflexivity|]. intros n'.
    rewrite !lookup_callback_in_first.
    now destruct (replace_entry_some _ _ _ _ E) as [_ Hf].
  - split; [exact Hi|]. split; [reflexivity|]. split; [reflexivity|].
    intros n'. rewrite (String.eqb_sym n' n). reflexivity.
Qed.

(** X8.  The registries of [ecli_yaml.c] never hold a name twice, and
    [cb_count] is the number of registered callbacks: both hold as the
    program starts and are kept by every registration of a callback or of
    an output format, whatever its arguments, by [ecli_yaml_init] and by
    [ecli_yaml_cleanup]. *)
Theorem yaml_registries_keep_names_unique :
  forall (H : Type) (st : yaml_state H),
    yaml_inv st ->
    (forall (name : option string) (callback : option H),
        yaml_inv (snd (ecli_yaml_register st name callback)))
    /\ (forall callback_name fmt : option string,
           yaml_inv (snd (ecli_yaml_register_output_fmt st callback_name fmt)))
    /\ yaml_inv (snd (ecli_yaml_init st))
    /\ yaml_inv (ecli_yaml_cleanup st)
    /\ yaml_inv (@yaml_start H).
Proof.
  intros H st Hinv.
  assert (Hfresh : forall b, yaml_inv (@mk_yaml H b [] 0 [])).
  { intros b. repeat split; simpl; constructor. }
  assert (Hinv0 : yaml_inv (if initialized st then st
                            else mk_yaml true [] 0 [])).
  { destruct (initialized st); [exact Hinv | apply Hfresh]. }
  split; [|split; [|split; [|split]]].
  - intros name callback. unfold ecli_yaml_register.
    rewrite initialized_or_fresh.
    set (st0 := if initialized st then st else mk_yaml true [] 0 []) in *.
    destruct Hinv0 as [Hcb [Hfmt Hcount]].
    destruct name as [n|]; [destruct callback as [cb|]|];
      try (simpl; repeat split; assumption).
    destruct (replace_entry (cb_registry st0) n cb) as [entries|] eqn:E; simpl.
    + destruct (replace_entry_some _ _ _ _ E) as [Hn _].
      unfold yaml_inv, unique_names. simpl. rewrite Hn.
      split; [exact Hcb|]. split; [exact Hfmt|].
      rewrite Hcount. f_equal. f_equal.
      rewrite <- (length_map fst entries), Hn. now rewrite length_map.
    + apply replace_entry_none in E.
      unfold yaml_inv, unique_names. simpl.
      split; [now constructor|]. split; [exact Hfmt|].
      rewrite Hcount. rewrite Z.add_mod_idemp_l by (vm_compute; discriminate).
      f_equal. lia.
  - intros callback_name fmt. unfold ecli_yaml_register_output_fmt.
    rewrite initialized_or_fresh.
    set (st0 := if initialized st then st else mk_yaml true [] 0 []) in *.
    destruct Hinv0 as [Hcb [Hfmt Hcount]].
    destruct callback_name as [n|]; [destruct fmt as [f|]|];
      try (simpl; repeat split; assumption).
    destruct (replace_entry (output_fmt_registry st0) n f) as [entries|] eqn:E;
      simpl.
    + destruct (replace_entry_some _ _ _ _ E) as [Hn _].
      unfold yaml_inv, unique_names. simpl. rewrite Hn.
      repeat split; assumption.
    + apply replace_entry_none in E.
      unfold yaml_inv, unique_names. simpl.
      split; [exact Hcb|]. split; [now constructor | exact Hcount].
  - unfold ecli_yaml_init. destruct (initialized st); simpl;
      [exact Hinv | apply Hfresh].
  - apply Hfresh.
  - apply Hfresh.
Qed.

Lemma yaml_registries_keep_names_unique_witness :
  yaml_inv
    (snd (ecli_yaml_register
            (snd (ecli_yaml_register yaml_start (Some "show_run") (Some 1)))
            (Some "show_run") (Some 2))).
Proof.
  destruct (yaml_registries_keep_names_unique nat
              (snd (ecli_yaml_register yaml_start (Some "show_run") (Some 1))))
    as [Hreg _].
  - destruct (yaml_registries_keep_names_unique nat yaml_start) as [Hreg _].
    + repeat split; constructor.
    + apply Hreg.
  - apply Hreg.
Defined.

(** X9.  A format registered for a callback name overrides the default
    format of the binding of that name and of no other: after
    [ecli_yaml_register_output_fmt], which returns 0, [ecli_out_get_fmt]
    gives the registered format for that name, whatever the default, and
    for any other name what it gave before.  A second registration of the
    name replaces the first, a binding without a name always gets its
    default, and a NULL name or format is refused with -1. *)
Theorem output_format_override :
  forall (H : Type) (st : yaml_state H) (callback_name fmt : option string),
    let before := if initialized st then output_fmt_registry st else [] in
    let r := ecli_yaml_register_output_fmt st callback_name fmt in
    (forall default_fmt : option string,
        ecli_out_get_fmt (output_fmt_registry (snd r)) None default_fmt
        = default_fmt)
    /\ match callback_name, fmt with
       | Some n, Some f =>
           fst r = 0%Z
           /\ forall (n' : string) (default_fmt : option string),
                ecli_out_get_fmt (output_fmt_registry (snd r)) (Some n')
                                 default_fmt
                = if n' =? n then Some f
                  else ecli_out_get_fmt before (Some n') default_fmt
       | _, _ => fst r = (-1)%Z /\ output_fmt_registry (snd r) = before
       end.
Proof.
  intros H st callback_name fmt before r.
  unfold r, before, ecli_yaml_register_output_fmt.
  rewrite initialized_or_fresh.
  set (st0 := if initialized st then st else mk_yaml true [] 0 []).
  assert (Hb : (if initialized st then output_fmt_registry st else [])
               = output_fmt_registry st0)
    by (unfold st0; now destruct (initialized st)).
  rewrite Hb.
  assert (Hnone : forall reg d, ecli_out_get_fmt reg None d = d).
  { intros reg d. unfold ecli_out_get_fmt. now destruct reg. }
  destruct callback_name as [n|]; [destruct fmt as [f|]|];
    try (simpl; split; [intros d; apply Hnone|]; split; reflexivity).
  destruct (replace_entry (output_fmt_registry st0) n f) as [entries|] eqn:E;
    simpl.
  - split; [intros d; apply Hnone|]. split; [reflexivity|].
    intros n' d. unfold ecli_out_get_fmt.
    rewrite !ecli_yaml_get_output_fmt_first.
    destruct (replace_entry_some _ _ _ _ E) as [_ Hf]. rewrite Hf.
    now destruct (n' =? n).
  - split; [intros d; apply Hnone|]. split; [reflexivity|].
    intros n' d. unfold ecli_out_get_fmt. simpl.
    rewrite (String.eqb_sym n' n). now destruct (n =? n').
Qed.

(* ================================================================== *)
(** ** Placeholder substitution: literal text and room in the buffer *)

Lemma strchr_lt (s : string) (c : ascii) :
  forall k, strchr s c = Some k -> k < length s.
Proof.
  induction s as [|d s IH]; simpl; intros k H; [discriminate|].
  destruct (Ascii.eqb d c).
  - inversion H. lia.
  - destruct (strchr s c) as [j|]; [|discriminate].
    inversion H. specialize (IH j eq_refl). lia.
Qed.

Lemma strtrunc_advance (n m : nat) :
  forall p, strtrunc n p ++ strtrunc m (advance n p) = strtrunc (n + m) p.
Proof.
  induction n as [|n IH]; intros p.
  - rewrite strtrunc_0. now destruct p.
  - destruct p as [|c p]; simpl.
    + now rewrite strtrunc_empty.
    + now rewrite IH.
Qed.

Lemma count_open_advance (n : nat) :
  forall p, count_open (advance n p) <= count_open p.
Proof.
  induction n as [|n IH]; intros [|c p]; simpl; try lia.
  specialize (IH p). lia.
Qed.

(** The loop is over when the format is or the buffer is full. *)
Lemma fmt_loop_stop (params : list ecli_fmt_param_t) (fuel : nat)
    (p output : string) (out : nat) :
  p = "" \/ out_end <= out ->
  fmt_loop fuel params p output out = (output, out).
Proof.
  intros H. destruct fuel as [|fuel]; [reflexivity|].
  destruct p as [|c p]; [reflexivity|]. cbn [fmt_loop].
  destruct H as [H|H]; [discriminate|].
  assert (Hge : (out <? out_end)%nat = false) by (apply Nat.ltb_ge; exact H).
  now rewrite Hge.
Qed.

Lemma strtrunc_cons (n : nat) (c : ascii) (p : string) :
  strtrunc (S n) (String c p) = String c (strtrunc n p).
Proof. reflexivity. Qed.

Lemma length_cons (c : ascii) (p : string) :
  length (String c p) = S (length p).
Proof. reflexivity. Qed.

(** Without parameters, or without an opening brace, the loop copies. *)
Lemma fmt_loop_literal (params : list ecli_fmt_param_t) (fuel : nat) :
  forall (p output : string),
    params = [] \/ no_char "{" p = true ->
    length p <= fuel ->
    length output <= out_end ->
    fmt_loop fuel params p output (length output)
    = (output ++ strtrunc (out_end - length output) p,
       length output + Nat.min (length p) (out_end - length output)).
Proof.
  induction fuel as [|fuel IH]; intros p output Hlit Hfuel Hout.
  - destruct p; [|rewrite length_cons in Hfuel; lia]. cbn [fmt_loop].
    rewrite strtrunc_empty, append_empty_r. f_equal.
    change (length "") with 0. lia.
  - destruct p as [|c p'].
    { cbn [fmt_loop]. rewrite strtrunc_empty, append_empty_r. f_equal.
      change (length "") with 0. lia. }
    rewrite length_cons in Hfuel. cbn [fmt_loop].
    destruct (negb (length output <? out_end)%nat) eqn:Hfull.
    { apply negb_true_iff, Nat.ltb_ge in Hfull.
      replace (out_end - length output) with 0 by lia.
      rewrite strtrunc_0, append_empty_r. f_equal. lia. }
    apply negb_false_iff, Nat.ltb_lt in Hfull.
    assert (Hplain :
      params = [] \/ no_char "{" p' = true ->
      fmt_loop fuel params p' (output ++ String c "") (length output + 1)
      = (output ++ strtrunc (out_end - length output) (String c p'),
         length output
         + Nat.min (length (String c p')) (out_end - length output))).
    { intros Hlit'.
      assert (Hlen : length (output ++ String c "") = length output + 1)
        by (rewrite length_append; reflexivity).
      rewrite <- Hlen.
      rewrite IH; [|exact Hlit'|lia|lia].
      rewrite Hlen, length_cons.
      destruct (out_end - length output) as [|room] eqn:Hroom; [lia|].
      replace (out_end - (length output + 1)) with room by lia.
      rewrite strtrunc_cons, append_assoc.
      f_equal. lia. }
    destruct (Ascii.eqb c "{") eqn:Hc.
    + assert (Hnil : params = []).
      { destruct Hlit as [Hn|Hn]; [exact Hn|].
        cbn [no_char] in Hn. rewrite Hc in Hn. discriminate. }
      destruct (strchr p' "}") as [name_len|] eqn:Hchr;
        [|apply Hplain; now left].
      subst params.
      replace (if (name_len <? 64)%nat
               then find_param [] (strtrunc name_len p') else None)
        with (@None ecli_fmt_val) by (now destruct (name_len <? 64)%nat).
      apply strchr_lt in Hchr.
      set (n := Nat.min (name_len + 2) (out_end - length output)).
      assert (Hn1 : 1 <= n) by (unfold n; lia).
      assert (Hn2 : n <= length (String c p'))
        by (unfold n; rewrite length_cons; lia).
      assert (Hn3 : n <= out_end - length output) by (unfold n; lia).
      assert (Hlen : length (output ++ strtrunc n (String c p'))
                     = length output + n)
        by (rewrite length_append, strtrunc_length; lia).
      rewrite <- Hlen.
      rewrite IH;
        [|now left|rewrite length_advance, length_cons in *; lia|lia].
      rewrite Hlen, length_advance.
      rewrite append_assoc, strtrunc_advance.
      f_equal; [f_equal; f_equal; lia | lia].
    + apply Hplain. destruct Hlit as [Hn|Hn]; [now left|right].
      cbn [no_char] in Hn. rewrite Hc in Hn. exact Hn.
Qed.

(** X10.  A format without an opening brace, or any format when the call
    has no parameters, goes to the sink as it is, cut at the 1023 bytes
    that the buffer holds before its terminator: nothing is substituted
    and braces that match no parameter stay in the text, unbalanced ones
    included.  Such a call is always defined. *)
Theorem literal_format_is_copied :
  forall (fp : bool) (f : string) (ap : list ecli_fmt_param_t),
    ap = [] \/ no_char "{" f = true ->
    ecli_out_fmt fp (Some f) ap = Some [ECLI_OUT fp (strtrunc out_end f)]
    /\ (length f <= out_end ->
        ecli_out_fmt fp (Some f) ap = Some [ECLI_OUT fp f]).
Proof.
  intros fp f ap Hlit.
  assert (Hmain : ecli_out_fmt fp (Some f) ap
                  = Some [ECLI_OUT fp (strtrunc out_end f)]).
  { unfold ecli_out_fmt.
    pose proof (fmt_loop_literal (read_params ECLI_FMT_MAX_PARAMS ap)
                  (length f) f "") as Hloop.
    change (length "") with 0 in Hloop. rewrite Hloop.
    - rewrite Nat.sub_0_r. simpl append.
      replace (0 + Nat.min (length f) out_end <=? out_end)%nat with true
        by (symmetry; apply Nat.leb_le; lia).
      reflexivity.
    - destruct Hlit as [H|H]; [left; now subst | now right].
    - lia.
    - lia. }
  split; [exact Hmain|].
  intros Hfit. rewrite Hmain. now rewrite strtrunc_all.
Qed.

Lemma literal_format_is_copied_witness :
  ecli_out_fmt true (Some ("port {port} {" ++ nl)) []
  = Some ["port {port} {" ++ nl].
Proof.
  destruct (literal_format_is_copied true ("port {port} {" ++ nl) [])
    as [_ Hfit].
  - left. reflexivity.
  - apply Hfit. apply Nat.leb_le. reflexivity.
Defined.

Lemma find_param_In (params : list ecli_fmt_param_t) (name_buf : string)
    (v : ecli_fmt_val) :
  find_param params name_buf = Some v -> In (name_buf, v) params.
Proof.
  induction params as [|[n w] rest IH]; simpl; [discriminate|].
  destruct (n =? name_buf) eqn:E.
  - apply String.eqb_eq in E. intros H. inversion H. subst. now left.
  - intros H. right. now apply IH.
Qed.

Lemma count_open_cons (c : ascii) (p : string) :
  count_open (String c p)
  = (if Ascii.eqb c "{" then 1 else 0) + count_open p.
Proof. reflexivity. Qed.

(** With room for every value the pointer [out] never leaves the text. *)
Lemma fmt_loop_safe (params : list ecli_fmt_param_t) (bound : nat) :
  (forall n v, In (n, v) params -> length (render v) <= bound) ->
  forall (fuel : nat) (p output : string),
    length output + length p + count_open p * bound <= out_end ->
    snd (fmt_loop fuel params p output (length output))
    = length (fst (fmt_loop fuel params p output (length output)))
    /\ snd (fmt_loop fuel params p output (length output))
       <= length output + length p + count_open p * bound.
Proof.
  intros Hbound.
  induction fuel as [|fuel IH]; intros p output Hroom.
  - cbn [fmt_loop fst snd]. split; lia.
  - destruct p as [|c p']; [cbn [fmt_loop fst snd]; split; lia|].
    cbn [fmt_loop]. rewrite length_cons, count_open_cons in Hroom.
    rewrite length_cons, count_open_cons.
    destruct (negb (length output <? out_end)%nat);
      [cbn [fst snd]; split; lia|].
    assert (Hlen1 : length (output ++ String c "") = length output + 1)
      by (rewrite length_append; reflexivity).
    assert (Hplain :
      snd (fmt_loop fuel params p' (output ++ String c "")
                    (length output + 1))
      = length (fst (fmt_loop fuel params p' (output ++ String c "")
                              (length output + 1)))
      /\ snd (fmt_loop fuel params p' (output ++ String c "")
                       (length output + 1))
         <= length output + S (length p')
            + ((if Ascii.eqb c "{" then 1 else 0) + count_open p') * bound).
    { rewrite <- Hlen1.
      destruct (IH p' (output ++ String c "")) as [H1 H2].
      { rewrite Hlen1. destruct (Ascii.eqb c "{"); nia. }
      split; [exact H1|]. eapply Nat.le_trans; [exact H2|].
      rewrite Hlen1. destruct (Ascii.eqb c "{"); nia. }
    destruct (Ascii.eqb c "{") eqn:Hc; [|exact Hplain].
    destruct (strchr p' "}") as [name_len|] eqn:Hchr; [|exact Hplain].
    apply strchr_lt in Hchr.
    destruct (if (name_len <? 64)%nat
              then find_param params (strtrunc name_len p') else None)
      as [v|] eqn:Hfind.
    + assert (Hv : length (render v) <= bound).
      { destruct (name_len <? 64)%nat; [|discriminate].
        apply find_param_In in Hfind. exact (Hbound _ _ Hfind). }
      assert (Hfit : snprintf (out_end - length output) (render v)
                     = render v)
        by (apply snprintf_fits; nia).
      rewrite Hfit.
      assert (Hlen : length (output ++ render v)
                     = length output + length (render v))
        by apply length_append.
      rewrite <- Hlen.
      pose proof (count_open_advance (name_len + 1) p') as Hcnt.
      destruct (IH (advance (name_len + 1) p') (output ++ render v))
        as [H1 H2].
      { rewrite Hlen, length_advance. nia. }
      split; [exact H1|]. eapply Nat.le_trans; [exact H2|].
      rewrite Hlen, length_advance. nia.
    + set (n := Nat.min (name_len + 2) (out_end - length output)).
      assert (Hn2 : n <= length (String c p'))
        by (unfold n; rewrite length_cons; lia).
      assert (Hlen : length (output ++ strtrunc n (String c p'))
                     = length output + n)
        by (rewrite length_append, strtrunc_length; lia).
      rewrite <- Hlen.
      pose proof (count_open_advance n (String c p')) as Hcnt.
      rewrite count_open_cons, Hc in Hcnt.
      destruct (IH (advance n (String c p'))
                   (output ++ strtrunc n (String c p'))) as [H1 H2].
      { rewrite Hlen, length_advance, length_cons. nia. }
      split; [exact H1|]. eapply Nat.le_trans; [exact H2|].
      rewrite Hlen, length_advance, length_cons. nia.
Qed.

Lemma In_firstn_incl {T} (k : nat) (l : list T) (x : T) :
  In x (firstn k l) -> In x l.
Proof.
  revert l; induction k as [|k IH]; intros [|a l]; simpl; try tauto.
  intros [H|H]; [now left | right; now apply IH].
Qed.

(** X11.  A condition under which a call of [ecli_out_fmt] is safe: when
    every value renders to at most [bound] bytes and the length of the
    format plus [bound] bytes for each of its opening braces is within the
    1023 bytes of the buffer, the call is defined, nothing is cut, and the
    one text handed to the sink is no longer than that sum. *)
Theorem ecli_out_fmt_within_buffer :
  forall (fp : bool) (f : string) (ap : list ecli_fmt_param_t) (bound : nat),
    (forall n v, In (n, v) ap -> length (render v) <= bound) ->
    length f + count_open f * bound <= out_end ->
    exists output,
      ecli_out_fmt fp (Some f) ap = Some [ECLI_OUT fp output]
      /\ length output <= length f + count_open f * bound.
Proof.
  intros fp f ap bound Hbound Hroom. unfold ecli_out_fmt.
  assert (Hparams : forall n v,
             In (n, v) (read_params ECLI_FMT_MAX_PARAMS ap) ->
             length (render v) <= bound).
  { intros n v Hin. rewrite read_params_firstn in Hin.
    apply (Hbound n v). exact (In_firstn_incl _ _ _ Hin). }
  destruct (fmt_loop_safe _ bound Hparams (length f) f "") as [H1 H2].
  { change (length "") with 0. lia. }
  change (length "") with 0 in *.
  destruct (fmt_loop (length f) (read_params ECLI_FMT_MAX_PARAMS ap) f "" 0)
    as [output out].
  cbn [fst snd] in *.
  assert (Hle : (out <=? out_end)%nat = true) by (apply Nat.leb_le; lia).
  rewrite Hle. exists output. split; [reflexivity | lia].
Qed.

Lemma ecli_out_fmt_within_buffer_witness :
  let f := "vhost {name} port {port}" ++ nl in
  let ap := [("name", FMT_STR (Some "www.example.com"));
             ("port", FMT_INT 8080)] in
  exists output,
    ecli_out_fmt true (Some f) ap = Some [ECLI_OUT true output]
    /\ length output <= length f + count_open f * 15.
Proof.
  intros f ap. apply (ecli_out_fmt_within_buffer true f ap 15).
  - intros n v [H|[H|[]]]; inversion H; subst; apply Nat.leb_le; reflexivity.
  - apply Nat.leb_le. reflexivity.
Defined.

Lemma strchr_close (name rest : string) :
  no_char "}" name = true ->
  strchr (name ++ String "}" rest) "}" = Some (length name).
Proof.
  induction name as [|c name IH]; intros H; [reflexivity|].
  cbn [no_char] in H. apply andb_true_iff in H. destruct H as [Hc Hn].
  apply negb_true_iff in Hc. cbn [append strchr]. rewrite Hc.
  now rewrite (IH Hn).
Qed.

Lemma advance_all (n : nat) :
  forall p, length p <= n -> advance n p = "".
Proof.
  induction n as [|n IH]; intros [|c p] H; try reflexivity.
  - rewrite length_cons in H. lia.
  - rewrite length_cons in H. cbn [advance]. apply IH. lia.
Qed.

Lemma strtrunc_exact (a b : string) : strtrunc (length a) (a ++ b) = a.
Proof.
  rewrite strtrunc_app, Nat.sub_diag, strtrunc_0, append_empty_r.
  now apply strtrunc_all.
Qed.

Lemma strtrunc_min_length (m : nat) (p : string) :
  strtrunc (Nat.min (length p) m) p = strtrunc m p.
Proof.
  destruct (Nat.le_gt_cases (length p) m) as [H|H].
  - rewrite Nat.min_l by exact H. now rewrite !strtrunc_all.
  - rewrite Nat.min_r by lia. reflexivity.
Qed.

(** The first turn of the loop on a format that opens with a placeholder
    whose name holds no closing brace. *)
Lemma fmt_loop_placeholder (params : list ecli_fmt_param_t) (fuel : nat)
    (name rest : string) :
  no_char "}" name = true ->
  fmt_loop (S fuel) params (String "{" (name ++ String "}" rest)) "" 0
  = match (if (length name <? 64)%nat then find_param params name
           else None) with
    | Some v =>
        fmt_loop fuel params rest (snprintf out_end (render v))
                 (length (render v))
    | None =>
        let n := Nat.min (length name + 2) out_end in
        fmt_loop fuel params
          (advance n (String "{" (name ++ String "}" rest)))
          (strtrunc n (String "{" (name ++ String "}" rest))) n
    end.
Proof.
  intros Hname. cbn [fmt_loop].
  replace (0 <? out_end)%nat with true by reflexivity.
  cbn [negb]. rewrite Ascii.eqb_refl, (strchr_close name rest Hname).
  rewrite strtrunc_exact, Nat.sub_0_r.
  destruct (if (length name <? 64)%nat then find_param params name else None)
    as [v|].
  - cbn [append]. f_equal.
    replace (length name + 1) with (length (name ++ "}"))
      by (rewrite length_append; reflexivity).
    clear. induction name as [|c name IH]; [reflexivity|].
    cbn [append length advance]. exact IH.
  - reflexivity.
Qed.

(** X12.  What [ecli_out_fmt] does with a format that is one placeholder.
    A name of 64 bytes or more is never substituted, even when a parameter
    has that name, and neither is a name that is not among the first 16
    parameters: the placeholder is printed as it is, cut at 1023 bytes.  A
    known name shorter than 64 bytes is replaced by its value when the
    value has fewer than 1023 bytes; a value of exactly 1023 bytes loses
    its last byte; a longer one leaves the call undefined. *)
Theorem single_placeholder :
  forall (fp : bool) (name : string) (ap : list ecli_fmt_param_t),
    no_char "}" name = true ->
    let f := String "{" (name ++ "}") in
    let params := read_params ECLI_FMT_MAX_PARAMS ap in
    (64 <= length name \/ find_param params name = None ->
     ecli_out_fmt fp (Some f) ap = Some [ECLI_OUT fp (strtrunc out_end f)])
    /\ (forall v : ecli_fmt_val,
           length name < 64 ->
           find_param params name = Some v ->
           (length (render v) < out_end ->
            ecli_out_fmt fp (Some f) ap = Some [ECLI_OUT fp (render v)])
           /\ (length (render v) = out_end ->
               ecli_out_fmt fp (Some f) ap
               = Some [ECLI_OUT fp (strtrunc (out_end - 1) (render v))])
           /\ (out_end < length (render v) ->
               ecli_out_fmt fp (Some f) ap = None)).
Proof.
  intros fp name ap Hname f params.
  assert (Hlen : length f = S (length (name ++ "}"))) by reflexivity.
  assert (Hlen2 : length f = length name + 2).
  { rewrite Hlen, length_append. change (length "}") with 1. lia. }
  unfold ecli_out_fmt. fold params. rewrite Hlen. unfold f.
  rewrite (fmt_loop_placeholder params _ name "" Hname).
  fold f. split.
  - intros Hlit.
    replace (if (length name <? 64)%nat then find_param params name else None)
      with (@None ecli_fmt_val).
    2:{ destruct Hlit as [H|H].
        - apply Nat.ltb_ge in H. now rewrite H.
        - rewrite H. now destruct (length name <? 64)%nat. }
    cbv zeta. rewrite <- Hlen2.
    rewrite fmt_loop_stop.
    + rewrite strtrunc_min_length.
      replace (Nat.min (length f) out_end <=? out_end)%nat with true
        by (symmetry; apply Nat.leb_le; lia).
      reflexivity.
    + destruct (Nat.le_gt_cases (length f) out_end) as [H|H].
      * left. apply advance_all. lia.
      * right. lia.
  - intros v Hshort Hfind.
    apply Nat.ltb_lt in Hshort. rewrite Hshort, Hfind.
    rewrite fmt_loop_stop by now left.
    split; [|split]; intros Hv.
    + replace (length (render v) <=? out_end)%nat with true
        by (symmetry; apply Nat.leb_le; lia).
      rewrite snprintf_fits by lia. reflexivity.
    + replace (length (render v) <=? out_end)%nat with true
        by (symmetry; apply Nat.leb_le; lia).
      reflexivity.
    + replace (length (render v) <=? out_end)%nat with false
        by (symmetry; apply Nat.leb_gt; lia).
      reflexivity.
Qed.

Lemma single_placeholder_witness :
  let long := replicate 64 "n" in
  ecli_out_fmt true (Some (String "{" (long ++ "}")))
               [(long, FMT_STR (Some "value"))]
  = Some [String "{" (long ++ "}")]
  /\ ecli_out_fmt true (Some "{port}") [("port", FMT_UINT 8080)]
     = Some ["8080"].
Proof.
  intros long. split.
  - destruct (single_placeholder true long [(long, FMT_STR (Some "value"))])
      as [Hlit _]; [reflexivity|].
    rewrite Hlit; [reflexivity|]. left. apply Nat.leb_le. reflexivity.
  - destruct (single_placeholder true "port" [("port", FMT_UINT 8080)])
      as [_ Hval]; [reflexivity|].
    destruct (Hval (FMT_UINT 8080)) as [Hshort _];
      [apply Nat.leb_le; reflexivity | reflexivity|].
    apply Hshort. apply Nat.leb_le. reflexivity.
Defined.

(* ================================================================== *)
(** ** Replay: what the status of [ecli_load_config] tells *)

Lemma failures_length {A} (grammar : ec_node A) (cli : eecli_ctx_t)
    (cmds : list (Z * string)) :
  forall app : A,
    List.length (failures grammar cli app cmds) <= List.length cmds.
Proof.
  induction cmds as [|[n p] rest IH]; intros app; simpl; [lia|].
  destruct (execute_command grammar cli app p) as [[ret app1] evs].
  destruct (ret <? 0)%Z; simpl; specialize (IH app1); lia.
Qed.

Lemma config_commands_length (buffers : list string) :
  forall line_num : Z,
    List.length (config_commands buffers line_num) <= List.length buffers.
Proof.
  induction buffers as [|line rest IH]; intros line_num; simpl; [lia|].
  destruct (nonempty (trim_tail config_tail (skip_blanks line))
            && negb (is_comment (trim_tail config_tail (skip_blanks line))));
    simpl; specialize (IH (line_num + 1)%Z); lia.
Qed.

Lemma fgets_aux_length (size : nat) (s : string) :
  forall (room : nat) (cur : string),
    List.length (fgets_aux size room cur s)
    <= length s + (if nonempty cur then 1 else 0).
Proof.
  induction s as [|c s IH]; intros room cur.
  - simpl. destruct (nonempty cur); simpl; lia.
  - cbn [fgets_aux]. rewrite length_cons.
    destruct (Ascii.eqb c LF || (room <=? 1)%nat).
    + cbn [List.length]. specialize (IH (size - 1) ""). simpl in IH. lia.
    + specialize (IH (room - 1) (cur ++ String c "")).
      replace (nonempty (cur ++ String c "")) with true in IH
        by (now destruct cur).
      destruct (nonempty cur); lia.
Qed.

(** X13.  The status of a replay tells the two kinds of failure apart.
    Without a session, or when the file cannot be opened, the status is -1
    and nothing is executed.  For a file that opens and has at most
    INT_MAX lines, the range of the line counter, replay returns and its
    status is the number of failed commands: never negative, never more
    than the number of lines read, and 0 with nothing executed or logged
    for an empty file; so the status is -1 exactly in the two cases of
    the first kind.  For a file of more lines the line counter overflows
    and the call has no defined result. *)
Theorem replay_status_range :
  forall (A : Type) (grammar : ec_node A) (g_ecli_ctx : option eecli_ctx_t)
         (filename : string) (file : string + string) (app : A),
    (forall cli content,
        g_ecli_ctx = Some cli -> file = inl content ->
        (Z.of_nat (List.length (fgets_all 1024 content)) <= INT_MAX)%Z) ->
    (exists status app' evs,
        ecli_load_config grammar g_ecli_ctx filename file app
        = Some (status, app', evs)
        /\ (status = (-1)%Z
            <-> g_ecli_ctx = None \/ exists err, file = inr err)
        /\ (status = (-1)%Z -> app' = app)
        /\ (forall cli content,
               g_ecli_ctx = Some cli -> file = inl content ->
               (0 <= status
                  <= Z.of_nat (List.length (fgets_all 1024 content)))%Z
               /\ List.length (fgets_all 1024 content) <= length content
               /\ (content = "" -> status = 0%Z /\ app' = app /\ evs = [])))
    /\ (forall (cli : eecli_ctx_t) (content : string) (state : A),
           (INT_MAX < Z.of_nat (List.length (fgets_all 1024 content)))%Z ->
           ecli_load_config grammar (Some cli) filename (inl content) state
           = None).
Proof.
  intros A grammar ctx filename file app Hbound. split.
  - destruct ctx as [cli|].
    2:{ eexists. eexists. eexists. split; [reflexivity|].
        split; [split; [now left | reflexivity]|].
        split; [reflexivity|]. intros cli content H. discriminate. }
    destruct file as [content|err].
    2:{ eexists. eexists. eexists. split; [reflexivity|].
        split; [split; [right; now exists err | reflexivity]|].
        split; [reflexivity|]. intros cli' content _ H. discriminate. }
    specialize (Hbound cli content eq_refl eq_refl).
    unfold ecli_load_config.
    rewrite load_config_loop_commands by lia.
    pose proof (run_commands_failures grammar cli
                  (config_commands (fgets_all 1024 content) 0) app)
      as [Hcount _].
    pose proof (failures_length grammar cli
                  (config_commands (fgets_all 1024 content) 0) app) as Hf.
    pose proof (config_commands_length (fgets_all 1024 content) 0) as Hcl.
    destruct (run_commands grammar cli app
                (config_commands (fgets_all 1024 content) 0))
      as [[k app'] evs] eqn:Hrun.
    cbn [fst snd] in Hcount.
    exists (0 + k)%Z, app', evs. split; [reflexivity|].
    assert (Hrange : (0 <= 0 + k
                      <= Z.of_nat (List.length (fgets_all 1024 content)))%Z)
      by lia.
    split; [|split].
    + split; [lia|]. intros [H | [err H]]; discriminate.
    + lia.
    + intros cli' content' _ Hc. inversion Hc; subst content'.
      split; [exact Hrange|]. split.
      * unfold fgets_all.
        pose proof (fgets_aux_length 1024 content (1024 - 1) "") as H.
        simpl nonempty in H. cbv iota in H. lia.
      * intros ->. cbn in Hrun. inversion Hrun. now subst.
  - intros cli content state Hover. unfold ecli_load_config.
    apply load_config_loop_overflow; [vm_compute; discriminate | lia].
Qed.

Lemma replay_status_range_witness :
  let cli := ecli_init (mk_config "cli> ") false in
  let content := "show" ++ nl ++ "bogus" ++ nl in
  (exists status app' evs,
      ecli_load_config (demo_grammar true) (Some cli) "startup.conf"
                       (inl content) tt
      = Some (status, app', evs)
      /\ (0 <= status <= 2)%Z)
  /\ ecli_load_config (demo_grammar true) (Some cli) "missing.conf"
       (inr "No such file or directory") tt
     = Some ((-1)%Z, tt,
             [Stderr ("Cannot open config file: missing.conf: "
                        ++ "No such file or directory" ++ nl)]).
Proof.
  intros cli content. split; [|reflexivity].
  destruct (replay_status_range unit (demo_grammar true) (Some cli)
              "startup.conf" (inl content) tt)
    as [[status [app' [evs [Hrun [_ [_ Hopen]]]]]] _].
  - intros cli' content' _ H. inversion H. vm_compute. discriminate.
  - exists status, app', evs. split; [exact Hrun|].
    destruct (Hopen cli content eq_refl eq_refl) as [Hrange _].
    exact Hrange.
Defined.

(* ================================================================== *)
(** ** Extended documentation *)

Lemma doc_loop_spec (entries : list ecli_doc_entry_t) (n : string)
    (doc : ecli_doc_entry_t) :
  doc_loop entries n = Some doc
  <-> exists before after,
        entries = (before ++ doc :: after)%list
        /\ cmd_name doc = Some n
        /\ forall d, In d before -> cmd_name d <> Some n.
Proof.
  induction entries as [|e rest IH]; simpl.
  - split; [discriminate|]. intros [[|b before] [after [H _]]]; discriminate.
  - assert (Hskip : cmd_name e <> Some n ->
              (doc_loop rest n = Some doc
               <-> exists before after,
                     e :: rest = (before ++ doc :: after)%list
                     /\ cmd_name doc = Some n
                     /\ forall d, In d before -> cmd_name d <> Some n)).
    { intros Hne. rewrite IH. split.
      - intros [before [after [H1 [H2 H3]]]].
        exists (e :: before), after. simpl. rewrite H1.
        split; [reflexivity|]. split; [exact H2|].
        intros d [<-|Hd]; [exact Hne | now apply H3].
      - intros [[|b before] [after [H1 [H2 H3]]]]; simpl in H1;
          inversion H1; subst.
        + contradiction.
        + exists before, after. split; [reflexivity|]. split; [exact H2|].
          intros d Hd. apply H3. now right. }
    destruct (cmd_name e) as [k|] eqn:Hk; [|apply Hskip; discriminate].
    destruct (k =? n) eqn:E.
    + apply String.eqb_eq in E. subst k. split.
      * intros H. inversion H; subst. exists [], rest.
        split; [reflexivity|]. split; [exact Hk|]. intros d [].
      * intros [[|b before] [after [H1 [H2 H3]]]]; simpl in H1;
          inversion H1; subst; [reflexivity|].
        exfalso. apply (H3 b); [now left | exact Hk].
    + apply String.eqb_neq in E. apply Hskip. congruence.
Qed.

(** X14.  [ecli_doc_lookup] returns the first entry of the documentation
    section whose command name is the name asked for: entries without a
    name are passed over, and so is every entry with another name.  It
    finds nothing for a NULL name, for a stripped section and for a name
    that no entry carries. *)
Theorem doc_lookup_finds_first :
  forall (ecli_doc : option (list ecli_doc_entry_t)) (n : string),
    (forall doc,
        ecli_doc_lookup ecli_doc (Some n) = Some doc
        <-> exists entries before after,
              ecli_doc = Some entries
              /\ entries = (before ++ doc :: after)%list
              /\ cmd_name doc = Some n
              /\ forall d, In d before -> cmd_name d <> Some n)
    /\ (ecli_doc_lookup ecli_doc (Some n) = None
        <-> forall entries d,
              ecli_doc = Some entries -> In d entries ->
              cmd_name d <> Some n)
    /\ ecli_doc_lookup ecli_doc None = None
    /\ ecli_doc_lookup None (Some n) = None.
Proof.
  intros sec n.
  assert (Hloop : ecli_doc_lookup sec (Some n)
                  = match sec with
                    | Some entries => doc_loop entries n
                    | None => None
                    end).
  { destruct sec as [[|e rest]|]; reflexivity. }
  split; [|split; [|split]]; try reflexivity.
  - intros doc. rewrite Hloop. destruct sec as [entries|].
    + rewrite doc_loop_spec. split.
      * intros [before [after H]]. now exists entries, before, after.
      * intros [entries' [before [after [H1 H]]]]. inversion H1; subst.
        now exists before, after.
    + split; [discriminate|]. intros [e [b [a [H _]]]]. discriminate.
  - rewrite Hloop. destruct sec as [entries|].
    + split.
      * intros Hnone entries' d H1 Hin. inversion H1; subst entries'.
        intros Hname. apply in_split in Hin.
        destruct Hin as [l1 [l2 Hsplit]]. subst entries.
        clear H1 Hloop. revert Hnone. induction l1 as [|x l1 IHl]; simpl.
        -- rewrite Hname, String.eqb_refl. discriminate.
        -- destruct (cmd_name x) as [k|]; [|exact IHl].
           destruct (k =? n); [discriminate | exact IHl].
      * intros Hall. destruct (doc_loop entries n) as [doc|] eqn:E;
          [|reflexivity].
        apply doc_loop_spec in E.
        destruct E as [before [after [H1 [H2 _]]]].
        exfalso. apply (Hall entries doc eq_refl); [|exact H2].
        rewrite H1. apply in_or_app. right. now left.
    + split; [|reflexivity]. intros _ entries d H. discriminate.
Qed.





(* ================================================================== *)
(** ** The TCP transport *)

(** X16.  While a client is attached, any number of further connections,
    from anywhere and whatever libevent would give them, leave the
    transport exactly as it is: each one is sent the refusal that names
    the address and port of the attached client and is closed, nothing is
    queued for the attached client, and the attached client stays. *)
Theorem second_client_is_refused :
  forall (T4 T6 B : Type) (inet_ntop4 : T4 -> string)
         (inet_ntop6 : T6 -> string) (banner : option string)
         (version : string) (cli : eecli_ctx_t) (tcp : tcp_state T4 T6 B)
         (attempts : list (Z * sockaddr_storage T4 T6 * option B)),
    has_client tcp = true ->
    tcp_run inet_ntop4 inet_ntop6 banner version cli tcp
            (map (fun a => Accept (fst (fst a)) (snd (fst a)) (snd a))
                 attempts)
    = (tcp,
       flat_map (fun a =>
                   [FdWrite (fst (fst a))
                            (refusal inet_ntop4 inet_ntop6 (client_addr tcp));
                    FdClose (fst (fst a))])
                attempts).
Proof.
  intros T4 T6 B ntop4 ntop6 banner version cli tcp attempts Hc.
  induction attempts as [|[[fd addr] bev] rest IH]; [reflexivity|].
  cbn [map tcp_run flat_map fst snd]. unfold tcp_accept_cb. rewrite Hc.
  rewrite IH. reflexivity.
Qed.

Lemma second_client_is_refused_witness :
  let tcp := mk_tcp true (Some 1) (@AF_INET string string "192.0.2.7" 51234) in
  tcp_run (fun a => a) (fun a => a) None "1.0"
          (ecli_init (mk_config "cli> ") false) tcp
          [Accept 9 (AF_INET "198.51.100.3" 40000) (Some 2)]
  = (tcp,
     [FdWrite 9 ("Another session is active from 192.0.2.7:51234"
                   ++ String CR nl);
      FdClose 9]).
Proof.
  intros tcp.
  exact (second_client_is_refused string string nat (fun a => a) (fun a => a)
           None "1.0" (ecli_init (mk_config "cli> ") false) tcp
           [(9%Z, AF_INET "198.51.100.3" 40000, Some 2)] eq_refl).
Defined.

Lemma tcp_step_inv {T4 T6 B} (inet_ntop4 : T4 -> string)
    (inet_ntop6 : T6 -> string) (banner : option string) (version : string)
    (cli : eecli_ctx_t) (tcp : tcp_state T4 T6 B) :
  tcp_inv tcp ->
  (forall fd addr new_bev,
      tcp_inv (fst (tcp_accept_cb inet_ntop4 inet_ntop6 banner version cli
                                  tcp fd addr new_bev)))
  /\ forall e, tcp_inv (fst (tcp_event_cb tcp e)).
Proof.
  intros Hinv. split.
  - intros fd addr new_bev. unfold tcp_accept_cb.
    destruct (has_client tcp) eqn:Hc; [exact Hinv|].
    destruct new_bev as [bev|]; unfold tcp_inv; simpl.
    + split; [discriminate | reflexivity].
    + split; [discriminate | congruence].
  - intros e. unfold tcp_event_cb. destruct e; [|exact Hinv].
    unfold tcp_inv. simpl. split; [discriminate | congruence].
Qed.

(** X17.  The transport has a client exactly when it holds a connection,
    whatever sequence of connections, disconnections and errors it has
    seen.  Once the attached client is gone the next connection that
    libevent can buffer is attached in its place: its address is stored,
    the old connection is freed, and the newcomer is sent the banner, if
    there is one, and then the current prompt of the session, which is
    the prompt of the context that the session was left in. *)
Theorem client_slot_is_reused :
  forall (T4 T6 B : Type) (inet_ntop4 : T4 -> string)
         (inet_ntop6 : T6 -> string) (banner : option string)
         (version : string) (cli : eecli_ctx_t) (tcp : tcp_state T4 T6 B),
    tcp_inv tcp ->
    (forall inputs,
        tcp_inv (fst (tcp_run inet_ntop4 inet_ntop6 banner version cli tcp
                              inputs)))
    /\ (forall fd addr bev,
           tcp_run inet_ntop4 inet_ntop6 banner version cli tcp
                   [Event true; Accept fd addr (Some bev)]
           = (mk_tcp true (Some bev) addr,
              ([BevFree (client_bev tcp)]
                 ++ match banner with
                    | Some b =>
                        [ToClient
                           (ecli_write (b ++ " v" ++ version
                                          ++ String CR nl))]
                    | None => []
                    end
                 ++ [ToClient (ecli_prompt cli)])%list)).
Proof.
  intros T4 T6 B ntop4 ntop6 banner version cli tcp Hinv. split.
  - intros inputs. revert tcp Hinv.
    induction inputs as [|i rest IH]; intros tcp Hinv; [exact Hinv|].
    cbn [tcp_run].
    destruct (tcp_step_inv ntop4 ntop6 banner version cli tcp Hinv)
      as [Hacc Hev].
    destruct i as [fd addr new_bev|e].
    + specialize (Hacc fd addr new_bev).
      destruct (tcp_accept_cb ntop4 ntop6 banner version cli tcp fd addr
                              new_bev) as [tcp1 evs].
      specialize (IH tcp1 Hacc).
      destruct (tcp_run ntop4 ntop6 banner version cli tcp1 rest).
      exact IH.
    + specialize (Hev e).
      destruct (tcp_event_cb tcp e) as [tcp1 evs].
      specialize (IH tcp1 Hev).
      destruct (tcp_run ntop4 ntop6 banner version cli tcp1 rest).
      exact IH.
  - intros fd addr bev. cbn. destruct banner; reflexivity.
Qed.

Lemma client_slot_is_reused_witness :
  let cli := mk_ctx (mk_config "cli> ") false ["vhost"] 1 "cli(vhost)> " in
  let tcp := mk_tcp true (Some 1) (@AF_INET string string "192.0.2.7" 51234) in
  tcp_run (fun a => a) (fun a => a) (Some "demo") "1.0" cli tcp
          [Event true; Accept 9 (AF_INET "198.51.100.3" 40000) (Some 2)]
  = (mk_tcp true (Some 2) (AF_INET "198.51.100.3" 40000),
     [BevFree (Some 1); ToClient (Write ("demo v1.0" ++ String CR nl));
      ToClient (Write "cli(vhost)> ")]).
Proof.
  intros cli tcp.
  destruct (client_slot_is_reused string string nat (fun a => a) (fun a => a)
              (Some "demo") "1.0" cli tcp) as [_ Hnext].
  - split; [discriminate | reflexivity].
  - exact (Hnext 9%Z (AF_INET "198.51.100.3" 40000) 2).
Defined.

(* ================================================================== *)
(** ** The order of registration and the dump *)

Lemma sorted_head_least {A} (e : ecli_out_entry_t A)
    (l : list (ecli_out_entry_t A)) :
  StronglySorted prio_le (e :: l) ->
  forall x, In x (e :: l) -> (priority e <= priority x)%Z.
Proof.
  intros Hs x [<-|Hin]; [lia|].
  apply StronglySorted_inv in Hs. destruct Hs as [_ Hall].
  rewrite Forall_forall in Hall. exact (Hall x Hin).
Qed.

Lemma distinct_priorities_inj {A} (l : list (ecli_out_entry_t A)) :
  NoDup (map priority l) ->
  forall x y, In x l -> In y l -> priority x = priority y -> x = y.
Proof.
  induction l as [|a l IH]; intros Hnd x y Hx Hy Hp; [contradiction|].
  simpl in Hnd. apply NoDup_cons_iff in Hnd. destruct Hnd as [Hna Hnd].
  destruct Hx as [<-|Hx], Hy as [<-|Hy].
  - reflexivity.
  - exfalso. apply Hna. rewrite Hp. now apply in_map.
  - exfalso. apply Hna. rewrite <- Hp. now apply in_map.
  - now apply IH.
Qed.

(** Two sorted lists with the same entries, of distinct priorities, are
    the same list. *)
Lemma sorted_unique {A} (l1 : list (ecli_out_entry_t A)) :
  forall l2,
    StronglySorted prio_le l1 -> StronglySorted prio_le l2 ->
    Permutation l1 l2 -> NoDup (map priority l1) -> l1 = l2.
Proof.
  induction l1 as [|a l1 IH]; intros l2 Hs1 Hs2 Hperm Hnd.
  - apply Permutation_nil in Hperm. now subst.
  - destruct l2 as [|b l2].
    { apply Permutation_sym, Permutation_nil in Hperm. discriminate. }
    assert (Hab : a = b).
    { apply (distinct_priorities_inj (a :: l1) Hnd).
      - now left.
      - apply (Permutation_in b (Permutation_sym Hperm)). now left.
      - pose proof (sorted_head_least a l1 Hs1 b
                      (Permutation_in b (Permutation_sym Hperm)
                                      (or_introl eq_refl))).
        pose proof (sorted_head_least b l2 Hs2 a
                      (Permutation_in a Hperm (or_introl eq_refl))).
        lia. }
    subst b. f_equal.
    apply StronglySorted_inv in Hs1. apply StronglySorted_inv in Hs2.
    simpl in Hnd. apply NoDup_cons_iff in Hnd.
    apply IH; try tauto.
    now apply Permutation_cons_inv in Hperm.
Qed.

(** X18.  When the registered bindings have pairwise distinct priorities
    the order in which they were registered does not matter: registering
    the same bindings in any other order builds the same registry, and so
    the same dump of the running configuration, for every application
    state, sink and set of format overrides. *)
Theorem registration_order_is_irrelevant :
  forall (A : Type) (regs1 regs2 : list (ecli_out_entry_t A)),
    Permutation regs1 regs2 ->
    NoDup (map priority regs1) ->
    register_all regs1 = register_all regs2
    /\ forall (fmts : list (string * string)) (app : A) (fp : bool),
         ecli_dump_running_config fmts (register_all regs1) app fp
         = ecli_dump_running_config fmts (register_all regs2) app fp.
Proof.
  intros A regs1 regs2 Hperm Hnd.
  assert (Heq : register_all regs1 = register_all regs2).
  { destruct (register_all_sorted_stable regs1) as [Hs1 [Hp1 _]].
    destruct (register_all_sorted_stable regs2) as [Hs2 [Hp2 _]].
    apply sorted_unique; try assumption.
    - eapply Permutation_trans; [exact Hp1|].
      eapply Permutation_trans; [exact Hperm|].
      now apply Permutation_sym.
    - apply (Permutation_NoDup (l := map priority regs1)); [|exact Hnd].
      apply Permutation_map. now apply Permutation_sym. }
  split; [exact Heq|]. intros fmts app fp. now rewrite Heq.
Qed.

Lemma registration_order_is_irrelevant_witness :
  let a := mk_out_entry (Some "a") (Some "G1") None
                        (Some (@prints unit ("a" ++ nl))) 20 in
  let b := mk_out_entry (Some "b") (Some "G1") None
                        (Some (@prints unit ("b" ++ nl))) 10 in
  let c := mk_out_entry (Some "c") (Some "G2") None
                        (Some (@prints unit ("c" ++ nl))) 5 in
  register_all [a; b; c] = register_all [c; a; b].
Proof.
  intros a b c.
  destruct (registration_order_is_irrelevant unit [a; b; c] [c; a; b])
    as [Heq _].
  - apply Permutation_sym. apply (Permutation_cons_app [a; b] [] c).
    reflexivity.
  - simpl. repeat constructor; simpl; intuition discriminate.
  - exact Heq.
Defined.

(* ================================================================== *)
(** ** The size of an expansion *)

Lemma append_token_length (result tok : string) :
  length result <= 4095 -> length (append_token result tok) <= 4095.
Proof.
  intros H. unfold append_token, strncat.
  destruct (nonempty result); rewrite ?length_append, ?strtrunc_length; lia.
Qed.

Lemma expand_loop_length {A} (grammar : ec_node A) (tokens : list string) :
  forall (result : string) (expanded_any : bool),
    length result <= 4095 ->
    length (fst (expand_loop grammar tokens result expanded_any)) <= 4095.
Proof.
  induction tokens as [|token rest IH]; intros result any H; [exact H|].
  cbn [expand_loop].
  destruct (expand_single_token grammar
              (if nonempty result then result ++ " " ++ token else token));
    apply IH; now apply append_token_length.
Qed.

Lemma expand_loop_no_token {A} (grammar : ec_node A) (result : string)
    (expanded_any : bool) :
  expand_loop grammar [] result expanded_any = (result, expanded_any).
Proof. reflexivity. Qed.

(** X19.  An expansion never outgrows its buffer: whatever completions the
    grammar proposes, and however many tokens the command has, the text
    that [expand_prefixes] returns has at most 4095 bytes.  A command
    without any token, empty or made of blanks only, has no expansion. *)
Theorem expansion_fits_buffer :
  forall (A : Type) (grammar : ec_node A) (cmd : string),
    (forall r, expand_prefixes grammar cmd = Some r -> length r <= 4095)
    /\ (strtok_all cmd = [] -> expand_prefixes grammar cmd = None).
Proof.
  intros A grammar cmd. split.
  - intros r. unfold expand_prefixes.
    destruct (negb (nonempty cmd)); [discriminate|].
    pose proof (expand_loop_length grammar (strtok_all cmd) "" false) as H.
    destruct (expand_loop grammar (strtok_all cmd) "" false) as [res any].
    destruct any; [|discriminate].
    intros Hr. inversion Hr; subst. apply H. apply Nat.le_0_l.
  - intros Htok. unfold expand_prefixes. rewrite Htok.
    destruct (negb (nonempty cmd)); reflexivity.
Qed.

Lemma expansion_fits_buffer_witness :
  (exists r, expand_prefixes (demo_grammar true) "sh  sh" = Some r
             /\ length r <= 4095)
  /\ expand_prefixes (demo_grammar true) (String " " (String TAB " "))
     = None.
Proof.
  destruct (expansion_fits_buffer unit (demo_grammar true) "sh  sh")
    as [Hlen _].
  destruct (expansion_fits_buffer unit (demo_grammar true)
              (String " " (String TAB " "))) as [_ Hblank].
  split.
  - exists "show show". split; [reflexivity|]. apply Hlen. reflexivity.
  - apply Hblank. reflexivity.
Defined.

(* ================================================================== *)
(** ** The shape of a dump *)

(** The loop of the dump from a group that is open: the texts of the
    entries that stay in that group, its closing line, then whole blocks,
    the last of which the caller closes. *)
Lemma dump_loop_blocks {A} (fmts : list (string * string)) (app : A)
    (fp : bool) (entries : list (ecli_out_entry_t A)) :
  forall (current_group : option string) (out : list string)
         (last : option string),
    dump_loop fmts app fp entries current_group = Some (out, last) ->
    exists first blocks,
      (out ++ closing fp last
       = first ++ match blocks with
                  | [] => closing fp current_group
                  | _ :: _ =>
                      closing fp current_group
                        ++ List.concat (map (group_block fp) blocks)
                  end)%list
      /\ alternate current_group blocks
      /\ (first ++ List.concat (map snd blocks))%list = bodies fmts app fp entries
      /\ (blocks = [] -> last = current_group).
Proof.
  induction entries as [|e rest IH]; intros cur out last H.
  - simpl in H. inversion H; subst. exists [], []. simpl.
    repeat split; auto.
  - rewrite dump_loop_step in H. cbv zeta in H. cbn [bodies].
    destruct (match func e with
              | Some f =>
                  f app fp (ecli_out_get_fmt fmts (name e) (default_fmt e))
              | None => Some []
              end) as [body|] eqn:Hbody; [|discriminate].
    assert (Hb : match func e with
                 | Some f =>
                     match f app fp (ecli_out_get_fmt fmts (name e)
                                                      (default_fmt e)) with
                     | Some body => body
                     | None => []
                     end
                 | None => []
                 end = body).
    { destruct (func e) as [f|]; [|now inversion Hbody].
      now rewrite Hbody. }
    rewrite Hb.
    destruct (dump_loop fmts app fp rest
                (if group_changed cur (group e) then group e else cur))
      as [[out' last']|] eqn:Hrest; [|discriminate].
    inversion H; subst out last. clear H.
    destruct (IH _ _ _ Hrest) as [first' [blocks' [Hout [Halt [Hbod Hlast]]]]].
    destruct (group_changed cur (group e)) eqn:Hch.
    + destruct (group e) as [g|] eqn:Hg; [|discriminate].
      assert (Hne : cur <> Some g).
      { unfold group_changed in Hch. destruct cur as [c|]; [|discriminate].
        apply negb_true_iff, String.eqb_neq in Hch. congruence. }
      exists [], ((g, (body ++ first')%list) :: blocks').
      split; [|split; [|split]].
      * cbn [List.app map List.concat]. unfold group_block at 1. cbn [fst snd].
        unfold group_separator.
        replace (match cur with
                 | Some cur0 => [ECLI_OUT fp ("! end " ++ cur0 ++ nl)]
                 | None => []
                 end) with (closing fp cur) by reflexivity.
        rewrite <- !app_assoc. f_equal. cbn [List.app]. f_equal.
        f_equal. rewrite Hout. f_equal.
        destruct blocks' as [|b bs]; reflexivity.
      * cbn [alternate fst]. split; [exact Hne | exact Halt].
      * cbn [map List.concat snd List.app]. rewrite <- Hbod.
        now rewrite <- app_assoc.
      * discriminate.
    + exists (body ++ first')%list, blocks'.
      assert (Hmark : match group e with
                      | Some g => @nil string
                      | None => []
                      end = []) by (now destruct (group e)).
      rewrite Hmark. cbn [List.app].
      split; [|split; [|split]].
      * rewrite <- !app_assoc. f_equal. exact Hout.
      * exact Halt.
      * rewrite <- Hbod. now rewrite <- app_assoc.
      * exact Hlast.
Qed.

(** X20.  A dump that completes is well bracketed.  It is the two header
    lines, the texts of the bindings that come before the first grouped
    one, then a sequence of group blocks, each an opening line, texts and
    the closing line of the same group, then the two trailer lines: blocks
    are never nested or left open, and two blocks in a row never carry the
    same name.  The texts, outside and inside the blocks, are those of the
    output functions in the order of the registry. *)
Theorem dump_is_well_bracketed :
  forall (A : Type) (fmts : list (string * string))
         (registry : list (ecli_out_entry_t A)) (app : A) (fp : bool)
         (out : list string),
    ecli_dump_running_config fmts registry app fp = Some out ->
    exists first blocks,
      out = ([ECLI_OUT fp ("! running configuration" ++ nl);
              ECLI_OUT fp ("!" ++ nl)]
               ++ first
               ++ List.concat (map (group_block fp) blocks)
               ++ [ECLI_OUT fp ("!" ++ nl); ECLI_OUT fp ("! end" ++ nl)])%list
      /\ alternate None blocks
      /\ (first ++ List.concat (map snd blocks))%list
         = bodies fmts app fp registry.
Proof.
  intros A fmts registry app fp out H.
  unfold ecli_dump_running_config in H.
  destruct (dump_loop fmts app fp registry None) as [[body last]|] eqn:E;
    [|discriminate].
  inversion H; subst out. clear H.
  destruct (dump_loop_blocks _ _ _ _ _ _ _ E)
    as [first [blocks [Hout [Halt [Hbod _]]]]].
  exists first, blocks. split; [|split; [exact Halt | exact Hbod]].
  cbn [List.app]. f_equal. f_equal.
  change ((body ++ closing fp last
             ++ [ECLI_OUT fp ("!" ++ nl); ECLI_OUT fp ("! end" ++ nl)])%list
          = (first ++ List.concat (map (group_block fp) blocks)
               ++ [ECLI_OUT fp ("!" ++ nl); ECLI_OUT fp ("! end" ++ nl)])%list).
  rewrite !app_assoc. f_equal. rewrite Hout.
  destruct blocks; cbn [closing List.app List.concat map];
    [now rewrite app_nil_r | reflexivity].
Qed.

Lemma dump_is_well_bracketed_witness :
  exists first blocks,
    ecli_dump_running_config [] minimal_registry minimal_configured true
    = Some ([ECLI_OUT true ("! running configuration" ++ nl);
             ECLI_OUT true ("!" ++ nl)]
              ++ first
              ++ List.concat (map (group_block true) blocks)
              ++ [ECLI_OUT true ("!" ++ nl);
                  ECLI_OUT true ("! end" ++ nl)])%list
    /\ alternate None blocks.
Proof.
  destruct (dump_is_well_bracketed minimal_state [] minimal_registry
              minimal_configured true
              ["! running configuration" ++ nl; "!" ++ nl;
               "! greeting configuration" ++ nl; "set name Alice" ++ nl;
               "! end greeting" ++ nl;
               "! network configuration" ++ nl; "set address 10.0.0.1" ++ nl;
               "! end network" ++ nl;
               "!" ++ nl; "! end" ++ nl])
    as [first [blocks [Hout [Halt _]]]].
  - vm_compute. reflexivity.
  - exists first, blocks. split; [|exact Halt].
    rewrite <- Hout. vm_compute. reflexivity.
Defined.

(* ================================================================== *)
(** ** Lines longer than the read buffer *)

Lemma fgets_aux_full (size : nat) (a : string) :
  forall (room : nat) (cur b : string),
    length a = room -> 1 <= room -> no_char LF a = true ->
    fgets_aux size room cur (a ++ b)
    = (cur ++ a) :: fgets_aux size (size - 1) "" b.
Proof.
  induction a as [|c a IH]; intros room cur b Hlen Hroom Hlf.
  - simpl in Hlen. lia.
  - rewrite length_cons in Hlen. cbn [no_char] in Hlf.
    apply andb_true_iff in Hlf. destruct Hlf as [Hc Hlf].
    apply negb_true_iff in Hc. cbn [append fgets_aux]. rewrite Hc.
    cbn [orb]. destruct (room <=? 1)%nat eqn:E.
    + apply Nat.leb_le in E. assert (Ha : a = "").
      { destruct a; [reflexivity | rewrite length_cons in Hlen; lia]. }
      subst a. reflexivity.
    + apply Nat.leb_gt in E. rewrite (IH (room - 1)); [|lia|lia|exact Hlf].
      now rewrite append_assoc.
Qed.

(** X21.  A line of a configuration file that is longer than the 1023
    bytes read at a time is not replayed as one command: its first 1023
    bytes are taken as line 1 and the rest of the file is read as if it
    began on line 2, so the tail of the long line is executed as a command
    of its own and every later line is reported one number too high. *)
Theorem long_config_line_is_split :
  forall (A : Type) (grammar : ec_node A) (cli : eecli_ctx_t)
         (filename : string) (app : A) (a b : string),
    length a = 1023 ->
    no_char LF a = true ->
    let p := trim_tail config_tail (skip_blanks a) in
    fgets_all 1024 (a ++ b) = a :: fgets_all 1024 b
    /\ ecli_load_config grammar (Some cli) filename (inl (a ++ b)) app
       = load_config_loop grammar cli app (a :: fgets_all 1024 b) 0 0
    /\ config_commands (fgets_all 1024 (a ++ b)) 0
       = ((if nonempty p && negb (is_comment p) then [(1%Z, p)] else [])
            ++ config_commands (fgets_all 1024 b) 1)%list.
Proof.
  intros A grammar cli filename app a b Hlen Hlf p.
  assert (Hsplit : fgets_all 1024 (a ++ b) = a :: fgets_all 1024 b).
  { unfold fgets_all. change (1024 - 1) with 1023.
    rewrite (fgets_aux_full 1024 a 1023 "" b Hlen); [reflexivity| |exact Hlf].
    rewrite <- Hlen. destruct a; [discriminate|].
    rewrite length_cons. lia. }
  split; [exact Hsplit|]. split.
  - unfold ecli_load_config. now rewrite Hsplit.
  - rewrite Hsplit. cbn [config_commands]. fold p.
    change (0 + 1)%Z with 1%Z.
    destruct (nonempty p && negb (is_comment p)); reflexivity.
Qed.

Lemma long_config_line_is_split_witness :
  config_commands
    (fgets_all 1024 ((replicate 1019 "x" ++ "show") ++ "show" ++ nl)) 0
  = [(1%Z, replicate 1019 "x" ++ "show"); (2%Z, "show")].
Proof.
  destruct (long_config_line_is_split unit (demo_grammar true)
              (ecli_init (mk_config "cli> ") false) "startup.conf" tt
              (replicate 1019 "x" ++ "show") ("show" ++ nl))
    as [_ [_ Hcmds]].
  - vm_compute. reflexivity.
  - vm_compute. reflexivity.
  - rewrite Hcmds. vm_compute. reflexivity.
Defined.

(* ================================================================== *)
(** ** The editline loop and [process_line] *)

Lemma run_callback_direct {A} (grammar : ec_node A) (cli : eecli_ctx_t)
    (app : A) (parse : ec_pnode grammar) :
  use_yaml cli = false ->
  snd (fst (run_callback grammar cli app parse))
  = fst (editline_callback grammar app parse).
Proof.
  intros Hy. unfold run_callback, editline_callback. rewrite Hy.
  destruct (ecli_cmd_lookup_callback grammar parse) as [cb|]; [|reflexivity].
  now destruct (cb app parse) as [[ret app'] evs].
Qed.

Lemma dispatch_and_prompt_direct {A} (grammar : ec_node A)
    (cli : eecli_ctx_t) (app : A) (parse : ec_pnode grammar) :
  use_yaml cli = false ->
  snd (fst (dispatch_and_prompt grammar cli app parse))
  = fst (editline_callback grammar app parse).
Proof.
  intros Hy. rewrite <- (run_callback_direct grammar cli app parse Hy).
  unfold dispatch_and_prompt.
  now destruct (run_callback grammar cli app parse) as [[ret app'] evs].
Qed.

(** X22.  In direct mode a command has the same effect on the application
    whichever loop reads it: for a line that both loops trim to the same
    command, that is not one of the reserved words and whose full command
    fits the 511 bytes of [process_line], the application state after the
    turn of the editline loop is the state after [process_line].  Both
    parse the same full command, try the same expansion and call the same
    handler on the same parse tree; only the notices differ, and the
    editline loop drops the status of the handler. *)
Theorem editline_agrees_with_process_line :
  forall (A : Type) (grammar : ec_node A) (g_context_groups : list string)
         (error_helps : option (list event)) (cli cli' : eecli_ctx_t)
         (app app' : A) (line : string) (evs : list event),
    let t := trim_tail line_tail (skip_blanks line) in
    use_yaml cli = false ->
    nonempty t = true ->
    starts_with_newline (skip_blanks line) = false ->
    chomp (skip_blanks line) = t ->
    t <> "end" ->
    (t = "exit" -> context_depth cli = 0%Z) ->
    length (if (context_depth cli =? 0)%Z then t
            else context_prefix (context_stack cli) ++ t) <= 511 ->
    process_line grammar g_context_groups cli app line
    = Some (cli', app', evs) ->
    fst (editline_line grammar error_helps cli app line) = app'.
Proof.
  intros A grammar groups helps cli cli' app app' line evs t Hy Hne Hnl
         Hchomp Hend Hexit Hfit.
  assert (Hne2 : nonempty (skip_blanks line) = true).
  { unfold t in Hne. destruct (skip_blanks line); [discriminate|reflexivity]. }
  assert (Hcmd : ecli_build_full_command cli t 1024
                 = ecli_build_full_command cli t 512).
  { rewrite !ecli_build_full_command_eq.
    rewrite !strtrunc_all; [reflexivity| |].
    - change (512 - 1) with 511. exact Hfit.
    - change (1024 - 1) with 1023. lia. }
  unfold editline_line, process_line. fold t.
  rewrite Hne2, Hnl, Hchomp, Hne, Hcmd. cbn [negb orb].
  destruct (t =? "end") eqn:E1.
  { apply String.eqb_eq in E1. contradiction. }
  assert (E2 : (t =? "exit") && (0 <? context_depth cli)%Z = false).
  { destruct (t =? "exit") eqn:E; [|reflexivity].
    apply String.eqb_eq in E. now rewrite (Hexit E). }
  rewrite E2. unfold resolve_line.
  destruct (ec_parse grammar (ecli_build_full_command cli t 512))
    as [parse|].
  2:{ intros H. now inversion H. }
  destruct (ec_pnode_matches grammar parse); cbn [negb].
  { intros H.
    pose proof (dispatch_and_prompt_direct grammar cli app parse Hy) as Hd.
    destruct (dispatch_and_prompt grammar cli app parse) as [[c a] e].
    inversion H; subst. now rewrite <- Hd. }
  destruct (expanded_match grammar (ecli_build_full_command cli t 512))
    as [exp_parse|].
  { intros H.
    pose proof (dispatch_and_prompt_direct grammar cli app exp_parse Hy)
      as Hd.
    destruct (dispatch_and_prompt grammar cli app exp_parse) as [[c a] e].
    inversion H; subst. now rewrite <- Hd. }
  destruct (no_char " " t && is_context_group groups t).
  - destruct (ecli_enter_context cli t) as [[z c]|]; [|discriminate].
    intros H. now inversion H.
  - intros H. now inversion H.
Qed.

Lemma editline_agrees_with_process_line_witness :
  process_line quit_grammar [] (ecli_init (mk_config "cli> ") false) true
               ("  quit" ++ nl)
  = Some (ecli_init (mk_config "cli> ") false, false,
          [ecli_output ("Goodbye!" ++ nl); Write "cli> "])
  /\ fst (editline_line quit_grammar None
            (ecli_init (mk_config "cli> ") false) true ("  quit" ++ nl))
     = false.
Proof.
  pose (cli := ecli_init (mk_config "cli> ") false).
  split; [reflexivity|].
  apply (editline_agrees_with_process_line bool quit_grammar [] None
           cli cli true false ("  quit" ++ nl)
           [ecli_output ("Goodbye!" ++ nl); Write "cli> "]).
  - reflexivity.
  - reflexivity.
  - reflexivity.
  - reflexivity.
  - discriminate.
  - discriminate.
  - apply Nat.leb_le. reflexivity.
  - reflexivity.
Defined.

(* ================================================================== *)
(** ** Symbolic dispatch through the registry *)

Lemma register_then_lookup {H} (st : yaml_state H) (n : string) (cb : H) :
  lookup_callback_in
    (cb_registry (snd (ecli_yaml_register st (Some n) (Some cb)))) (Some n)
  = Some cb.
Proof.
  unfold ecli_yaml_register. rewrite initialized_or_fresh.
  set (st0 := if initialized st then st else mk_yaml true [] 0 []).
  rewrite lookup_callback_in_first.
  destruct (replace_entry (cb_registry st0) n cb) as [entries|] eqn:E; simpl.
  - destruct (replace_entry_some _ _ _ _ E) as [_ Hf].
    now rewrite Hf, String.eqb_refl.
  - now rewrite String.eqb_refl.
Qed.

(** X23.  Symbolic dispatch runs the handler last registered under the
    name that the matched command carries: after [ecli_yaml_register] of
    that name, [ecli_yaml_dispatch] returns what the registered handler
    returns, with its effect on the application and its output.  When the
    name is in no entry of the registry the dispatch returns -1, leaves
    the application as it is and reports the name; when the command
    carries no name it returns -1 and reports that. *)
Theorem dispatch_runs_registered_handler :
  forall (A : Type) (grammar : ec_node A)
         (st : yaml_state (handler A (ec_pnode grammar))) (app : A)
         (parse : ec_pnode grammar),
    match ecli_yaml_get_callback_name grammar parse with
    | Some n =>
        (forall cb : handler A (ec_pnode grammar),
            ecli_yaml_dispatch
              (with_cb_registry grammar
                 (cb_registry (snd (ecli_yaml_register st (Some n) (Some cb)))))
              app parse
            = cb app parse)
        /\ (~ In n (map fst (cb_registry st)) ->
            ecli_yaml_dispatch (with_cb_registry grammar (cb_registry st))
                               app parse
            = ((-1)%Z, app,
               [ecli_err ("No handler registered for callback: " ++ n
                            ++ nl)]))
    | None =>
        ecli_yaml_dispatch (with_cb_registry grammar (cb_registry st))
                           app parse
        = ((-1)%Z, app,
           [ecli_err ("No callback attribute found in parse tree" ++ nl)])
    end.
Proof.
  intros A grammar st app parse.
  destruct (ecli_yaml_get_callback_name grammar parse) as [n|] eqn:Hn.
  - split.
    + intros cb. unfold ecli_yaml_dispatch, with_cb_registry.
      cbn [ecli_yaml_get_callback_name lookup_callback].
      rewrite Hn. now rewrite register_then_lookup.
    + intros Hnot. unfold ecli_yaml_dispatch, with_cb_registry.
      cbn [ecli_yaml_get_callback_name lookup_callback].
      rewrite Hn, lookup_callback_in_first.
      apply first_named_none in Hnot. now rewrite Hnot.
  - unfold ecli_yaml_dispatch, with_cb_registry.
    cbn [ecli_yaml_get_callback_name]. now rewrite Hn.
Qed.

(* ================================================================== *)
(** ** The two sinks of a dump *)

Lemma ecli_out_fmt_uniform (fmt : option string)
    (ap : list ecli_fmt_param_t) :
  ecli_out_fmt false fmt ap
  = option_map (map (ECLI_OUT false)) (ecli_out_fmt true fmt ap).
Proof.
  unfold ecli_out_fmt. destruct fmt as [f|]; [|reflexivity].
  destruct (fmt_loop (length f) (read_params ECLI_FMT_MAX_PARAMS ap) f "" 0)
    as [output out].
  now destruct (out <=? out_end)%nat.
Qed.

Lemma group_separator_uniform (current_group : option string) (g : string) :
  group_separator false current_group g
  = map (ECLI_OUT false) (group_separator true current_group g).
Proof. now destruct current_group. Qed.

Lemma dump_loop_uniform {A} (fmts : list (string * string)) (app : A)
    (entries : list (ecli_out_entry_t A)) :
  (forall e f, In e entries -> func e = Some f -> uniform_sink f) ->
  forall current_group,
    dump_loop fmts app false entries current_group
    = option_map (fun r => (map (ECLI_OUT false) (fst r), snd r))
                 (dump_loop fmts app true entries current_group).
Proof.
  induction entries as [|e rest IH]; intros Hu cur; [reflexivity|].
  rewrite !dump_loop_step. cbv zeta.
  assert (Hbody :
    match func e with
    | Some f => f app false (ecli_out_get_fmt fmts (name e) (default_fmt e))
    | None => Some []
    end
    = option_map (map (ECLI_OUT false))
        match func e with
        | Some f => f app true (ecli_out_get_fmt fmts (name e) (default_fmt e))
        | None => Some []
        end).
  { destruct (func e) as [f|] eqn:Hf; [|reflexivity].
    apply (Hu e f); [now left | exact Hf]. }
  rewrite Hbody.
  destruct (match func e with
            | Some f =>
                f app true (ecli_out_get_fmt fmts (name e) (default_fmt e))
            | None => Some []
            end) as [body|]; [|reflexivity].
  cbn [option_map].
  rewrite IH by (intros e' f' Hin; apply Hu; now right).
  destruct (dump_loop fmts app true rest
              (if group_changed cur (group e) then group e else cur))
    as [[out last]|]; [|reflexivity].
  cbn [option_map fst snd]. f_equal. f_equal.
  rewrite !map_app. f_equal.
  destruct (group e) as [g|]; [|reflexivity].
  destruct (group_changed cur (Some g)); [|reflexivity].
  apply group_separator_uniform.
Qed.

(** X24.  The session is shown what a file is given.  When every output
    function treats both sinks alike, as every function that prints
    through [ecli_out_fmt] does, the dump to the session is the dump to
    a file with each text passed through the 1024-byte buffer of
    [ecli_output]: both are defined together, have the same texts in the
    same order, and are equal when no text of the file dump is longer
    than 1023 bytes. *)
Theorem dump_is_the_same_on_both_sinks :
  forall (A : Type) (fmts : list (string * string))
         (registry : list (ecli_out_entry_t A)) (app : A),
    (forall e f, In e registry -> func e = Some f -> uniform_sink f) ->
    ecli_dump_running_config fmts registry app false
    = option_map (map (ECLI_OUT false))
                 (ecli_dump_running_config fmts registry app true)
    /\ (forall out,
           ecli_dump_running_config fmts registry app true = Some out ->
           Forall (fun text => length text <= 1023) out ->
           ecli_dump_running_config fmts registry app false = Some out)
    /\ (forall (fmt : option string) (ap : list ecli_fmt_param_t),
           ecli_out_fmt false fmt ap
           = option_map (map (ECLI_OUT false)) (ecli_out_fmt true fmt ap)).
Proof.
  intros A fmts registry app Hu.
  assert (Hmain :
    ecli_dump_running_config fmts registry app false
    = option_map (map (ECLI_OUT false))
                 (ecli_dump_running_config fmts registry app true)).
  { unfold ecli_dump_running_config.
    rewrite (dump_loop_uniform fmts app registry Hu None).
    destruct (dump_loop fmts app true registry None) as [[out last]|];
      [|reflexivity].
    cbn [option_map fst snd]. f_equal.
    cbn [List.app map]. f_equal. f_equal.
    rewrite !map_app. f_equal. now destruct last. }
  split; [exact Hmain|]. split; [|exact ecli_out_fmt_uniform].
  intros out Hout Hshort. rewrite Hmain, Hout. cbn [option_map]. f_equal.
  clear Hout Hmain. induction Hshort as [|text rest Htext _ IH];
    [reflexivity|].
  cbn [map]. rewrite IH. f_equal. unfold ECLI_OUT.
  rewrite !snprintf_fits; [reflexivity| |]; try exact Htext.
  rewrite snprintf_fits; exact Htext.
Qed.

Lemma dump_is_the_same_on_both_sinks_witness :
  ecli_dump_running_config [] minimal_registry minimal_configured false
  = ecli_dump_running_config [] minimal_registry minimal_configured true.
Proof.
  destruct (dump_is_the_same_on_both_sinks minimal_state [] minimal_registry
              minimal_configured) as [_ [Hsame _]].
  - intros e f [He|[He|[]]] Hf; subst e; inversion Hf; subst f;
      intros app fmt.
    + unfold out_set_name. destruct (negb (g_name app =? "world"));
        [apply ecli_out_fmt_uniform | reflexivity].
    + unfold out_set_address. destruct (nonempty (g_address app));
        [apply ecli_out_fmt_uniform | reflexivity].
  - destruct (ecli_dump_running_config [] minimal_registry minimal_configured
                                       true) as [out|] eqn:E.
    + rewrite (Hsame out eq_refl); [reflexivity|].
      vm_compute in E. inversion E.
      repeat constructor; apply Nat.leb_le; reflexivity.
    + vm_compute in E. discriminate.
Defined.
